(** * AI-Job-Search-Agent: the tool adapters and the output normalizer

    A shallow embedding of [src/tools.py] and of the result-processing
    stage of [src/main.py].  Python values are an inductive type, Python
    strings are sequences of code points, exceptions are explicit
    results, and the calls made on the way (JSON parsing, the regular
    expression search, the pushes to the output sink) are recorded in a
    trace of events. *)

From Stdlib Require Import Ascii String.
From Stdlib Require Import List ZArith NArith Bool Lia.
From Stdlib Require DecimalN DecimalPos DecimalFacts.
Import ListNotations.

Local Open Scope N_scope.

(** ** Python strings *)

(** A Python [str] is a sequence of Unicode code points. *)
Definition pystr := list N.

Definition ch (a : ascii) : N := N_of_ascii a.

(** The Python literal ["..."], for ASCII text. *)
Definition u (s : string) : pystr := map N_of_ascii (list_ascii_of_string s).

Arguments ch : simpl never.
Arguments u : simpl never.

Definition pystr_eqb (a b : pystr) : bool :=
  if list_eq_dec N.eq_dec a b then true else false.

(** [str.isspace] on one code point, which is also what [\s] matches in a
    [str] pattern: the code points CPython lists as whitespace. *)
Definition is_space (c : N) : bool :=
  ((9 <=? c) && (c <=? 13)) || ((28 <=? c) && (c <=? 32))
  || (c =? 133) || (c =? 160) || (c =? 5760)
  || ((8192 <=? c) && (c <=? 8202))
  || (c =? 8232) || (c =? 8233) || (c =? 8239) || (c =? 8287) || (c =? 12288).

Fixpoint lstrip (s : pystr) : pystr :=
  match s with
  | c :: r => if is_space c then lstrip r else s
  | [] => []
  end.

Definition rstrip (s : pystr) : pystr := rev (lstrip (rev s)).

(** [s.strip()] *)
Definition strip (s : pystr) : pystr := rstrip (lstrip s).

(** [sep in s], for a one-character separator. *)
Definition contains (sep : N) (s : pystr) : bool := existsb (N.eqb sep) s.

(** [s.split(sep)], for a one-character separator: never empty. *)
Fixpoint split (sep : N) (s : pystr) : list pystr :=
  match s with
  | [] => [[]]
  | c :: r =>
      if c =? sep then [] :: split sep r
      else match split sep r with
           | p :: ps => (c :: p) :: ps
           | [] => [[c]]
           end
  end.

Fixpoint starts_with (p s : pystr) : option pystr :=
  match p, s with
  | [], _ => Some s
  | a :: p', b :: s' => if a =? b then starts_with p' s' else None
  | _ :: _, [] => None
  end.

(** ** Python values *)

(** A float is kept as the literal it was read from: [mant * 10 ^ exp10],
    signed, or one of the three constants the decoder accepts. *)
Inductive float_lit :=
| FNaN
| FInf (neg : bool)
| FDec (neg : bool) (mant : N) (exp10 : Z).

(** The double nearest to a literal is zero when the mantissa is zero or
    the value does not exceed half of the least subnormal, [2 ^ -1075]. *)
Definition float_is_zero (f : float_lit) : bool :=
  match f with
  | FDec _ m e =>
      (m =? 0) || ((e <? 0)%Z && (Z.of_N m * 2 ^ 1075 <=? 10 ^ (- e))%Z)
  | _ => false
  end.

(** It is an infinity when the value reaches the midpoint between the
    largest double and [2 ^ 1024]. *)
Definition float_is_inf (f : float_lit) : bool :=
  match f with
  | FNaN => false
  | FInf _ => true
  | FDec _ m e =>
      let bound := (2 ^ 1024 - 2 ^ 970)%Z in
      if (e <? 0)%Z then (bound * 10 ^ (- e) <=? Z.of_N m)%Z
      else (bound <=? Z.of_N m * 10 ^ e)%Z
  end.

#[local] Unset Elimination Schemes.
Inductive pyval :=
| PyNone
| PyBool (b : bool)
| PyInt (n : Z)
| PyFloat (f : float_lit)
| PyStr (s : pystr)
| PyList (l : list pyval)
| PyDict (d : list (pystr * pyval)).
#[local] Set Elimination Schemes.

(** A dict keeps insertion order; assigning to a key that is present
    keeps its place. *)
Fixpoint dict_get (k : pystr) (d : list (pystr * pyval)) : option pyval :=
  match d with
  | [] => None
  | (k', v) :: r => if pystr_eqb k k' then Some v else dict_get k r
  end.

Fixpoint dict_set (k : pystr) (v : pyval) (d : list (pystr * pyval))
  : list (pystr * pyval) :=
  match d with
  | [] => [(k, v)]
  | (k', v') :: r =>
      if pystr_eqb k k' then (k', v) :: r else (k', v') :: dict_set k v r
  end.

(** [dict(pairs)] *)
Definition dict_of_pairs (pairs : list (pystr * pyval)) : list (pystr * pyval) :=
  fold_left (fun d kv => dict_set (fst kv) (snd kv) d) pairs [].

(** Truth value of an object, as tested by [if x:] and [not x]. *)
Definition truthy (v : pyval) : bool :=
  match v with
  | PyNone => false
  | PyBool b => b
  | PyInt n => negb (n =? 0)%Z
  | PyFloat f => negb (float_is_zero f)
  | PyStr s => match s with [] => false | _ => true end
  | PyList l => match l with [] => false | _ => true end
  | PyDict d => match d with [] => false | _ => true end
  end.

Definition type_name (v : pyval) : pystr :=
  match v with
  | PyNone => u "NoneType"
  | PyBool _ => u "bool"
  | PyInt _ => u "int"
  | PyFloat _ => u "float"
  | PyStr _ => u "str"
  | PyList _ => u "list"
  | PyDict _ => u "dict"
  end.

(** ** Exceptions and effects *)

(** An exception: its class and [str(e)]. *)
Record exn := Exn { exn_class : pystr; exn_str : pystr }.

Definition AttributeError (v : pyval) (attr : string) : exn :=
  Exn (u "AttributeError")
      (u "'" ++ type_name v ++ u "' object has no attribute '" ++ u attr ++ u "'").

Definition NotSubscriptable (v : pyval) : exn :=
  Exn (u "TypeError") (u "'" ++ type_name v ++ u "' object is not subscriptable").

(** The decoder's error; its message is not kept apart, the program
    discards it. *)
Definition JSONDecodeError : exn := Exn (u "JSONDecodeError") (u "Expecting value").

Definition is_JSONDecodeError (e : exn) : bool :=
  pystr_eqb (exn_class e) (u "JSONDecodeError").

Inductive result (A : Type) :=
| Ok (a : A)
| Raise (e : exn).
Arguments Ok {A} a.
Arguments Raise {A} e.

(** What a run does to the outside, in order. *)
Inductive event :=
| JsonLoads (text : pystr)
| ReSearch (text : pystr)
| PushData (data : pyval)
| LogError (msg : pystr)
| ActorCall (actor_id : pystr) (run_input : pyval)
| ListItems (dataset_id : pyval)
| ModelCall (resume_text : pystr).

(** Computations that may raise and that append to the trace. *)
Definition M (A : Type) : Type := list event -> result A * list event.

Definition ret {A} (a : A) : M A := fun t => (Ok a, t).

Definition bind {A B} (m : M A) (k : A -> M B) : M B :=
  fun t => match m t with
           | (Ok a, t') => k a t'
           | (Raise e, t') => (Raise e, t')
           end.

Definition emit (ev : event) : M unit := fun t => (Ok tt, t ++ [ev]).

Definition lift {A} (r : result A) : M A := fun t => (r, t).

(** [try: body / except <class matched by sel> as e: handler e] *)
Definition try_except {A} (body : M A) (sel : exn -> bool) (handler : exn -> M A)
  : M A :=
  fun t => match body t with
           | (Ok a, t') => (Ok a, t')
           | (Raise e, t') => if sel e then handler e t' else (Raise e, t')
           end.

(** [except Exception] *)
Definition any_exception (e : exn) : bool := true.

Notation "x <- m ;; k" := (bind m (fun x => k))
  (at level 61, m at next level, right associativity).
Notation "m ;;; k" := (bind m (fun _ => k))
  (at level 61, right associativity).

Definition and_then {A B} (r : result A) (k : A -> result B) : result B :=
  match r with
  | Ok a => k a
  | Raise e => Raise e
  end.

Notation "x <~ r ;; k" := (and_then r (fun x => k))
  (at level 61, r at next level, right associativity).

Definition run {A} (m : M A) : result A * list event := m [].


Definition pushes (t : list event) : list pyval :=
  flat_map (fun ev => match ev with PushData d => [d] | _ => [] end) t.

Definition json_attempts (t : list event) : list pystr :=
  flat_map (fun ev => match ev with JsonLoads s => [s] | _ => [] end) t.

Definition model_calls (t : list event) : list pystr :=
  flat_map (fun ev => match ev with ModelCall p => [p] | _ => [] end) t.

Definition searches (t : list event) : list pystr :=
  flat_map (fun ev => match ev with ReSearch s => [s] | _ => [] end) t.

Definition logged (t : list event) : list pystr :=
  flat_map (fun ev => match ev with LogError msg => [msg] | _ => [] end) t.

Definition actor_calls (t : list event) : list (pystr * pyval) :=
  flat_map (fun ev => match ev with
                      | ActorCall id run_input => [(id, run_input)]
                      | _ => []
                      end) t.

Definition datasets_read (t : list event) : list pyval :=
  flat_map (fun ev => match ev with ListItems id => [id] | _ => [] end) t.

(** ** The interpreter

    What depends on the CPython in use, and on where it stands when the
    program calls it, and is not computed here: the text [str(x)] of an
    arbitrary object; whether a slice can be a dict key (from 3.12 on it
    can, and slicing a dict raises [KeyError] instead of [TypeError]);
    the depth of recursion that is left to [json.loads] where [main]
    calls it, which is the number of arrays and objects, one inside the
    other, that it can enter; and the messages of the two [ValueError]
    of the limit on the digits of an integer, whose wording changed
    between versions: the one of [int(text)] for a text of so many
    digits, and the one of [str(n)]. *)
Class Interpreter := {
  py_str : pyval -> pystr;
  slice_hashable : bool;
  recursion_budget : nat;
  int_limit_message : nat -> pystr;
  str_limit_message : pystr
}.

Fixpoint digits_of_uint (d : Decimal.uint) : pystr :=
  match d with
  | Decimal.Nil => []
  | Decimal.D0 t => 48 :: digits_of_uint t
  | Decimal.D1 t => 49 :: digits_of_uint t
  | Decimal.D2 t => 50 :: digits_of_uint t
  | Decimal.D3 t => 51 :: digits_of_uint t
  | Decimal.D4 t => 52 :: digits_of_uint t
  | Decimal.D5 t => 53 :: digits_of_uint t
  | Decimal.D6 t => 54 :: digits_of_uint t
  | Decimal.D7 t => 55 :: digits_of_uint t
  | Decimal.D8 t => 56 :: digits_of_uint t
  | Decimal.D9 t => 57 :: digits_of_uint t
  end.

(** [str(n)] for an [int] *)
Definition str_of_N (n : N) : pystr := digits_of_uint (N.to_uint n).

Definition str_of_Z (z : Z) : pystr :=
  match z with
  | Zneg p => ch "-" :: str_of_N (Npos p)
  | _ => str_of_N (Z.to_N z)
  end.

(** [sys.get_int_max_str_digits()]: the default, which the program
    leaves as it is. *)
Definition int_max_str_digits : nat := 4300.

(** The [ValueError] of [int(text)] for a text of [n] digits, more than
    the limit. *)
Definition too_many_digits {interp : Interpreter} (n : nat) : exn :=
  Exn (u "ValueError") (int_limit_message n).

(** The [ValueError] of [str(n)] for an integer of more digits than the
    limit. *)
Definition too_many_digits_to_str {interp : Interpreter} : exn :=
  Exn (u "ValueError") str_limit_message.

Definition RecursionError (doing : string) : exn :=
  Exn (u "RecursionError") (u "maximum recursion depth exceeded" ++ u doing).

(** ** [json.loads]

    The decoder of the standard library, in its default (strict) mode:
    the scanner dispatches on the first character; strings, numbers and
    whitespace are read by structural recursion, nested values with
    fuel.  Besides [JSONDecodeError] for text that is not JSON, it
    raises [ValueError] on an integer of more digits than [int] accepts
    and [RecursionError] when arrays and objects are nested deeper than
    the recursion that is left. *)

Definition quote : N := 34.
Definition backslash : N := 92.

Definition is_json_ws (c : N) : bool :=
  (c =? 32) || (c =? 9) || (c =? 10) || (c =? 13).

Fixpoint skip_ws (s : pystr) : pystr :=
  match s with
  | c :: r => if is_json_ws c then skip_ws r else s
  | [] => []
  end.

Definition is_digit (c : N) : bool := (48 <=? c) && (c <=? 57).

Definition hex_digit (c : N) : option N :=
  if (48 <=? c) && (c <=? 57) then Some (c - 48)
  else if (65 <=? c) && (c <=? 70) then Some (c - 55)
  else if (97 <=? c) && (c <=? 102) then Some (c - 87)
  else None.

Definition decode_uXXXX (a b c d : N) : option N :=
  match hex_digit a, hex_digit b, hex_digit c, hex_digit d with
  | Some x, Some y, Some z, Some w => Some (((x * 16 + y) * 16 + z) * 16 + w)
  | _, _, _, _ => None
  end.

(** The table [BACKSLASH] of one-character escapes. *)
Definition unescape (c : N) : option N :=
  if c =? quote then Some quote
  else if c =? backslash then Some backslash
  else if c =? ch "/" then Some (ch "/")
  else if c =? ch "b" then Some 8
  else if c =? ch "f" then Some 12
  else if c =? ch "n" then Some 10
  else if c =? ch "r" then Some 13
  else if c =? ch "t" then Some 9
  else None.

Definition is_high_surrogate (c : N) : bool := (55296 <=? c) && (c <=? 56319).
Definition is_low_surrogate (c : N) : bool := (56320 <=? c) && (c <=? 57343).

Definition join_surrogates (hi lo : N) : N :=
  65536 + N.lor (N.shiftl (hi - 55296) 10) (lo - 56320).

Definition consed (c : N) (p : option (pystr * pystr)) : option (pystr * pystr) :=
  match p with
  | Some (x, r) => Some (c :: x, r)
  | None => None
  end.

(** [scanstring], entered after the opening quote: the decoded text and
    what follows the closing quote. *)
Fixpoint scanstring (s : pystr) : option (pystr * pystr) :=
  match s with
  | [] => None
  | c :: r =>
      if c =? quote then Some ([], r)
      else if c =? backslash then
        match r with
        | [] => None
        | e :: r1 =>
            if e =? ch "u" then
              match r1 with
              | a :: b :: c1 :: d :: r2 =>
                  match decode_uXXXX a b c1 d with
                  | None => None
                  | Some uni =>
                      match r2 with
                      | b1 :: u1 :: a' :: b' :: c' :: d' :: r3 =>
                          if is_high_surrogate uni && (b1 =? backslash)
                             && (u1 =? ch "u")
                          then
                            match decode_uXXXX a' b' c' d' with
                            | None => None
                            | Some uni2 =>
                                if is_low_surrogate uni2
                                then consed (join_surrogates uni uni2) (scanstring r3)
                                else consed uni (scanstring r2)
                            end
                          else consed uni (scanstring r2)
                      | _ => consed uni (scanstring r2)
                      end
                  end
              | _ => None
              end
            else
              match unescape e with
              | Some x => consed x (scanstring r1)
              | None => None
              end
        end
      else if c <? 32 then None
      else consed c (scanstring r)
  end.

Fixpoint span_digits (s : pystr) : pystr * pystr :=
  match s with
  | c :: r =>
      if is_digit c then let (d, r') := span_digits r in (c :: d, r')
      else ([], s)
  | [] => ([], [])
  end.

Fixpoint uint_of_digits (d : pystr) : Decimal.uint :=
  match d with
  | [] => Decimal.Nil
  | c :: r =>
      let t := uint_of_digits r in
      match c - 48 with
      | 0 => Decimal.D0 t | 1 => Decimal.D1 t | 2 => Decimal.D2 t
      | 3 => Decimal.D3 t | 4 => Decimal.D4 t | 5 => Decimal.D5 t
      | 6 => Decimal.D6 t | 7 => Decimal.D7 t | 8 => Decimal.D8 t
      | _ => Decimal.D9 t
      end
  end.

Definition digits_value (d : pystr) : N := N.of_uint (uint_of_digits d).

(** The integer part of [NUMBER_RE], after the sign: a lone zero, or a
    non-zero digit and the digits that follow. *)
Definition match_integer (s : pystr) : option (pystr * pystr) :=
  match s with
  | c :: r =>
      if c =? 48 then Some ([c], r)
      else if is_digit c then let (d, r') := span_digits r in Some (c :: d, r')
      else None
  | [] => None
  end.

(** The fraction of [NUMBER_RE]: a dot and at least one digit. *)
Definition match_frac (s : pystr) : option (pystr * pystr) :=
  match s with
  | c :: r =>
      if c =? ch "." then
        match span_digits r with
        | ([], _) => None
        | (d, r') => Some (d, r')
        end
      else None
  | [] => None
  end.

(** The digits of an exponent, at least one, signed by [neg]. *)
Definition exp_digits (neg : bool) (s : pystr) : option (Z * pystr) :=
  match span_digits s with
  | ([], _) => None
  | (d, r) =>
      let e := Z.of_N (digits_value d) in
      Some (if neg then (- e)%Z else e, r)
  end.

(** The exponent of [NUMBER_RE]: e or E, a sign or none, at least one
    digit. *)
Definition match_exp (s : pystr) : option (Z * pystr) :=
  match s with
  | c :: r =>
      if (c =? ch "e") || (c =? ch "E") then
        match r with
        | x :: r1 =>
            if x =? ch "-" then exp_digits true r1
            else if x =? ch "+" then exp_digits false r1
            else exp_digits false r
        | [] => exp_digits false r
        end
      else None
  | [] => None
  end.

(** What a scan gives: a value and the rest of the text, the failure
    that becomes [JSONDecodeError], no answer for want of fuel, or
    another exception. *)
Inductive scan (A : Type) :=
| Scanned (a : A) (rest : pystr)
| Malformed
| Exhausted
| Failed (e : exn).
Arguments Scanned {A} a rest.
Arguments Malformed {A}.
Arguments Exhausted {A}.
Arguments Failed {A} e.

Definition literal (word : string) (v : pyval) (s : pystr) : option (pyval * pystr) :=
  match starts_with (u word) s with
  | Some r => Some (v, r)
  | None => None
  end.

Definition first_of {A} (a b : option A) : option A :=
  match a with Some _ => a | None => b end.

Definition found (x : option (pyval * pystr)) : option (result pyval * pystr) :=
  match x with
  | Some (v, r) => Some (Ok v, r)
  | None => None
  end.

Section Decoder.
Context {interp : Interpreter}.

(** [NUMBER_RE.match] and the conversion of what it matched: by [int]
    when there is neither fraction nor exponent, which raises on more
    digits than the limit, by [float] otherwise. *)
Definition match_number (s : pystr) : option (result pyval * pystr) :=
  let '(neg, s1) :=
    match s with
    | c :: r => if c =? ch "-" then (true, r) else (false, s)
    | [] => (false, s)
    end in
  match match_integer s1 with
  | None => None
  | Some (int, s2) =>
      let '(frac, s3) :=
        match match_frac s2 with
        | Some (f, r) => (Some f, r)
        | None => (None, s2)
        end in
      let '(exp, s4) :=
        match match_exp s3 with
        | Some (e, r) => (Some e, r)
        | None => (None, s3)
        end in
      match frac, exp with
      | None, None =>
          if (int_max_str_digits <? length int)%nat
          then Some (Raise (too_many_digits (length int)), s4)
          else
            let n := Z.of_N (digits_value int) in
            Some (Ok (PyInt (if neg then (- n)%Z else n)), s4)
      | _, _ =>
          let f := match frac with Some f => f | None => [] end in
          let e := match exp with Some e => e | None => 0%Z end in
          Some (Ok (PyFloat (FDec neg (digits_value (int ++ f))
                                  (e - Z.of_nat (length f)))), s4)
      end
  end.

(** The scalars other than strings, tried in the scanner's order. *)
Definition scan_scalar (s : pystr) : option (result pyval * pystr) :=
  first_of (found (literal "null" PyNone s))
  (first_of (found (literal "true" (PyBool true) s))
  (first_of (found (literal "false" (PyBool false) s))
  (first_of (match_number s)
  (first_of (found (literal "NaN" (PyFloat FNaN) s))
  (first_of (found (literal "Infinity" (PyFloat (FInf false)) s))
            (found (literal "-Infinity" (PyFloat (FInf true)) s))))))).

(** [scan_once]: an array or an object is entered only if the recursion
    that is left allows it, [depth] being what is left. *)
Fixpoint scan_once (fuel depth : nat) (s : pystr) : scan pyval :=
  match fuel with
  | O => Exhausted
  | S fuel =>
      match s with
      | [] => Malformed
      | c :: r =>
          if c =? quote then
            match scanstring r with
            | Some (x, r') => Scanned (PyStr x) r'
            | None => Malformed
            end
          else if c =? ch "{" then
            match depth with
            | O =>
                Failed (RecursionError
                          " while decoding a JSON object from a unicode string")
            | S depth =>
                match skip_ws r with
                | c1 :: r1 =>
                    if c1 =? ch "}" then Scanned (PyDict []) r1
                    else if c1 =? quote then
                      match JSONObject fuel depth r1 with
                      | Scanned pairs r' =>
                          Scanned (PyDict (dict_of_pairs pairs)) r'
                      | Malformed => Malformed
                      | Exhausted => Exhausted
                      | Failed e => Failed e
                      end
                    else Malformed
                | [] => Malformed
                end
            end
          else if c =? ch "[" then
            match depth with
            | O =>
                Failed (RecursionError
                          " while decoding a JSON array from a unicode string")
            | S depth =>
                match skip_ws r with
                | c1 :: r1 =>
                    if c1 =? ch "]" then Scanned (PyList []) r1
                    else
                      match JSONArray fuel depth (c1 :: r1) with
                      | Scanned values r' => Scanned (PyList values) r'
                      | Malformed => Malformed
                      | Exhausted => Exhausted
                      | Failed e => Failed e
                      end
                | [] => Malformed
                end
            end
          else
            match scan_scalar s with
            | Some (Ok v, r') => Scanned v r'
            | Some (Raise e, _) => Failed e
            | None => Malformed
            end
      end
  end

(** The loop of [JSONObject], entered after the opening quote of a key:
    the pairs up to the closing brace. *)
with JSONObject (fuel depth : nat) (s : pystr) : scan (list (pystr * pyval)) :=
  match fuel with
  | O => Exhausted
  | S fuel =>
      match scanstring s with
      | None => Malformed
      | Some (key, r) =>
          match skip_ws r with
          | c :: r1 =>
              if c =? ch ":" then
                match scan_once fuel depth (skip_ws r1) with
                | Scanned value r2 =>
                    match skip_ws r2 with
                    | c2 :: r3 =>
                        if c2 =? ch "}" then Scanned [(key, value)] r3
                        else if c2 =? ch "," then
                          match skip_ws r3 with
                          | c3 :: r4 =>
                              if c3 =? quote then
                                match JSONObject fuel depth r4 with
                                | Scanned pairs r5 =>
                                    Scanned ((key, value) :: pairs) r5
                                | Malformed => Malformed
                                | Exhausted => Exhausted
                                | Failed e => Failed e
                                end
                              else Malformed
                          | [] => Malformed
                          end
                        else Malformed
                    | [] => Malformed
                    end
                | Malformed => Malformed
                | Exhausted => Exhausted
                | Failed e => Failed e
                end
              else Malformed
          | [] => Malformed
          end
      end
  end

(** The loop of [JSONArray], entered at the first value: the values up to
    the closing bracket. *)
with JSONArray (fuel depth : nat) (s : pystr) : scan (list pyval) :=
  match fuel with
  | O => Exhausted
  | S fuel =>
      match scan_once fuel depth s with
      | Scanned value r =>
          match skip_ws r with
          | c :: r1 =>
              if c =? ch "]" then Scanned [value] r1
              else if c =? ch "," then
                match JSONArray fuel depth (skip_ws r1) with
                | Scanned values r2 => Scanned (value :: values) r2
                | Malformed => Malformed
                | Exhausted => Exhausted
                | Failed e => Failed e
                end
              else Malformed
          | [] => Malformed
          end
      | Malformed => Malformed
      | Exhausted => Exhausted
      | Failed e => Failed e
      end
  end.

(** [JSONDecoder.decode]: leading whitespace, one value, trailing
    whitespace, nothing more. *)
Definition decode (s : pystr) : scan pyval :=
  match scan_once (S (2 * length s)) recursion_budget (skip_ws s) with
  | Scanned v r =>
      match skip_ws r with
      | [] => Scanned v []
      | _ :: _ => Malformed
      end
  | other => other
  end.

(** [json.loads(s)]: the value, or the exception that it raises. *)
Definition json_loads (s : pystr) : result pyval :=
  match decode s with
  | Scanned v _ => Ok v
  | Failed e => Raise e
  | _ => Raise JSONDecodeError
  end.

End Decoder.

(** ** [re.search]

    A backtracking matcher for the fragment of regular expressions the
    program uses, in continuation-passing style: alternatives are tried
    in the order of the [re] module (a greedy repetition longest first, a
    lazy one shortest first), and the first complete match wins. *)

Inductive regex :=
| Lit (s : pystr)
| Star (cls : N -> bool) (greedy : bool)
| Opt (r : regex)
| Group (r : regex)
| Seq (r1 r2 : regex).

Fixpoint star_greedy {R} (cls : N -> bool) (s : pystr) (k : pystr -> option R)
  : option R :=
  match s with
  | c :: r =>
      if cls c then
        match star_greedy cls r k with
        | Some x => Some x
        | None => k s
        end
      else k s
  | [] => k []
  end.

Fixpoint star_lazy {R} (cls : N -> bool) (s : pystr) (k : pystr -> option R)
  : option R :=
  match k s with
  | Some x => Some x
  | None =>
      match s with
      | c :: r => if cls c then star_lazy cls r k else None
      | [] => None
      end
  end.

(** [rmatch r s g k]: match [r] at the head of [s], with [g] the text
    captured by the group so far, and hand the rest to [k]. *)
Fixpoint rmatch {R} (r : regex) (s : pystr) (g : option pystr)
  (k : pystr -> option pystr -> option R) : option R :=
  match r with
  | Lit l =>
      match starts_with l s with
      | Some s' => k s' g
      | None => None
      end
  | Star cls true => star_greedy cls s (fun s' => k s' g)
  | Star cls false => star_lazy cls s (fun s' => k s' g)
  | Opt r1 =>
      match rmatch r1 s g k with
      | Some x => Some x
      | None => k s g
      end
  | Group r1 =>
      rmatch r1 s g
        (fun s' _ => k s' (Some (firstn (length s - length s') s)))
  | Seq r1 r2 => rmatch r1 s g (fun s' g' => rmatch r2 s' g' k)
  end.

(** A match object, reduced to what [group(1)] returns. *)
Definition re_match (r : regex) (s : pystr) : option (option pystr) :=
  rmatch r s None (fun _ g => Some g).

(** [re.search]: the match at the leftmost position that has one. *)
Fixpoint re_search (r : regex) (s : pystr) : option (option pystr) :=
  match re_match r s with
  | Some g => Some g
  | None =>
      match s with
      | [] => None
      | _ :: s' => re_search r s'
      end
  end.

Notation "r1 >>> r2" := (Seq r1 r2) (at level 60, right associativity).

Fixpoint group_free (r : regex) : bool :=
  match r with
  | Lit _ | Star _ _ => true
  | Opt r1 => group_free r1
  | Group _ => false
  | Seq r1 r2 => group_free r1 && group_free r2
  end.

(** [.] under [re.DOTALL] *)
Definition dot_all (c : N) : bool := true.

(** The texts that an expression matches as a whole. *)
Fixpoint matches (r : regex) (p : pystr) : Prop :=
  match r with
  | Lit l => p = l
  | Star cls _ => Forall (fun c => cls c = true) p
  | Opt r1 => p = [] \/ matches r1 p
  | Group r1 => matches r1 p
  | Seq r1 r2 => exists p1 p2, p = p1 ++ p2 /\ matches r1 p1 /\ matches r2 p2
  end.

(** ** Methods and operators *)

(** [x.get(key, default)] *)
Definition method_get (x : pyval) (key : string) (default : pyval) : result pyval :=
  match x with
  | PyDict d =>
      Ok (match dict_get (u key) d with Some v => v | None => default end)
  | _ => Raise (AttributeError x "get")
  end.

(** [x.strip()] *)
Definition method_strip (x : pyval) : result pystr :=
  match x with
  | PyStr s => Ok (strip s)
  | _ => Raise (AttributeError x "strip")
  end.

(** [x[:n]] *)
Definition slice_to {interp : Interpreter} (n : nat) (x : pyval) : result pyval :=
  match x with
  | PyList l => Ok (PyList (firstn n l))
  | PyStr s => Ok (PyStr (firstn n s))
  | PyDict _ =>
      Raise (if slice_hashable
             then Exn (u "KeyError")
                      (u "slice(None, " ++ str_of_N (N.of_nat n) ++ u ", None)")
             else Exn (u "TypeError") (u "unhashable type: 'slice'"))
  | _ => Raise (NotSubscriptable x)
  end.

(** [key in x and x[key]], for a string key: [None] when [x] is not a
    dict or has no such key. *)
Definition item (x : pyval) (key : string) : option pyval :=
  match x with
  | PyDict d => dict_get (u key) d
  | _ => None
  end.

(** [x[key]] on a dict *)
Definition getitem (d : list (pystr * pyval)) (key : string) : result pyval :=
  match dict_get (u key) d with
  | Some v => Ok v
  | None => Raise (Exn (u "KeyError") (u "'" ++ u key ++ u "'"))
  end.

(** [l[i]] on a list *)
Definition index {A} (l : list A) (i : nat) : result A :=
  match nth_error l i with
  | Some x => Ok x
  | None => Raise (Exn (u "IndexError") (u "list index out of range"))
  end.

(** [x + s] for a string [s] *)
Definition add_str (x : pyval) (s : pystr) : result pystr :=
  match x with
  | PyStr a => Ok (a ++ s)
  | PyList _ =>
      Raise (Exn (u "TypeError")
               (u "can only concatenate list (not " ++ [quote] ++ u "str"
                  ++ [quote] ++ u ") to list"))
  | _ =>
      Raise (Exn (u "TypeError")
               (u "unsupported operand type(s) for +: '" ++ type_name x
                  ++ u "' and 'str'"))
  end.

(** ** Values that JSON text carries exactly *)

(** A code point of a Python string. *)
Definition code_point (c : N) : bool := c <=? 1114111.

(** No high surrogate stands right before a low one: the decoder reads
    the escapes of two such characters as one character. *)
Fixpoint unpaired (s : pystr) : bool :=
  match s with
  | c :: r =>
      match r with
      | d :: _ => negb (is_high_surrogate c && is_low_surrogate d)
      | [] => true
      end && unpaired r
  | [] => true
  end.

Definition carried_text (s : pystr) : bool := forallb code_point s && unpaired s.

(** The text starts with an escape of four digits that the decoder would
    take for the second half of a pair, or cannot read. *)
Definition low_escape_follows (s : pystr) : bool :=
  match s with
  | b1 :: u1 :: a :: b :: c :: d :: _ =>
      (b1 =? backslash) && (u1 =? ch "u")
      && match decode_uXXXX a b c d with
         | Some x => is_low_surrogate x
         | None => true
         end
  | _ => false
  end.

Fixpoint unique (keys : list pystr) : bool :=
  match keys with
  | [] => true
  | k :: r => negb (existsb (pystr_eqb k) r) && unique r
  end.

Definition float_lit_eqb (f g : float_lit) : bool :=
  match f, g with
  | FNaN, FNaN => true
  | FInf a, FInf b => Bool.eqb a b
  | FDec a m e, FDec b n k => Bool.eqb a b && (m =? n) && (e =? k)%Z
  | _, _ => false
  end.

(** The number of values in a value, which bounds the fuel to read it. *)
Fixpoint size (v : pyval) : nat :=
  match v with
  | PyList l => S (list_sum (map (fun x => S (size x)) l))
  | PyDict d => S (list_sum (map (fun kv => S (size (snd kv))) d))
  | _ => 1
  end.

(** The number of lists and dicts that stand one inside the other. *)
Fixpoint nesting (v : pyval) : nat :=
  match v with
  | PyList l => S (fold_right (fun x n => Nat.max (nesting x) n) O l)
  | PyDict d => S (fold_right (fun kv n => Nat.max (nesting (snd kv)) n) O d)
  | _ => O
  end.

(** Where the text of a value may end: at the end of the input, or
    before a comma or a closing bracket or brace. *)
Definition ends_value (rest : pystr) : bool :=
  match rest with
  | [] => true
  | c :: _ => (c =? ch ",") || (c =? ch "]") || (c =? ch "}")
  end.

(** ** [json.dumps]

    The encoder with its default arguments: [ensure_ascii], the
    separators [", "] and [": "], keys in the order of the dict.  It
    raises [ValueError] on an integer of more digits than [str] writes
    and [RecursionError] when lists and dicts are nested deeper than the
    recursion that is left. *)

Definition hex_char (d : N) : N := if d <? 10 then 48 + d else 87 + d.

(** ['\\u{0:04x}'.format(c)] *)
Definition escape_u (c : N) : pystr :=
  [backslash; ch "u"; hex_char (c / 4096); hex_char ((c / 256) mod 16);
   hex_char ((c / 16) mod 16); hex_char (c mod 16)].

(** The replacement of one character by [py_encode_basestring_ascii] *)
Definition escape_char (c : N) : pystr :=
  if c =? quote then [backslash; quote]
  else if c =? backslash then [backslash; backslash]
  else if c =? 10 then [backslash; ch "n"]
  else if c =? 13 then [backslash; ch "r"]
  else if c =? 9 then [backslash; ch "t"]
  else if c =? 12 then [backslash; ch "f"]
  else if c =? 8 then [backslash; ch "b"]
  else if (32 <=? c) && (c <=? 126) then [c]
  else if c <? 65536 then escape_u c
  else
    let n := c - 65536 in
    escape_u (N.lor 55296 (N.land (N.shiftr n 10) 1023))
    ++ escape_u (N.lor 56320 (N.land n 1023)).

Definition encode_basestring_ascii (s : pystr) : pystr :=
  quote :: flat_map escape_char s ++ [quote].

(** [sep.join(parts)] *)
Fixpoint join (sep : pystr) (parts : list pystr) : pystr :=
  match parts with
  | [] => []
  | [p] => p
  | p :: rest => p ++ sep ++ join sep rest
  end.

(** What follows the first part of a joined text, up to [close]. *)
Definition continued (parts : list pystr) (close : pystr) : pystr :=
  match parts with
  | [] => close
  | _ :: _ => u ", " ++ join (u ", ") parts ++ close
  end.

Section Encoder.
Context {interp : Interpreter}.

Definition floatstr (f : float_lit) : pystr :=
  match f with
  | FNaN => u "NaN"
  | FInf neg => if neg then u "-Infinity" else u "Infinity"
  | FDec neg _ _ =>
      if float_is_inf f then (if neg then u "-Infinity" else u "Infinity")
      else py_str (PyFloat f)
  end.

(** The text that the encoder writes when it raises nothing. *)
Fixpoint json_text (v : pyval) : pystr :=
  match v with
  | PyNone => u "null"
  | PyBool true => u "true"
  | PyBool false => u "false"
  | PyInt n => str_of_Z n
  | PyFloat f => floatstr f
  | PyStr s => encode_basestring_ascii s
  | PyList l => u "[" ++ join (u ", ") (map json_text l) ++ u "]"
  | PyDict d =>
      u "{"
      ++ join (u ", ")
           (map (fun kv =>
                   encode_basestring_ascii (fst kv) ++ u ": "
                   ++ json_text (snd kv)) d)
      ++ u "}"
  end.

Definition first_error (errors : list (option exn)) : option exn :=
  fold_right (fun e later => match e with Some _ => e | None => later end)
    None errors.

(** The exception that the encoder meets first, going through the value
    in order, with [depth] lists and dicts left to enter. *)
Fixpoint encode_error (depth : nat) (v : pyval) {struct v} : option exn :=
  match v with
  | PyInt n =>
      if (int_max_str_digits <? length (str_of_N (Z.abs_N n)))%nat
      then Some too_many_digits_to_str
      else None
  | PyList l =>
      match depth with
      | O => Some (RecursionError " while encoding a JSON object")
      | S depth => first_error (map (encode_error depth) l)
      end
  | PyDict d =>
      match depth with
      | O => Some (RecursionError " while encoding a JSON object")
      | S depth => first_error (map (fun kv => encode_error depth (snd kv)) d)
      end
  | _ => None
  end.

(** [json.dumps(v)], called where [depth] is the recursion that is
    left. *)
Definition json_dumps (depth : nat) (v : pyval) : result pystr :=
  match encode_error depth v with
  | Some e => Raise e
  | None => Ok (json_text v)
  end.

(** The scanner reads the text of a float back as the same literal. *)
Definition carried_float (f : float_lit) : bool :=
  match scan_scalar (floatstr f) with
  | Some (Ok (PyFloat g), []) => float_lit_eqb f g
  | _ => false
  end.

(** Values for which equality after a round trip is equality of the
    models: no NaN, which is unequal to itself, floats that are the
    literal of their own text, text made of code points without a pair
    of surrogates, and in a dict no key twice. *)
Fixpoint representable (v : pyval) : bool :=
  match v with
  | PyNone | PyBool _ | PyInt _ => true
  | PyFloat f => match f with FNaN => false | _ => carried_float f end
  | PyStr s => carried_text s
  | PyList l => forallb representable l
  | PyDict d =>
      unique (map fst d)
      && forallb (fun kv => carried_text (fst kv) && representable (snd kv)) d
  end.

(** The decoder reads the text of [v] back, whatever follows it. *)
Definition reads_back (v : pyval) : Prop :=
  representable v = true ->
  forall fuel depth rest,
    (size v <= fuel)%nat -> encode_error depth v = None ->
    ends_value rest = true ->
    scan_once fuel depth (json_text v ++ rest) = Scanned v rest.

End Encoder.

(** * [src/main.py] *)
Module Main.

Section Normalizer.
Context {interp : Interpreter}.

(** The pattern of line 210, compiled with [re.DOTALL]: an opening
    fence, an optional [json] tag, and between optional whitespace a
    group that starts with a brace and a quote and runs lazily up to a
    closing brace, then the closing fence. *)
Definition json_block : regex :=
  Lit (u "```") >>> Opt (Lit (u "json")) >>> Star is_space true >>>
  Group (Lit (u "{") >>> Star is_space true >>> Lit [quote] >>>
         Star dot_all false >>> Lit (u "}")) >>>
  Star is_space true >>> Lit (u "```").

Definition loads (s : pystr) : M pyval :=
  emit (JsonLoads s) ;;; lift (json_loads s).

Definition search (r : regex) (s : pystr) : M (option (option pystr)) :=
  emit (ReSearch s) ;;; ret (re_search r s).

(** [json_match.group(1).strip()] *)
Definition group1_strip (g : option pystr) : M pystr :=
  match g with
  | Some block => ret (strip block)
  | None => lift (Raise (AttributeError PyNone "strip"))
  end.

(** Lines 202-215: [json_data], from [None] through the two attempts. *)
Definition json_data (output : pyval) : M pyval :=
  match output with
  | PyStr text =>
      try_except (loads text) is_JSONDecodeError (fun _ =>
        json_match <- search json_block text ;;
        match json_match with
        | Some g =>
            try_except (block <- group1_strip g ;; loads block)
              is_JSONDecodeError (fun _ => ret PyNone)
        | None => ret PyNone
        end)
  | _ => ret PyNone
  end.

(** What the two attempts of lines 205-215 come to, for a text: a value,
    from the whole text or else from the block that the pattern
    captures; *)
Definition parses_to (text : pystr) (v : pyval) : Prop :=
  json_loads text = Ok v
  \/ (json_loads text = Raise JSONDecodeError
      /\ exists block,
           re_search json_block text = Some (Some block)
           /\ json_loads (strip block) = Ok v).

(** no value, the whole text being no JSON and the pattern finding
    nothing or a block that is no JSON either; *)
Definition unparsable (text : pystr) : Prop :=
  json_loads text = Raise JSONDecodeError
  /\ (re_search json_block text = None
      \/ exists block,
           re_search json_block text = Some (Some block)
           /\ json_loads (strip block) = Raise JSONDecodeError).

(** or an exception of [json.loads] that is no [JSONDecodeError]. *)
Definition fails_with (text : pystr) (e : exn) : Prop :=
  is_JSONDecodeError e = false
  /\ (json_loads text = Raise e
      \/ (json_loads text = Raise JSONDecodeError
          /\ exists block,
               re_search json_block text = Some (Some block)
               /\ json_loads (strip block) = Raise e)).

Definition push_data (data : pyval) : M unit := emit (PushData data).
Definition log_error (msg : pystr) : M unit := emit (LogError msg).

(** Lines 219-223 *)
Definition cleaned_data (data : pyval) : M pyval :=
  summary <- lift (method_get data "summary" (PyStr (u "No summary provided"))) ;;
  jobs <- lift (method_get data "jobs" (PyList [])) ;;
  jobs5 <- lift (slice_to 5 jobs) ;;
  recommendations <- lift (method_get data "recommendations" (PyList [])) ;;
  ret (PyDict [(u "summary", summary); (u "jobs", jobs5);
               (u "recommendations", recommendations)]).

Definition error_payload (error : pystr) (raw_output : pyval) : pyval :=
  PyDict [(u "error", PyStr error); (u "raw_output", raw_output)].

(** [main], from the value [result] that the agent returned onwards
    (lines 196-241). *)
Definition main (result : pyval) : M unit :=
  try_except
    (match item result "output" with
     | Some output =>
         data <- json_data output ;;
         if truthy data then
           cleaned <- cleaned_data data ;;
           push_data cleaned
         else
           push_data (error_payload (u "Could not parse JSON output") output)
     | None =>
         push_data (error_payload (u "Unexpected output format")
                      (PyStr (py_str result)))
     end)
    any_exception
    (fun e =>
       log_error (u "Failed to process results: " ++ exn_str e) ;;;
       push_data (error_payload (u "Failed to process results: " ++ exn_str e)
                    (PyStr (py_str result)))).

(** A record with the three keys of a structured result. *)
Definition structured (data : pyval) : Prop :=
  exists summary jobs recommendations,
    data = PyDict [(u "summary", summary); (u "jobs", jobs);
                   (u "recommendations", recommendations)].

(** [StructuredResult], and the mapping that carries it. *)
Record StructuredResult := {
  summary : pystr;
  jobs : list (list (pystr * pyval));
  recommendations : list pystr
}.

Definition to_mapping (r : StructuredResult) : pyval :=
  PyDict [(u "summary", PyStr (summary r));
          (u "jobs", PyList (map PyDict (jobs r)));
          (u "recommendations", PyList (map PyStr (recommendations r)))].

(** The agent's result for a terminal text. *)
Definition agent_result (output : pyval) : pyval :=
  PyDict [(u "input", PyStr []); (u "output", output)].

End Normalizer.

Section Report.
Context {interp : Interpreter}.

Definition lf : pystr := [10].

(** [x[key]], for a string key *)
Definition subscript (x : pyval) (key : string) : result pyval :=
  match x with
  | PyDict d => getitem d key
  | PyList _ =>
      Raise (Exn (u "TypeError")
               (u "list indices must be integers or slices, not str"))
  | PyStr _ =>
      Raise (Exn (u "TypeError") (u "string indices must be integers, not 'str'"))
  | _ => Raise (NotSubscriptable x)
  end.

(** A replacement field of an f-string without conversion or format:
    [format(x, '')], which is [x] for a string and [str(x)] otherwise. *)
Definition fmt (x : pyval) : pystr :=
  match x with
  | PyStr s => s
  | _ => py_str x
  end.

(** Lines 80-88: what one job adds to the report. *)
Definition job_report (i : N) (job : pyval) : result pystr :=
  title <~ subscript job "title" ;;
  company <~ subscript job "company" ;;
  location <~ subscript job "location" ;;
  employment_type <~ subscript job "employment_type" ;;
  salary <~ subscript job "salary" ;;
  posting_date <~ subscript job "posting_date" ;;
  description <~ subscript job "description" ;;
  url <~ subscript job "url" ;;
  Ok (u "## " ++ str_of_N i ++ u ". " ++ fmt title ++ lf
      ++ u "**Company:** " ++ fmt company ++ lf
      ++ u "**Location:** " ++ fmt location ++ lf
      ++ u "**Type:** " ++ fmt employment_type ++ lf
      ++ u "**Salary:** " ++ fmt salary ++ lf
      ++ u "**Posted:** " ++ fmt posting_date ++ lf
      ++ u "**Description:** " ++ fmt description ++ lf
      ++ u "**Apply here:** " ++ fmt url ++ lf ++ lf
      ++ u "---" ++ lf ++ lf).

(** The loop of lines 79-88 over [enumerate(jobs, i)], with [report] as
    it stands. *)
Fixpoint for_i_job_in (i : N) (jobs : list pyval) (report : pystr)
  : result pystr :=
  match jobs with
  | [] => Ok report
  | job :: rest =>
      lines <~ job_report i job ;;
      for_i_job_in (i + 1) rest (report ++ lines)
  end.

Definition report_header : pystr := u "# Available Job Opportunities" ++ lf ++ lf.

(** [format_job_results] of [src/main.py], lines 72-90 *)
Definition format_job_results (jobs : list pyval) : result pystr :=
  match jobs with
  | [] => Ok (u "No jobs found matching your criteria.")
  | _ :: _ => for_i_job_in 1 jobs report_header
  end.



End Report.
End Main.

(** * [src/tools.py] *)
Module Tools.

(** [JobSearchResult]: the three stripped fields and the description are
    strings by construction, the others are passed through. *)
Record JobSearchResult := {
  title : pystr;
  company : pystr;
  location : pystr;
  posting_date : pyval;
  employment_type : pyval;
  salary : pyval;
  description : pystr;
  url : pyval;
  is_remote : pyval
}.


(** What [.strip()] applies to after [.get(key, '')]: the default, or a
    string. *)
Definition absent_or_str (x : option pyval) : bool :=
  match x with
  | None | Some (PyStr _) => true
  | Some _ => false
  end.

(** The text that is stripped: the string under the key, or the default
    when there is none. *)
Definition text_of (x : option pyval) : pystr :=
  match x with
  | Some (PyStr s) => s
  | _ => []
  end.

(** The items that lines 78-88 accept: a dict whose [title] and
    [companyName] are absent or strings, whose [jobLocation] is absent or
    a dict with [displayName] absent or a string, and whose [summary] is
    absent, falsy or a string. *)
Definition formattable (job : pyval) : bool :=
  match job with
  | PyDict d =>
      absent_or_str (dict_get (u "title") d)
      && absent_or_str (dict_get (u "companyName") d)
      && match dict_get (u "jobLocation") d with
         | None => true
         | Some (PyDict l) => absent_or_str (dict_get (u "displayName") l)
         | Some _ => false
         end
      && match dict_get (u "summary") d with
         | None | Some (PyStr _) => true
         | Some v => negb (truthy v)
         end
  | _ => false
  end.

Section Adapters.
Context {interp : Interpreter}.

(** The Apify client: [actor(actor_id).call(run_input=...)], which gives
    the run as a dict or [None], and [dataset(id).list_items().items];
    each may raise. *)
Variable actor_call : pystr -> pyval -> result (option (list (pystr * pyval))).
Variable list_items : pyval -> result (list pyval).

(** The chain [prompt | llm | output_parser] of [_analyze_resume]. *)
Variable chain_ainvoke : pystr -> result pyval.

(** Line 85: the conditional expression binds last, so the suffix is
    appended to the slice whenever [summary] is truthy. *)
Definition format_description (job : pyval) : result pystr :=
  cond <~ method_get job "summary" PyNone ;;
  if truthy cond then
    summary <~ method_get job "summary" (PyStr []) ;;
    head <~ slice_to 300 summary ;;
    add_str head (u "...")
  else Ok [].

(** Lines 78-88: one item, or the exception it raises. *)
Definition format_job (job : pyval) : result JobSearchResult :=
  t <~ method_get job "title" (PyStr []) ;;
  title <~ method_strip t ;;
  c <~ method_get job "companyName" (PyStr []) ;;
  company <~ method_strip c ;;
  l <~ method_get job "jobLocation" (PyDict []) ;;
  d <~ method_get l "displayName" (PyStr []) ;;
  location <~ method_strip d ;;
  posting_date <~ method_get job "postedDate" (PyStr []) ;;
  employment_type <~ method_get job "employmentType" (PyStr []) ;;
  salary <~ method_get job "salary" (PyStr (u "Not specified")) ;;
  description <~ format_description job ;;
  url <~ method_get job "detailsPageUrl" (PyStr []) ;;
  is_remote <~ method_get job "isRemote" (PyBool false) ;;
  Ok {| title := title; company := company; location := location;
        posting_date := posting_date; employment_type := employment_type;
        salary := salary; description := description; url := url;
        is_remote := is_remote |}.

(** The loop of lines 76-92, with [formatted_jobs] as it stands. *)
Fixpoint for_job_in (items : list pyval) (formatted_jobs : list JobSearchResult)
  : M (list JobSearchResult) :=
  match items with
  | [] => ret formatted_jobs
  | job :: rest =>
      formatted_jobs' <-
        try_except
          (formatted_job <- lift (format_job job) ;;
           ret (formatted_jobs ++ [formatted_job]))
          any_exception
          (fun e =>
             emit (LogError (u "Failed to format job listing: " ++ exn_str e)) ;;;
             ret formatted_jobs) ;;
      for_job_in rest formatted_jobs'
  end.

Definition format_job_results (items : list pyval) : M (list JobSearchResult) :=
  formatted_jobs <- for_job_in items [] ;;
  ret (firstn 5 formatted_jobs).

(** The records of the items that [format_job] accepts, in order. *)
Definition well_formatted (items : list pyval) : list JobSearchResult :=
  flat_map (fun job => match format_job job with
                       | Ok formatted_job => [formatted_job]
                       | Raise _ => []
                       end) items.

(** The exceptions of the items that [format_job] rejects, in order. *)
Definition format_errors (items : list pyval) : list exn :=
  flat_map (fun job => match format_job job with
                       | Ok _ => []
                       | Raise e => [e]
                       end) items.

Definition comma : N := ch ",".

Definition base_job_search (query actor_id location : pystr)
  : M (list JobSearchResult) :=
  try_except
    (q <- lift (index (split comma query) 0) ;;
     loc <- (if negb (contains comma query) then ret location
             else (l <- lift (index (split comma query) 1) ;; ret (strip l))) ;;
     let run_input :=
       PyDict [(u "query", PyStr (strip q)); (u "location", PyStr loc);
               (u "limit", PyInt 10)] in
     emit (ActorCall actor_id run_input) ;;;
     run <- lift (actor_call actor_id run_input) ;;
     match run with
     | None => ret []
     | Some d =>
         if negb (truthy (PyDict d)) then ret []
         else
           id <- lift (getitem d "defaultDatasetId") ;;
           emit (ListItems id) ;;;
           dataset_items <- lift (list_items id) ;;
           format_job_results dataset_items
     end)
    any_exception
    (fun e =>
       emit (LogError (u "Job search failed for " ++ actor_id ++ u ": "
                         ++ exn_str e)) ;;;
       ret []).


Definition Remote : pystr := u "Remote".

Definition _linkedin_search (query : pystr) : M (list JobSearchResult) :=
  base_job_search query (u "krandiash/linkedin-jobs-scraper") Remote.

Definition _indeed_search (query : pystr) : M (list JobSearchResult) :=
  base_job_search query (u "krandiash/indeed-scraper") Remote.

Definition _dice_search (query : pystr) : M (list JobSearchResult) :=
  base_job_search query (u "mohamedgb00714/dicecom-job-scraper") Remote.

(** The record of lines 142-146 *)
Definition empty_resume : pyval :=
  PyDict [(u "error", PyStr (u "Empty resume text provided"));
          (u "skills", PyList []); (u "experience", PyList []);
          (u "education", PyList []);
          (u "summary", PyStr (u "No resume to analyze"));
          (u "years_experience", PyInt 0)].

(** The record of lines 172-177 *)
Definition failed_resume (e : exn) (resume_text : pystr) : pyval :=
  PyDict [(u "error", PyStr (exn_str e));
          (u "skills", PyList []); (u "experience", PyList []);
          (u "education", PyList []);
          (u "summary", PyStr (u "Analysis failed"));
          (u "years_experience", PyInt 0);
          (u "raw_text", PyStr resume_text)].

(** The dict display of line 168: [analysis] unpacked, then [raw_text] set *)
Definition with_raw_text (analysis : pyval) (resume_text : pystr) : result pyval :=
  match analysis with
  | PyDict d => Ok (PyDict (dict_set (u "raw_text") (PyStr resume_text) d))
  | _ =>
      Raise (Exn (u "TypeError")
               (u "'" ++ type_name analysis ++ u "' object is not a mapping"))
  end.

Definition _analyze_resume (resume_text : pystr) : M pyval :=
  if negb (truthy (PyStr (strip resume_text))) then ret empty_resume
  else
    try_except
      (emit (ModelCall resume_text) ;;;
       analysis <- lift (chain_ainvoke resume_text) ;;
       lift (with_raw_text analysis resume_text))
      any_exception
      (fun e =>
         emit (LogError (u "Resume analysis failed: " ++ exn_str e)) ;;;
         ret (failed_resume e resume_text)).

End Adapters.
End Tools.

(** * The agent loop *)
Module Agent.

Record AgentTurn := {
  thought : pystr;
  tool : pystr;
  tool_input : pystr;
  observation : pystr
}.

Record ToolSpec := {
  name : pystr;
  tool_description : pystr;
  invoke : pystr -> result pystr
}.

(** What one response of the model parses into. *)
Inductive reply :=
| Action (thought tool tool_input : pystr)
| Final (thought final_answer : pystr)
| Unparsed (response error : pystr).

Inductive outcome :=
| Answer (text : pystr)
| IterationLimit
| UnknownToolError (tool : pystr).

(** [max_iterations=5], line 69 of [src/main.py] *)
Definition max_iterations : nat := 5.

Section Loop.
(** Steps 1 and 2: the prompt rendered from the tools, the transcript
    and the task, submitted, and the response parsed. *)
Variable model : list ToolSpec -> list AgentTurn -> pystr -> reply.
Variable tools : list ToolSpec.
Variable task : pystr.

Definition lookup (tool : pystr) : option ToolSpec :=
  find (fun t => pystr_eqb (name t) tool) tools.

(** Modelled from the spec: the reasoning loop itself runs inside the
    agent executor of the LangChain library, which [setup_react_agent]
    only configures; this is the algorithm of section 4.1, steps 1 to 4,
    with its error handling.  It returns the outcome, the transcript and
    the number of tool invocations. *)
Fixpoint agent_loop (budget : nat) (transcript : list AgentTurn) (invoked : nat)
  : outcome * list AgentTurn * nat :=
  match budget with
  | O => (IterationLimit, transcript, invoked)
  | S budget' =>
      match model tools transcript task with
      | Final _ answer => (Answer answer, transcript, invoked)
      | Action th nm input =>
          match lookup nm with
          | None => (UnknownToolError nm, transcript, invoked)
          | Some t =>
              let obs := match invoke t input with
                         | Ok out => out
                         | Raise e => exn_str e
                         end in
              agent_loop budget'
                (transcript ++ [{| thought := th; tool := nm;
                                   tool_input := input; observation := obs |}])
                (S invoked)
          end
      | Unparsed response error =>
          agent_loop budget'
            (transcript ++ [{| thought := response; tool := [];
                               tool_input := []; observation := error |}])
            invoked
      end
  end.

Definition agent_invoke : outcome * list AgentTurn * nat :=
  agent_loop max_iterations [] 0%nat.

End Loop.
End Agent.

(** * Values for the examples *)

(** Text written with an apostrophe wherever Python has a double quote. *)
Definition dq (s : string) : pystr :=
  map (fun c => if c =? ch "'" then quote else c) (u s).

Definition newline : pystr := [10].

(** [repr] of one character of a string delimited by [q]. *)
Definition repr_char (q c : N) : pystr :=
  if c =? backslash then [backslash; backslash]
  else if c =? q then [backslash; q]
  else if c =? 10 then [backslash; ch "n"]
  else if c =? 13 then [backslash; ch "r"]
  else if c =? 9 then [backslash; ch "t"]
  else if (c <? 32) || (c =? 127) then
    [backslash; ch "x"; hex_char (c / 16); hex_char (c mod 16)]
  else [c].

Definition repr_str (s : pystr) : pystr :=
  let q := if contains (ch "'") s && negb (contains quote s)
           then quote else ch "'" in
  q :: flat_map (repr_char q) s ++ [q].

Fixpoint repr (v : pyval) : pystr :=
  match v with
  | PyNone => u "None"
  | PyBool b => if b then u "True" else u "False"
  | PyInt n => str_of_Z n
  | PyFloat FNaN => u "nan"
  | PyFloat (FInf neg) => if neg then u "-inf" else u "inf"
  | PyFloat (FDec neg m e) =>
      (if neg then u "-" else []) ++ str_of_N m ++ u "e" ++ str_of_Z e
  | PyStr s => repr_str s
  | PyList l => u "[" ++ join (u ", ") (map repr l) ++ u "]"
  | PyDict d =>
      u "{"
      ++ join (u ", ")
           (map (fun kv => repr_str (fst kv) ++ u ": " ++ repr (snd kv)) d)
      ++ u "}"
  end.

(** An interpreter to evaluate the examples with: CPython 3.12 on values
    made of [None], booleans, integers and ASCII text, in lists and
    dicts, with 980 levels of recursion left.  Other code points are
    taken as printable and a finite float is shown as its literal. *)
Definition cpython : Interpreter :=
  {| py_str := fun v => match v with PyStr s => s | _ => repr v end;
     slice_hashable := true;
     recursion_budget := 980;
     int_limit_message := fun n =>
       u "Exceeds the limit (4300 digits) for integer string conversion: value has "
       ++ str_of_N (N.of_nat n)
       ++ u " digits; use sys.set_int_max_str_digits() to increase the limit";
     str_limit_message :=
       u "Exceeds the limit (4300 digits) for integer string conversion; use sys.set_int_max_str_digits() to increase the limit" |}.

(** The Apify client and the model chain of the examples: an actor whose
    run has a dataset, a dataset that holds [items], a chain that fails. *)
Definition actor_up (actor_id : pystr) (run_input : pyval)
  : result (option (list (pystr * pyval))) :=
  Ok (Some [(u "defaultDatasetId", PyStr (u "ds1"))]).

Definition items_of (items : list pyval) (dataset_id : pyval) : result (list pyval) :=
  Ok items.

(** A client whose actor cannot be reached. *)
Definition actor_down (actor_id : pystr) (run_input : pyval)
  : result (option (list (pystr * pyval))) :=
  Raise (Exn (u "ConnectionError") (u "unreachable")).

Definition no_chain (resume_text : pystr) : result pyval :=
  Raise (Exn (u "RuntimeError") (u "no model")).

Definition job_titled (t : string) : pyval :=
  PyDict [(u "title", PyStr (u t)); (u "summary", PyStr (u "short"))].

(** A listing whose title is JSON [null]. *)
Definition job_untitled : pyval := PyDict [(u "title", PyNone)].

Definition seven_items : list pyval :=
  [job_titled "a"; job_untitled; job_titled "b"; job_untitled; job_titled "c";
   job_untitled; job_titled "d"].


(** A result with a score that is a float, and a title that holds a
    quote, a line feed, a character beyond the basic plane and a high
    surrogate that stands alone. *)
Definition one_result : Main.StructuredResult :=
  {| Main.summary := u "2 jobs found";
     Main.jobs :=
       [[(u "title", PyStr (u "Developer")); (u "is_remote", PyBool true);
         (u "match_score", PyFloat (FDec false 9 (-1)))];
        [(u "title", PyStr (dq "Tech 'Lead'" ++ [10; 233; 128512; 55357]));
         (u "tags", PyList [PyStr (u "go"); PyNone; PyInt (-12)])]];
     Main.recommendations := [u "apply"; u "follow up"] |}.

(** A result whose summary is a high surrogate and then a low one, two
    characters, and the result with the one character that the two
    escapes are read as. *)
Definition paired_result : Main.StructuredResult :=
  {| Main.summary := [55357; 56832]; Main.jobs := [];
     Main.recommendations := [] |}.

Definition joined_result : Main.StructuredResult :=
  {| Main.summary := [128512]; Main.jobs := []; Main.recommendations := [] |}.

(** An integer of 4301 digits, and 1500 opening brackets. *)
Definition long_number : pystr := repeat (ch "1") 4301.


(** A listing whose summary has 400 characters. *)
Definition job_long : pyval :=
  PyDict [(u "title", PyStr (u "a")); (u "summary", PyStr (repeat (ch "x") 400))].

(** A model that asks for a search, then answers what does not parse,
    then gives its final answer; and the tool that it asks for. *)
Definition model_three_steps (tools : list Agent.ToolSpec)
    (transcript : list Agent.AgentTurn) (task : pystr) : Agent.reply :=
  match transcript with
  | [] => Agent.Action (u "look") (u "search") (u "Rocq, Paris")
  | [_] => Agent.Unparsed (u "hm") (u "Could not parse LLM output")
  | _ => Agent.Final (u "done") (u "no jobs")
  end.

Definition search_tool : Agent.ToolSpec :=
  {| Agent.name := u "search"; Agent.tool_description := u "Search jobs";
     Agent.invoke := fun _ => Ok (u "[]") |}.

Definition example_body : pystr :=
  dq "summary':'ok','jobs':[],'recommendations':['apply']".

Definition fenced_example : pystr :=
  u "```json" ++ newline
  ++ dq "{'summary':'ok','jobs':[],'recommendations':['apply']}"
  ++ newline ++ u "```".

(** A fenced block whose summary holds a brace and a fence. *)
Definition brace_content : pystr := dq "{'summary':'}```'}".

Definition fenced_brace : pystr :=
  u "```json" ++ newline ++ brace_content ++ newline ++ u "```".

(** The fenced example after a sentence that quotes a word between
    backticks. *)
Definition quoting_prefix : pystr := u "Use `pip` first." ++ newline.

Definition prefixed_example : pystr := quoting_prefix ++ fenced_example.

(** The content of a fenced block: a brace, whitespace or none, a quote,
    [body], a brace. *)
Definition block (gap body : pystr) : pystr :=
  ch "{" :: gap ++ quote :: body ++ [ch "}"].

Definition backtick : N := 96.

(** The three backticks of a fence. *)
Definition fence : pystr := [backtick; backtick; backtick].

Definition no_backtick (s : pystr) : Prop := Forall (fun c => c <> backtick) s.

(** The text starts with whitespace or none and then a fence. *)
Definition fence_follows (s : pystr) : bool :=
  match starts_with fence (lstrip s) with
  | Some _ => true
  | None => false
  end.

(** A brace inside [body] is followed by whitespace or none and a fence:
    the lazy group of the pattern ends there. *)
Fixpoint closes_early (body : pystr) : bool :=
  match body with
  | [] => false
  | c :: r => ((c =? ch "}") && fence_follows r) || closes_early r
  end.

(** The pattern matches at a position inside [pre], in the text
    [pre ++ rest]. *)
Fixpoint matches_inside (r : regex) (pre rest : pystr) : bool :=
  match pre with
  | [] => false
  | _ :: p =>
      match re_match r (pre ++ rest) with
      | Some _ => true
      | None => matches_inside r p rest
      end
  end.

Definition spaces (s : pystr) : Prop := Forall (fun c => is_space c = true) s.

(** A listing with whitespace around its texts, a salary that is a
    number and a remote flag that is a string. *)
Definition job_padded : pyval :=
  PyDict [(u "title", PyStr (u "  Developer "));
          (u "companyName", PyStr (u " Acme"));
          (u "jobLocation", PyDict [(u "displayName", PyStr (u "Paris  "))]);
          (u "salary", PyInt 50000); (u "isRemote", PyStr (u "yes"))].

(** An actor whose call gives no run. *)
Definition actor_idle (actor_id : pystr) (run_input : pyval)
  : result (option (list (pystr * pyval))) :=
  Ok None.

(** A chain that answers with an analysis that has a [raw_text] of its
    own. *)
Definition chain_up (resume_text : pystr) : result pyval :=
  Ok (PyDict [(u "skills", PyList [PyStr (u "Rocq")]);
              (u "raw_text", PyStr (u "summary by the model"));
              (u "years_experience", PyInt 10)]).


(** An answer with two fenced blocks, of which only the second is valid
    JSON. *)
Definition broken_block : pystr := dq "{'broken}".

Definition two_blocks : pystr :=
  fence ++ broken_block ++ fence ++ u " " ++ fence ++ u "json" ++ newline
  ++ dq "{'summary':'ok'}" ++ newline ++ fence.

(** An agent that cannot be reached. *)
Definition agent_down (input : pystr) : result pyval :=
  Raise (Exn (u "ConnectionError") (u "unreachable")).


(** * [main], from the Actor input on *)
Module Entry.

Section Invocation.
Context {interp : Interpreter}.

(** [agent.ainvoke], by the text under [input] of its argument; the
    other two entries, the tools and their names, are constants. *)
Variable agent_ainvoke : pystr -> result pyval.

(** Lines 32-35 *)
Definition fallback_input : pyval :=
  PyDict
    [(u "query",
      PyStr (u "This is fallback test query, do not nothing and ignore it."));
     (u "modelName", PyStr (u "gpt-4o-mini"))].

(** [x or y] *)
Definition or_else (x y : pyval) : pyval := if truthy x then x else y.

(** The f-string of lines 162-190, line by line. *)
Definition agent_input (resume location job_type keywords : pyval) : pystr :=
  join Main.lf
    [u "Find relevant job opportunities based on this resume and preferences:";
     u "Resume:";
     Main.fmt resume;
     [];
     u "Job Preferences:";
     u "- Location: " ++ Main.fmt location;
     u "- Job Type: " ++ Main.fmt job_type;
     u "- Keywords: " ++ Main.fmt keywords;
     [];
     u "Analyze the resume and search for matching jobs. Return a JSON response with:";
     u "1. A brief summary of the search results";
     u "2. An array of relevant jobs found (limit to top 5 most relevant)";
     u "3. Recommended next steps for the job seeker";
     [];
     u "Format the response as a JSON object with these exact fields:";
     u "{";
     dq "    'summary': 'Brief overview of search results',";
     dq "    'jobs': [";
     u "        {";
     dq "            'title': 'Job title',";
     dq "            'company': 'Company name',";
     dq "            'location': 'Job location',";
     dq "            'salary': 'Salary if available',";
     dq "            'match_score': 'Relevance score 0-1',";
     dq "            'url': 'Job posting URL'";
     u "        }";
     u "    ],";
     dq "    'recommendations': ['List of recommended next steps']";
     u "}"].

(** Lines 137-194 and then the processing of the result: [input] is
    what [Actor.get_input()] returned, [None] when there is none.  The
    model and the agent executor are taken to be built without an
    exception. *)
Definition main (input : pyval) : M unit :=
  let actor_input := or_else input fallback_input in
  resume <- lift (method_get actor_input "resume" (PyStr [])) ;;
  location <- lift (method_get actor_input "location" (PyStr (u "Remote"))) ;;
  job_type <- lift (method_get actor_input "jobType" (PyStr (u "full-time"))) ;;
  keywords <- lift (method_get actor_input "keywords" (PyStr [])) ;;
  result <- lift (agent_ainvoke (agent_input resume location job_type keywords)) ;;
  Main.main result.

End Invocation.
End Entry.
(** * Properties *)

(** ** Strings *)

Lemma lstrip_spaces (s : pystr) :
  Forall (fun c => is_space c = true) s -> lstrip s = [].
Proof.
  induction 1 as [|c r Hc _ IH]; simpl; [reflexivity|].
  now rewrite Hc.
Qed.

Lemma strip_spaces (s : pystr) :
  Forall (fun c => is_space c = true) s -> strip s = [].
Proof.
  intros Hs. unfold strip. now rewrite (lstrip_spaces s Hs).
Qed.

Lemma lstrip_head (c : N) (s : pystr) :
  is_space c = false -> lstrip (c :: s) = c :: s.
Proof. intros Hc. simpl. now rewrite Hc. Qed.

(** A text that begins and ends with characters that are not whitespace
    is its own [strip]. *)
Lemma strip_fixed (a b : N) (s : pystr) :
  is_space a = false -> is_space b = false ->
  strip (a :: s ++ [b]) = a :: s ++ [b].
Proof.
  intros Ha Hb. unfold strip, rstrip.
  rewrite (lstrip_head a _ Ha).
  assert (E : rev (a :: s ++ [b]) = b :: rev (a :: s)).
  { change (a :: s ++ [b]) with ((a :: s) ++ [b]).
    now rewrite rev_app_distr. }
  rewrite E, (lstrip_head b _ Hb), <- E. apply rev_involutive.
Qed.

Ltac nope := let E := fresh in intro E; discriminate E.

(** ** The decoder: it consumes what it reads and its fuel suffices *)
Section Codec.
Context {interp : Interpreter}.

Lemma skip_ws_length (s : pystr) : (length (skip_ws s) <= length s)%nat.
Proof.
  induction s as [|c r IH]; cbn; [lia|].
  destruct (is_json_ws c); cbn; lia.
Qed.

Lemma consed_some c p x r :
  consed c p = Some (x, r) -> exists x', p = Some (x', r) /\ x = c :: x'.
Proof.
  destruct p as [[x' r']|]; cbn; [|discriminate].
  intros [= <- <-]. now exists x'.
Qed.

Lemma scanstring_shorter (n : nat) :
  forall s x r,
    (length s <= n)%nat -> scanstring s = Some (x, r) ->
    (length r < length s)%nat.
Proof.
  induction n as [|n IH]; intros s x r L.
  - destruct s; [cbn; nope | cbn in L; lia].
  - destruct s as [|c s]; [cbn; nope|].
    cbn [scanstring]. cbn [length] in *.
    assert (H : forall y t, (length t <= n)%nat ->
                consed y (scanstring t) = Some (x, r) ->
                (length r < length t)%nat).
    { intros y t Lt Ey. apply consed_some in Ey. destruct Ey as (x' & Ey & _).
      now apply IH in Ey. }
    destruct (c =? quote); [intros [= <- <-]; lia|].
    destruct (c =? backslash).
    + destruct s as [|e r1]; [nope|].
      destruct (e =? ch "u").
      * destruct r1 as [|a [|b [|c1 [|d r2]]]]; try nope.
        destruct (decode_uXXXX a b c1 d) as [uni|]; [|nope].
        cbn [length] in L.
        destruct r2 as [|b1 [|u1 [|a' [|b' [|c' [|d' r3]]]]]];
          try (intros E; apply H in E; cbn [length] in *; lia).
        destruct (is_high_surrogate uni && (b1 =? backslash) && (u1 =? ch "u"));
          [|intros E; apply H in E; cbn [length] in *; lia].
        destruct (decode_uXXXX a' b' c' d') as [uni2|]; [|nope].
        destruct (is_low_surrogate uni2);
          intros E; apply H in E; cbn [length] in *; lia.
      * destruct (unescape e); [|nope].
        intros E; apply H in E; cbn [length] in *; lia.
    + destruct (c <? 32); [nope|].
      intros E; apply H in E; cbn [length] in *; lia.
Qed.

Lemma span_digits_length (s d r : pystr) :
  span_digits s = (d, r) -> (length r <= length s)%nat.
Proof.
  revert d r. induction s as [|c s IH]; cbn; intros d r E.
  - injection E as <- <-. cbn. lia.
  - destruct (is_digit c).
    + destruct (span_digits s) as [d' r'] eqn:E1.
      injection E as <- <-. specialize (IH _ _ eq_refl). lia.
    + injection E as <- <-. cbn. lia.
Qed.

Lemma match_integer_shorter (s d r : pystr) :
  match_integer s = Some (d, r) -> (length r < length s)%nat.
Proof.
  destruct s as [|c s]; cbn; [nope|].
  destruct (c =? 48); [intros [= <- <-]; lia|].
  destruct (is_digit c); [|nope].
  destruct (span_digits s) as [d' r'] eqn:E1.
  intros [= <- <-]. apply span_digits_length in E1. lia.
Qed.

Lemma match_frac_shorter (s d r : pystr) :
  match_frac s = Some (d, r) -> (length r < length s)%nat.
Proof.
  destruct s as [|c s]; cbn; [nope|].
  destruct (c =? ch "."); [|nope].
  destruct (span_digits s) as [d' r'] eqn:E1.
  apply span_digits_length in E1.
  destruct d'; [nope|]. intros [= <- <-]. lia.
Qed.

Lemma exp_digits_length neg (s : pystr) (e : Z) (r : pystr) :
  exp_digits neg s = Some (e, r) -> (length r <= length s)%nat.
Proof.
  unfold exp_digits.
  destruct (span_digits s) as [d' r'] eqn:E1.
  apply span_digits_length in E1.
  destruct d'; [nope|]. intros [= _ <-]. lia.
Qed.

Lemma match_exp_shorter (s : pystr) (e : Z) (r : pystr) :
  match_exp s = Some (e, r) -> (length r < length s)%nat.
Proof.
  destruct s as [|c s]; cbn [match_exp length]; [nope|].
  destruct ((c =? ch "e") || (c =? ch "E")); [|nope].
  destruct s as [|x r1].
  - intros E. apply exp_digits_length in E. lia.
  - destruct (x =? ch "-");
      [intros E; apply exp_digits_length in E; cbn [length]; lia|].
    destruct (x =? ch "+");
      intros E; apply exp_digits_length in E; cbn [length] in *; lia.
Qed.

Lemma match_number_shorter (s : pystr) (v : result pyval) (r : pystr) :
  match_number s = Some (v, r) -> (length r < length s)%nat.
Proof.
  unfold match_number.
  set (p := match s with
            | c :: r0 => if c =? ch "-" then (true, r0) else (false, s)
            | [] => (false, s)
            end).
  assert (L1 : (length (snd p) <= length s)%nat).
  { subst p. destruct s as [|c s]; [cbn; lia|].
    destruct (c =? ch "-"); cbn; lia. }
  destruct p as [neg s1]. cbn [snd] in L1.
  destruct (match_integer s1) as [[int s2]|] eqn:E1; [|nope].
  apply match_integer_shorter in E1.
  destruct (match_frac s2) as [[f s3]|] eqn:E2.
  - apply match_frac_shorter in E2.
    destruct (match_exp s3) as [[e s4]|] eqn:E3.
    + apply match_exp_shorter in E3. intros [= _ <-]. lia.
    + intros [= _ <-]. lia.
  - destruct (match_exp s2) as [[e s4]|] eqn:E3.
    + apply match_exp_shorter in E3. intros [= _ <-]. lia.
    + destruct (int_max_str_digits <? length int)%nat; intros [= _ <-]; lia.
Qed.

Lemma starts_with_length (p s r : pystr) :
  starts_with p s = Some r -> length s = (length p + length r)%nat.
Proof.
  revert s. induction p as [|a p IH]; intros s; cbn.
  - now intros [= <-].
  - destruct s as [|b s]; [discriminate|].
    destruct (a =? b); [|discriminate].
    intros E. apply IH in E. cbn. lia.
Qed.

Lemma literal_shorter (word : string) v s v' r :
  (0 < length (u word))%nat ->
  literal word v s = Some (v', r) -> (length r < length s)%nat.
Proof.
  unfold literal. intros W.
  destruct (starts_with (u word) s) as [r'|] eqn:E; [|discriminate].
  intros [= _ <-]. apply starts_with_length in E. lia.
Qed.

Lemma found_some x (v : result pyval) (r : pystr) :
  found x = Some (v, r) -> exists v', x = Some (v', r) /\ v = Ok v'.
Proof.
  destruct x as [[v' r']|]; cbn; [|discriminate].
  intros [= <- <-]. now exists v'.
Qed.

Lemma scan_scalar_shorter (s : pystr) (v : result pyval) (r : pystr) :
  scan_scalar s = Some (v, r) -> (length r < length s)%nat.
Proof.
  unfold scan_scalar, first_of. intros E.
  repeat match type of E with
         | match ?x with _ => _ end = _ => destruct x as [[v0 r0]|] eqn:?
         end;
    try (injection E as <- <-);
    first [ eapply match_number_shorter; eassumption
          | match goal with
            | H : found _ = Some _ |- _ =>
                apply found_some in H; destruct H as (v' & H & _);
                eapply literal_shorter; [|exact H]; vm_compute; lia
            end ].
Qed.

(** With more than twice the length of the input as fuel, the scanner
    and its two loops end by themselves, on an input that got shorter. *)
Lemma scan_fuel (fuel : nat) :
  (forall depth s, (2 * length s < fuel)%nat ->
     scan_once fuel depth s <> Exhausted
     /\ forall v r, scan_once fuel depth s = Scanned v r ->
                    (length r < length s)%nat)
  /\ (forall depth s, (2 * length s < fuel)%nat ->
        JSONObject fuel depth s <> Exhausted
        /\ forall ps r, JSONObject fuel depth s = Scanned ps r ->
                        (length r < length s)%nat)
  /\ (forall depth s, (2 * length s + 1 < fuel)%nat ->
        JSONArray fuel depth s <> Exhausted
        /\ forall vs r, JSONArray fuel depth s = Scanned vs r ->
                        (length r < length s)%nat).
Proof.
  induction fuel as [|fuel (IHs & IHo & IHa)].
  - split; [|split]; intros depth s L; lia.
  - split; [|split]; intros depth s L.
    + (* scan_once *)
      destruct s as [|c r]; [cbn; split; discriminate|].
      cbn [scan_once]. cbn [length] in L.
      destruct (c =? quote).
      { destruct (scanstring r) as [[x r']|] eqn:E; [|split; discriminate].
        apply (scanstring_shorter _ _ _ _ (le_n _)) in E.
        split; [discriminate|]. intros v r0 [= _ <-]. cbn. lia. }
      destruct (c =? ch "{").
      { destruct depth as [|depth]; [split; discriminate|].
        pose proof (skip_ws_length r) as W.
        destruct (skip_ws r) as [|c1 r1]; [split; discriminate|].
        cbn [length] in W.
        destruct (c1 =? ch "}").
        { split; [discriminate|]. intros v r0 [= _ <-]. cbn. lia. }
        destruct (c1 =? quote); [|split; discriminate].
        destruct (IHo depth r1 ltac:(lia)) as [Ne Sh].
        destruct (JSONObject fuel depth r1) as [ps r'| | |e] eqn:E;
          [|split; discriminate|contradiction|split; discriminate].
        specialize (Sh _ _ eq_refl).
        split; [discriminate|]. intros v r0 [= _ <-]. cbn. lia. }
      destruct (c =? ch "[").
      { destruct depth as [|depth]; [split; discriminate|].
        pose proof (skip_ws_length r) as W.
        destruct (skip_ws r) as [|c1 r1]; [split; discriminate|].
        cbn [length] in W.
        destruct (c1 =? ch "]").
        { split; [discriminate|]. intros v r0 [= _ <-]. cbn. lia. }
        destruct (IHa depth (c1 :: r1) ltac:(cbn [length]; lia)) as [Ne Sh].
        destruct (JSONArray fuel depth (c1 :: r1)) as [vs r'| | |e] eqn:E;
          [|split; discriminate|contradiction|split; discriminate].
        specialize (Sh _ _ eq_refl). cbn [length] in Sh.
        split; [discriminate|]. intros v r0 [= _ <-]. cbn. lia. }
      destruct (scan_scalar (c :: r)) as [[[v|e] r']|] eqn:E;
        [|split; discriminate|split; discriminate].
      apply scan_scalar_shorter in E.
      split; [discriminate|]. intros v0 r0 [= _ <-]. exact E.
    + (* JSONObject *)
      cbn [JSONObject].
      destruct (scanstring s) as [[key r]|] eqn:E; [|split; discriminate].
      apply (scanstring_shorter _ _ _ _ (le_n _)) in E.
      pose proof (skip_ws_length r) as W.
      destruct (skip_ws r) as [|c r1]; [split; discriminate|].
      cbn [length] in W.
      destruct (c =? ch ":"); [|split; discriminate].
      pose proof (skip_ws_length r1) as W1.
      destruct (IHs depth (skip_ws r1) ltac:(lia)) as [Ne Sh].
      destruct (scan_once fuel depth (skip_ws r1)) as [value r2| | |e] eqn:E1;
        [|split; discriminate|contradiction|split; discriminate].
      specialize (Sh _ _ eq_refl).
      pose proof (skip_ws_length r2) as W2.
      destruct (skip_ws r2) as [|c2 r3]; [split; discriminate|].
      cbn [length] in W2.
      destruct (c2 =? ch "}").
      { split; [discriminate|]. intros ps r0 [= _ <-]. lia. }
      destruct (c2 =? ch ","); [|split; discriminate].
      pose proof (skip_ws_length r3) as W3.
      destruct (skip_ws r3) as [|c3 r4]; [split; discriminate|].
      cbn [length] in W3.
      destruct (c3 =? quote); [|split; discriminate].
      destruct (IHo depth r4 ltac:(lia)) as [Ne' Sh'].
      destruct (JSONObject fuel depth r4) as [ps r5| | |e] eqn:E2;
        [|split; discriminate|contradiction|split; discriminate].
      specialize (Sh' _ _ eq_refl).
      split; [discriminate|]. intros ps0 r0 [= _ <-]. lia.
    + (* JSONArray *)
      cbn [JSONArray].
      destruct (IHs depth s ltac:(lia)) as [Ne Sh].
      destruct (scan_once fuel depth s) as [value r| | |e] eqn:E1;
        [|split; discriminate|contradiction|split; discriminate].
      specialize (Sh _ _ eq_refl).
      pose proof (skip_ws_length r) as W.
      destruct (skip_ws r) as [|c r1]; [split; discriminate|].
      cbn [length] in W.
      destruct (c =? ch "]").
      { split; [discriminate|]. intros vs r0 [= _ <-]. lia. }
      destruct (c =? ch ","); [|split; discriminate].
      pose proof (skip_ws_length r1) as W1.
      destruct (IHa depth (skip_ws r1) ltac:(lia)) as [Ne' Sh'].
      destruct (JSONArray fuel depth (skip_ws r1)) as [vs r2| | |e] eqn:E2;
        [|split; discriminate|contradiction|split; discriminate].
      specialize (Sh' _ _ eq_refl).
      split; [discriminate|]. intros vs0 r0 [= _ <-]. lia.
Qed.

(** [json_loads] answers [JSONDecodeError] only for text that the decoder
    rejects: the fuel it gives never runs out. *)
Lemma decode_not_exhausted (s : pystr) :
  decode s <> Exhausted.
Proof.
  unfold decode.
  pose proof (skip_ws_length s) as W.
  destruct (proj1 (scan_fuel (S (2 * length s))) recursion_budget (skip_ws s)
              ltac:(lia)) as [Ne _].
  destruct (scan_once (S (2 * length s)) recursion_budget (skip_ws s))
    as [v r| | |e]; [|discriminate|contradiction|discriminate].
  destruct (skip_ws r); discriminate.
Qed.

(** ** The encoder and the decoder: strings *)

Lemma hex_digit_hex_char (d : N) : d < 16 -> hex_digit (hex_char d) = Some d.
Proof.
  intros L.
  assert (H : d = 0 \/ d = 1 \/ d = 2 \/ d = 3 \/ d = 4 \/ d = 5 \/ d = 6
              \/ d = 7 \/ d = 8 \/ d = 9 \/ d = 10 \/ d = 11 \/ d = 12
              \/ d = 13 \/ d = 14 \/ d = 15) by lia.
  repeat (destruct H as [->|H]; [reflexivity|]). now subst.
Qed.

Lemma hex4_value (x : N) :
  (((x / 4096 * 16 + (x / 256) mod 16) * 16 + (x / 16) mod 16) * 16
   + x mod 16) = x.
Proof.
  replace (x / 256) with (x / 16 / 16) by (now rewrite N.Div0.div_div).
  replace (x / 4096) with (x / 16 / 16 / 16) by (now rewrite !N.Div0.div_div).
  pose proof (N.div_mod x 16). pose proof (N.div_mod (x / 16) 16).
  pose proof (N.div_mod (x / 16 / 16) 16). lia.
Qed.

Lemma decode_escape_u (x : N) :
  x < 65536 ->
  decode_uXXXX (hex_char (x / 4096)) (hex_char ((x / 256) mod 16))
    (hex_char ((x / 16) mod 16)) (hex_char (x mod 16)) = Some x.
Proof.
  intros L. unfold decode_uXXXX.
  rewrite !hex_digit_hex_char;
    try (apply N.mod_lt; lia);
    try (apply N.Div0.div_lt_upper_bound; lia).
  now rewrite hex4_value.
Qed.

(** Below [2 ^ 10], or-ing into a multiple of [2 ^ 10] adds. *)
Lemma lor_low_bits (a b : N) : b < 1024 -> N.lor (a * 1024) b = a * 1024 + b.
Proof.
  intros L.
  assert (D : N.land (a * 1024) b = 0).
  { apply N.bits_inj. intros i. rewrite N.land_spec, N.bits_0.
    destruct (N.lt_ge_cases i 10) as [Hi|Hi].
    - change 1024 with (2 ^ 10). now rewrite N.mul_pow2_bits_low.
    - destruct (N.eq_dec b 0) as [->|Hb].
      + now rewrite N.bits_0, andb_false_r.
      + rewrite (N.bits_above_log2 b i), andb_false_r; [reflexivity|].
        apply N.lt_le_trans with 10; [|exact Hi].
        apply N.log2_lt_pow2; [lia | exact L]. }
  now rewrite (N.add_nocarry_lxor _ _ D), (N.lxor_lor _ _ D).
Qed.

Lemma high_surrogate_value (n : N) :
  n < 1048576 ->
  N.lor 55296 (N.land (N.shiftr n 10) 1023) = 55296 + n / 1024.
Proof.
  intros L. rewrite N.shiftr_div_pow2.
  change 1023 with (N.ones 10). rewrite N.land_ones.
  change (2 ^ 10) with 1024.
  assert (Q : n / 1024 < 1024) by (apply N.Div0.div_lt_upper_bound; lia).
  rewrite (N.mod_small _ _ Q).
  change 55296 with (54 * 1024). now apply lor_low_bits.
Qed.

Lemma low_surrogate_value (n : N) :
  N.lor 56320 (N.land n 1023) = 56320 + n mod 1024.
Proof.
  change 1023 with (N.ones 10). rewrite N.land_ones.
  change (2 ^ 10) with 1024.
  change 56320 with (55 * 1024). apply lor_low_bits.
  apply N.mod_lt. lia.
Qed.

Lemma join_surrogates_value (n : N) :
  n < 1048576 ->
  join_surrogates (55296 + n / 1024) (56320 + n mod 1024) = 65536 + n.
Proof.
  intros L. unfold join_surrogates.
  rewrite (N.add_comm 55296), (N.add_comm 56320), !N.add_sub.
  rewrite N.shiftl_mul_pow2. change (2 ^ 10) with 1024.
  rewrite lor_low_bits by (apply N.mod_lt; lia).
  pose proof (N.div_mod n 1024). lia.
Qed.

(** An escape of four digits that is not the first half of a pair. *)
Lemma scanstring_escape_u (a b c d uni : N) (tail : pystr) :
  decode_uXXXX a b c d = Some uni ->
  is_high_surrogate uni = false ->
  scanstring (backslash :: ch "u" :: a :: b :: c :: d :: tail)
  = consed uni (scanstring tail).
Proof.
  intros D Hs. cbn [scanstring].
  change (backslash =? quote) with false.
  change (backslash =? backslash) with true.
  change (ch "u" =? ch "u") with true.
  cbv iota. rewrite D, Hs.
  destruct tail as [|b1 [|u1 [|a' [|b' [|c' [|d' r3]]]]]]; reflexivity.
Qed.

(** An escaped pair of surrogates. *)
Lemma scanstring_escape_pair (a b c d a' b' c' d' hi lo : N) (tail : pystr) :
  decode_uXXXX a b c d = Some hi ->
  decode_uXXXX a' b' c' d' = Some lo ->
  is_high_surrogate hi = true ->
  is_low_surrogate lo = true ->
  scanstring (backslash :: ch "u" :: a :: b :: c :: d
              :: backslash :: ch "u" :: a' :: b' :: c' :: d' :: tail)
  = consed (join_surrogates hi lo) (scanstring tail).
Proof.
  intros D1 D2 H1 H2. cbn [scanstring].
  change (backslash =? quote) with false.
  change (backslash =? backslash) with true.
  change (ch "u" =? ch "u") with true.
  cbv iota. rewrite D1, H1. cbn [andb]. now rewrite D2, H2.
Qed.

Lemma scanstring_plain (c : N) (tail : pystr) :
  (c =? quote) = false -> (c =? backslash) = false -> (c <? 32) = false ->
  scanstring (c :: tail) = consed c (scanstring tail).
Proof. intros H1 H2 H3. cbn [scanstring]. now rewrite H1, H2, H3. Qed.

(** An escape of four digits that is followed by no second half. *)
Lemma scanstring_escape_u_alone (a b c d uni : N) (tail : pystr) :
  decode_uXXXX a b c d = Some uni ->
  low_escape_follows tail = false ->
  scanstring (backslash :: ch "u" :: a :: b :: c :: d :: tail)
  = consed uni (scanstring tail).
Proof.
  intros D L. cbn [scanstring].
  change (backslash =? quote) with false.
  change (backslash =? backslash) with true.
  change (ch "u" =? ch "u") with true.
  cbv iota. rewrite D.
  destruct tail as [|b1 [|u1 [|a' [|b' [|c' [|d' r3]]]]]]; try reflexivity.
  unfold low_escape_follows in L.
  destruct (is_high_surrogate uni); [|reflexivity].
  destruct (b1 =? backslash); [|reflexivity].
  destruct (u1 =? ch "u"); [|reflexivity].
  cbn [andb] in *.
  destruct (decode_uXXXX a' b' c' d'); [|discriminate].
  now rewrite L.
Qed.

Lemma low_escape_quote (rest : pystr) : low_escape_follows (quote :: rest) = false.
Proof. destruct rest as [|a [|b [|c [|d [|e r]]]]]; reflexivity. Qed.

(** The decoder reads back each character that the encoder escaped,
    unless it is the first half of a pair and a second half follows. *)
Lemma scanstring_escape_char (c : N) (tail : pystr) :
  code_point c = true ->
  (is_high_surrogate c = true -> low_escape_follows tail = false) ->
  scanstring (escape_char c ++ tail) = consed c (scanstring tail).
Proof.
  intros Sc Hh. unfold escape_char.
  destruct (N.eqb_spec c quote) as [->|N1]; [reflexivity|].
  destruct (N.eqb_spec c backslash) as [->|N2]; [reflexivity|].
  destruct (N.eqb_spec c 10) as [->|N3]; [reflexivity|].
  destruct (N.eqb_spec c 13) as [->|N4]; [reflexivity|].
  destruct (N.eqb_spec c 9) as [->|N5]; [reflexivity|].
  destruct (N.eqb_spec c 12) as [->|N6]; [reflexivity|].
  destruct (N.eqb_spec c 8) as [->|N7]; [reflexivity|].
  destruct ((32 <=? c) && (c <=? 126)) eqn:P.
  - apply andb_prop in P. destruct P as [P1 P2].
    apply N.leb_le in P1.
    apply scanstring_plain.
    + now apply N.eqb_neq.
    + now apply N.eqb_neq.
    + apply N.ltb_ge. exact P1.
  - unfold code_point in Sc. apply N.leb_le in Sc.
    destruct (N.ltb_spec c 65536) as [L|L].
    + unfold escape_u. cbn [app].
      destruct (is_high_surrogate c) eqn:Hc.
      * apply scanstring_escape_u_alone; [now apply decode_escape_u|].
        now apply Hh.
      * apply scanstring_escape_u; [now apply decode_escape_u | exact Hc].
    + set (n := c - 65536).
      assert (Ln : n < 1048576) by (subst n; lia).
      assert (Ec : c = 65536 + n) by (subst n; lia).
      clearbody n.
      rewrite (high_surrogate_value n Ln), (low_surrogate_value n).
      assert (Q : n / 1024 < 1024)
        by (apply N.Div0.div_lt_upper_bound; lia).
      assert (M : n mod 1024 < 1024) by (apply N.mod_lt; lia).
      unfold escape_u. cbn [app].
      rewrite (scanstring_escape_pair _ _ _ _ _ _ _ _
                 (55296 + n / 1024) (56320 + n mod 1024)).
      * rewrite (join_surrogates_value n Ln).
        now rewrite <- Ec.
      * apply decode_escape_u. lia.
      * apply decode_escape_u. lia.
      * unfold is_high_surrogate. apply andb_true_intro.
        revert Q. generalize (n / 1024). intros q Q.
        split; apply N.leb_le; lia.
      * unfold is_low_surrogate. apply andb_true_intro.
        revert M. generalize (n mod 1024). intros m M.
        split; apply N.leb_le; lia.
Qed.

(** What the encoder writes for a character that is no low surrogate
    does not read as the second half of a pair. *)
Lemma low_escape_char (d : N) (tail : pystr) :
  code_point d = true -> is_low_surrogate d = false ->
  low_escape_follows (escape_char d ++ tail) = false.
Proof.
  intros Sc Hl. unfold escape_char.
  assert (B : forall x, (x =? ch "u") = false ->
                low_escape_follows ([backslash; x] ++ tail) = false).
  { intros x Hx. cbn [app].
    destruct tail as [|a [|b [|c [|e r]]]]; try reflexivity.
    unfold low_escape_follows. now rewrite Hx, andb_false_r. }
  destruct (N.eqb_spec d quote) as [->|N1]; [now apply B|].
  destruct (N.eqb_spec d backslash) as [->|N2]; [now apply B|].
  destruct (N.eqb_spec d 10) as [->|N3]; [now apply B|].
  destruct (N.eqb_spec d 13) as [->|N4]; [now apply B|].
  destruct (N.eqb_spec d 9) as [->|N5]; [now apply B|].
  destruct (N.eqb_spec d 12) as [->|N6]; [now apply B|].
  destruct (N.eqb_spec d 8) as [->|N7]; [now apply B|].
  destruct ((32 <=? d) && (d <=? 126)) eqn:P.
  - cbn [app].
    destruct tail as [|u1 [|a [|b [|c [|e r]]]]]; try reflexivity.
    unfold low_escape_follows.
    replace (d =? backslash) with false; [reflexivity|].
    symmetry. now apply N.eqb_neq.
  - unfold code_point in Sc. apply N.leb_le in Sc.
    destruct (N.ltb_spec d 65536) as [L|L].
    + unfold escape_u. cbn [app]. unfold low_escape_follows.
      rewrite (decode_escape_u d L), Hl. reflexivity.
    + set (n := d - 65536).
      assert (Ln : n < 1048576) by (subst n; lia).
      clearbody n.
      rewrite (high_surrogate_value n Ln).
      assert (Q : n / 1024 < 1024)
        by (apply N.Div0.div_lt_upper_bound; lia).
      unfold escape_u. cbn [app]. unfold low_escape_follows.
      rewrite decode_escape_u by lia.
      change (backslash =? backslash) with true.
      change (ch "u" =? ch "u") with true. cbn [andb].
      unfold is_low_surrogate. apply andb_false_intro1. apply N.leb_gt.
      revert Q. generalize (n / 1024). intros q Q. lia.
Qed.

Lemma scanstring_escaped (s rest : pystr) :
  forallb code_point s = true -> unpaired s = true ->
  scanstring (flat_map escape_char s ++ quote :: rest) = Some (s, rest).
Proof.
  induction s as [|c s IH]; intros Hs Hu.
  - reflexivity.
  - cbn [forallb] in Hs. apply andb_prop in Hs. destruct Hs as [Hc Hs].
    cbn [unpaired] in Hu. apply andb_prop in Hu. destruct Hu as [Hp Hu].
    cbn [flat_map]. rewrite <- List.app_assoc.
    rewrite (scanstring_escape_char c _ Hc), (IH Hs Hu); [reflexivity|].
    intros Hh. destruct s as [|d s]; [apply low_escape_quote|].
    cbn [flat_map]. rewrite <- List.app_assoc.
    cbn [forallb] in Hs. apply andb_prop in Hs. destruct Hs as [Hd _].
    apply low_escape_char; [exact Hd|].
    rewrite Hh in Hp. cbn [andb] in Hp. now apply negb_true_iff in Hp.
Qed.

Lemma scanstring_carried (s rest : pystr) :
  carried_text s = true ->
  scanstring (flat_map escape_char s ++ quote :: rest) = Some (s, rest).
Proof.
  intros H. apply andb_prop in H. destruct H as [H1 H2].
  now apply scanstring_escaped.
Qed.

(** ** The encoder and the decoder: integers *)

Lemma uint_of_digits_of_uint (d : Decimal.uint) :
  uint_of_digits (digits_of_uint d) = d.
Proof. induction d; cbn; now rewrite ?IHd. Qed.

Lemma digits_of_uint_digits (d : Decimal.uint) :
  Forall (fun c => is_digit c = true) (digits_of_uint d).
Proof. induction d; cbn; constructor; easy. Qed.

Lemma span_digits_app (d rest : pystr) :
  Forall (fun c => is_digit c = true) d ->
  match rest with [] => True | c :: _ => is_digit c = false end ->
  span_digits (d ++ rest) = (d, rest).
Proof.
  intros Hd Hr. induction Hd as [|c d Hc _ IH]; cbn.
  - destruct rest as [|c r]; [reflexivity|]. cbn. now rewrite Hr.
  - now rewrite Hc, IH.
Qed.

(** The decimal writing of a positive number starts with a digit that
    is not zero. *)
Lemma to_uint_head (p : positive) :
  exists c t,
    digits_of_uint (Pos.to_uint p) = c :: t
    /\ is_digit c = true /\ (c =? 48) = false.
Proof.
  pose proof (DecimalPos.Unsigned.to_uint_nonzero p) as Nz.
  pose proof (DecimalPos.Unsigned.to_uint_nonnil p) as Nn.
  assert (Un : Decimal.unorm (Pos.to_uint p) = Pos.to_uint p).
  { rewrite <- DecimalPos.Unsigned.to_of, DecimalPos.Unsigned.of_to.
    reflexivity. }
  destruct (Pos.to_uint p) as [|d|d|d|d|d|d|d|d|d|d] eqn:E;
    try (now eexists _, _; split; [reflexivity|split; reflexivity]).
  - contradiction.
  - exfalso. rewrite DecimalFacts.unorm_D0 in Un.
    unfold Decimal.unorm in Un.
    destruct (Decimal.nzhead d) eqn:En;
      try (now apply (DecimalFacts.nzhead_nonzero d d); rewrite En, Un);
      try discriminate.
    injection Un as <-. now apply Nz.
Qed.

Lemma ends_value_not_digit (rest : pystr) :
  ends_value rest = true ->
  match rest with [] => True | c :: _ => is_digit c = false end.
Proof.
  destruct rest as [|c r]; [easy|]. cbn [ends_value].
  intros H. apply orb_prop in H. destruct H as [H|H].
  - apply orb_prop in H. destruct H as [H|H];
      apply N.eqb_eq in H; now subst.
  - apply N.eqb_eq in H. now subst.
Qed.

Lemma ends_value_no_frac (rest : pystr) :
  ends_value rest = true -> match_frac rest = None /\ match_exp rest = None.
Proof.
  destruct rest as [|c r]; [easy|]. cbn [ends_value].
  intros H. apply orb_prop in H. destruct H as [H|H].
  - apply orb_prop in H. destruct H as [H|H];
      apply N.eqb_eq in H; now subst.
  - apply N.eqb_eq in H. now subst.
Qed.

(** The digits of a natural number, read back. *)
Lemma match_integer_str_of_N (n : N) (rest : pystr) :
  ends_value rest = true ->
  match_integer (str_of_N n ++ rest) = Some (str_of_N n, rest)
  /\ digits_value (str_of_N n) = n
  /\ exists c t, str_of_N n = c :: t /\ is_digit c = true.
Proof.
  intros Hr. unfold str_of_N, digits_value.
  rewrite uint_of_digits_of_uint, DecimalN.Unsigned.of_to.
  split; [|split; [reflexivity|]].
  - destruct n as [|p]; [reflexivity|].
    cbn [N.to_uint].
    destruct (to_uint_head p) as (c & t & E & Dc & Zc).
    pose proof (digits_of_uint_digits (Pos.to_uint p)) as Hd.
    rewrite E in *. cbn [app match_integer]. rewrite Zc, Dc.
    rewrite span_digits_app; [reflexivity | now inversion Hd |].
    now apply ends_value_not_digit.
  - destruct n as [|p]; [now eexists _, _|].
    destruct (to_uint_head p) as (c & t & E & Dc & _).
    now exists c, t.
Qed.

Lemma match_number_str_of_Z (z : Z) (rest : pystr) :
  (length (str_of_N (Z.abs_N z)) <= int_max_str_digits)%nat ->
  ends_value rest = true ->
  match_number (str_of_Z z ++ rest) = Some (Ok (PyInt z), rest).
Proof.
  intros Hz Hr.
  destruct (ends_value_no_frac rest Hr) as [Hf He].
  assert (P : forall n,
             (length (str_of_N n) <= int_max_str_digits)%nat ->
             match_number (str_of_N n ++ rest)
             = Some (Ok (PyInt (Z.of_N n)), rest)).
  { intros n Ln.
    destruct (match_integer_str_of_N n rest Hr) as (Hi & Hv & c & t & E & Dc).
    apply Nat.ltb_ge in Ln.
    unfold match_number. rewrite E in *. cbn [app] in *.
    assert (Nm : (c =? ch "-") = false).
    { apply N.eqb_neq. intros ->. discriminate. }
    rewrite Nm, Hi, Hf, He, Ln, Hv. reflexivity. }
  destruct z as [|p|p].
  - apply (P 0). exact Hz.
  - apply (P (Npos p)). exact Hz.
  - destruct (match_integer_str_of_N (Npos p) rest Hr) as (Hi & Hv & _).
    cbn [Z.abs_N] in Hz. apply Nat.ltb_ge in Hz.
    unfold match_number, str_of_Z. cbn [app].
    change (ch "-" =? ch "-") with true. cbv iota.
    rewrite Hi, Hf, He, Hz, Hv. reflexivity.
Qed.

Lemma str_of_Z_head (z : Z) :
  exists c t, str_of_Z z = c :: t /\ (is_digit c = true \/ c = ch "-").
Proof.
  assert (P : forall n, exists c t,
               str_of_N n = c :: t /\ (is_digit c = true \/ c = ch "-")).
  { intros n.
    destruct (match_integer_str_of_N n [] eq_refl) as (_ & _ & c & t & E & Dc).
    exists c, t. auto. }
  destruct z as [|p|p]; [apply (P 0) | apply (P (Npos p)) |].
  eexists _, _. split; [reflexivity|]. now right.
Qed.

(** The words [null], [true] and [false] start with no digit or sign. *)
Lemma literal_not_number (word : string) (a : N) (w : pystr) v c s :
  u word = a :: w -> is_digit a = false -> a <> ch "-" ->
  is_digit c = true \/ c = ch "-" ->
  literal word v (c :: s) = None.
Proof.
  intros E Da Na Hc. unfold literal. rewrite E. cbn [starts_with].
  replace (a =? c) with false; [reflexivity|].
  symmetry. apply N.eqb_neq. intros ->. destruct Hc; congruence.
Qed.

Lemma scan_scalar_str_of_Z (z : Z) (rest : pystr) :
  (length (str_of_N (Z.abs_N z)) <= int_max_str_digits)%nat ->
  ends_value rest = true ->
  scan_scalar (str_of_Z z ++ rest) = Some (Ok (PyInt z), rest).
Proof.
  intros Hz Hr. unfold scan_scalar.
  pose proof (match_number_str_of_Z z rest Hz Hr) as Hn.
  destruct (str_of_Z_head z) as (c & t & E & Hc). rewrite E in *.
  cbn [app] in *.
  rewrite (literal_not_number "null" (ch "n") (u "ull")); try easy.
  rewrite (literal_not_number "true" (ch "t") (u "rue")); try easy.
  rewrite (literal_not_number "false" (ch "f") (u "alse")); try easy.
  cbn [first_of found]. now rewrite Hn.
Qed.

(** ** The decoder: a scalar is read alike before the end of a value *)

Lemma ends_value_head (d : N) (r : pystr) :
  ends_value (d :: r) = true -> d = ch "," \/ d = ch "]" \/ d = ch "}".
Proof.
  cbn [ends_value]. intros H. apply orb_prop in H. destruct H as [H|H].
  - apply orb_prop in H. destruct H as [H|H]; apply N.eqb_eq in H; auto.
  - apply N.eqb_eq in H. auto.
Qed.

Lemma starts_with_more (p s rest r : pystr) :
  starts_with p s = Some r -> starts_with p (s ++ rest) = Some (r ++ rest).
Proof.
  revert s. induction p as [|a p IH]; intros s; cbn.
  - now intros [= <-].
  - destruct s as [|b s]; [discriminate|]. cbn.
    destruct (a =? b); [apply IH | discriminate].
Qed.

Lemma starts_with_none_more (p s rest : pystr) :
  Forall (fun a => ends_value [a] = false) p ->
  ends_value rest = true ->
  starts_with p s = None -> starts_with p (s ++ rest) = None.
Proof.
  intros Hp Hr. revert s. induction Hp as [|a p Ha _ IH]; intros s; cbn.
  - discriminate.
  - destruct s as [|b s]; cbn.
    + intros _. destruct rest as [|d r]; [reflexivity|].
      replace (a =? d) with false; [reflexivity|].
      symmetry. apply N.eqb_neq. intros ->.
      change (ends_value (d :: r)) with (ends_value [d]) in Hr. congruence.
    + destruct (a =? b); [apply IH | reflexivity].
Qed.

Lemma literal_more (word : string) (v : pyval) (s rest : pystr) :
  Forall (fun a => ends_value [a] = false) (u word) ->
  ends_value rest = true ->
  found (literal word v (s ++ rest))
  = match found (literal word v s) with
    | Some (x, r) => Some (x, r ++ rest)
    | None => None
    end.
Proof.
  intros Hw Hr. unfold literal.
  destruct (starts_with (u word) s) as [r|] eqn:E.
  - now rewrite (starts_with_more _ _ rest _ E).
  - now rewrite (starts_with_none_more _ _ rest Hw Hr E).
Qed.

Lemma span_digits_more (s rest : pystr) :
  ends_value rest = true ->
  span_digits (s ++ rest) = (fst (span_digits s), snd (span_digits s) ++ rest).
Proof.
  intros Hr. induction s as [|c s IH]; cbn.
  - pose proof (ends_value_not_digit rest Hr) as H.
    destruct rest as [|d r]; [reflexivity|]. cbn. now rewrite H.
  - destruct (is_digit c); [|reflexivity].
    rewrite IH. now destruct (span_digits s).
Qed.

Lemma match_integer_more (s rest : pystr) :
  ends_value rest = true ->
  match_integer (s ++ rest)
  = match match_integer s with
    | Some (d, r) => Some (d, r ++ rest)
    | None => None
    end.
Proof.
  intros Hr. destruct s as [|c s]; cbn.
  - destruct rest as [|d r]; [reflexivity|].
    apply ends_value_head in Hr. destruct Hr as [->|[->| ->]]; reflexivity.
  - destruct (c =? 48); [reflexivity|].
    destruct (is_digit c); [|reflexivity].
    rewrite (span_digits_more s rest Hr). now destruct (span_digits s).
Qed.

Lemma match_frac_more (s rest : pystr) :
  ends_value rest = true ->
  match_frac (s ++ rest)
  = match match_frac s with
    | Some (d, r) => Some (d, r ++ rest)
    | None => None
    end.
Proof.
  intros Hr. destruct s as [|c s]; cbn.
  - destruct rest as [|d r]; [reflexivity|].
    apply ends_value_head in Hr. destruct Hr as [->|[->| ->]]; reflexivity.
  - destruct (c =? ch "."); [|reflexivity].
    rewrite (span_digits_more s rest Hr).
    destruct (span_digits s) as [[|x d] r]; reflexivity.
Qed.

Lemma exp_digits_more (neg : bool) (s rest : pystr) :
  ends_value rest = true ->
  exp_digits neg (s ++ rest)
  = match exp_digits neg s with
    | Some (e, r) => Some (e, r ++ rest)
    | None => None
    end.
Proof.
  intros Hr. unfold exp_digits. rewrite (span_digits_more s rest Hr).
  destruct (span_digits s) as [[|x d] r]; reflexivity.
Qed.

Lemma match_exp_more (s rest : pystr) :
  ends_value rest = true ->
  match_exp (s ++ rest)
  = match match_exp s with
    | Some (e, r) => Some (e, r ++ rest)
    | None => None
    end.
Proof.
  intros Hr. destruct s as [|c s]; cbn [app match_exp].
  - destruct rest as [|d r]; [reflexivity|].
    pose proof Hr as Hd.
    apply ends_value_head in Hd. destruct Hd as [->|[->| ->]]; reflexivity.
  - destruct ((c =? ch "e") || (c =? ch "E")); [|reflexivity].
    destruct s as [|x s]; cbn [app].
    + change (exp_digits false []) with (@None (Z * pystr)).
      pose proof (exp_digits_more false [] rest Hr) as H. cbn [app] in H.
      change (exp_digits false []) with (@None (Z * pystr)) in H.
      destruct rest as [|d r]; [exact H|].
      pose proof Hr as Hd.
      apply ends_value_head in Hd.
      destruct Hd as [->|[->| ->]]; exact H.
    + destruct (x =? ch "-"); [apply exp_digits_more; exact Hr|].
      destruct (x =? ch "+"); [apply exp_digits_more; exact Hr|].
      apply (exp_digits_more false (x :: s) rest Hr).
Qed.

Lemma match_number_more (s rest : pystr) :
  ends_value rest = true ->
  match_number (s ++ rest)
  = match match_number s with
    | Some (x, r) => Some (x, r ++ rest)
    | None => None
    end.
Proof.
  intros Hr.
  assert (Q : forall neg s1,
             match match_integer (s1 ++ rest) with
             | None => None
             | Some (int, s2) =>
                 let '(frac, s3) :=
                   match match_frac s2 with
                   | Some (f, r) => (Some f, r)
                   | None => (None, s2)
                   end in
                 let '(exp, s4) :=
                   match match_exp s3 with
                   | Some (e, r) => (Some e, r)
                   | None => (None, s3)
                   end in
                 match frac, exp with
                 | None, None =>
                     if (int_max_str_digits <? length int)%nat
                     then Some (Raise (too_many_digits (length int)), s4)
                     else
                       let n := Z.of_N (digits_value int) in
                       Some (Ok (PyInt (if neg then (- n)%Z else n)), s4)
                 | _, _ =>
                     let f := match frac with Some f => f | None => [] end in
                     let e := match exp with Some e => e | None => 0%Z end in
                     Some (Ok (PyFloat (FDec neg (digits_value (int ++ f))
                                             (e - Z.of_nat (length f)))), s4)
                 end
             end
             = match
                 match match_integer s1 with
                 | None => None
                 | Some (int, s2) =>
                     let '(frac, s3) :=
                       match match_frac s2 with
                       | Some (f, r) => (Some f, r)
                       | None => (None, s2)
                       end in
                     let '(exp, s4) :=
                       match match_exp s3 with
                       | Some (e, r) => (Some e, r)
                       | None => (None, s3)
                       end in
                     match frac, exp with
                     | None, None =>
                         if (int_max_str_digits <? length int)%nat
                         then Some (Raise (too_many_digits (length int)), s4)
                         else
                           let n := Z.of_N (digits_value int) in
                           Some (Ok (PyInt (if neg then (- n)%Z else n)), s4)
                     | _, _ =>
                         let f := match frac with Some f => f | None => [] end in
                         let e := match exp with Some e => e | None => 0%Z end in
                         Some (Ok (PyFloat (FDec neg (digits_value (int ++ f))
                                                 (e - Z.of_nat (length f)))), s4)
                     end
                 end
               with
               | Some (x, r) => Some (x, r ++ rest)
               | None => None
               end).
  { intros neg s1. rewrite (match_integer_more s1 rest Hr).
    destruct (match_integer s1) as [[int s2]|]; [|reflexivity].
    rewrite (match_frac_more s2 rest Hr).
    destruct (match_frac s2) as [[f s3]|].
    - rewrite (match_exp_more s3 rest Hr).
      now destruct (match_exp s3) as [[e s4]|].
    - rewrite (match_exp_more s2 rest Hr).
      destruct (match_exp s2) as [[e s4]|]; [reflexivity|].
      now destruct (int_max_str_digits <? length int)%nat. }
  destruct s as [|c s].
  - cbn [app]. destruct rest as [|d r]; [reflexivity|].
    apply ends_value_head in Hr. destruct Hr as [->|[->| ->]]; reflexivity.
  - unfold match_number. cbn [app]. destruct (c =? ch "-").
    + exact (Q true s).
    + exact (Q false (c :: s)).
Qed.

Lemma scan_scalar_more (s rest : pystr) :
  ends_value rest = true ->
  scan_scalar (s ++ rest)
  = match scan_scalar s with
    | Some (x, r) => Some (x, r ++ rest)
    | None => None
    end.
Proof.
  intros Hr. unfold scan_scalar.
  rewrite !literal_more, match_number_more; try exact Hr;
    try (repeat constructor).
  unfold first_of.
  repeat match goal with
         | |- context [match ?x with Some _ => _ | None => _ end] =>
             match x with
             | found _ => destruct x as [[? ?]|]; [reflexivity|]
             | match_number _ => destruct x as [[? ?]|]; [reflexivity|]
             end
         end.
  reflexivity.
Qed.

Lemma scan_scalar_head (s : pystr) x :
  scan_scalar s = Some x ->
  exists c t,
    s = c :: t /\ is_json_ws c = false /\ (c =? ch "]") = false
    /\ (c =? quote) = false /\ (c =? ch "{") = false /\ (c =? ch "[") = false.
Proof.
  destruct s as [|c t]; [vm_compute; discriminate|].
  intros H. exists c, t. split; [reflexivity|].
  assert (B : forall b, In b [32; 9; 10; 13; 93; 34; 123; 91] -> c <> b).
  { intros b Hb ->. cbn [In] in Hb.
    repeat (destruct Hb as [<-|Hb]; [vm_compute in H; discriminate|]).
    exact Hb. }
  unfold is_json_ws.
  repeat split; repeat (apply orb_false_intro); apply N.eqb_neq; apply B;
    cbn; tauto.
Qed.

Lemma float_lit_eqb_eq (f g : float_lit) : float_lit_eqb f g = true -> f = g.
Proof.
  destruct f as [|a|a m e], g as [|b|b n k]; cbn; try discriminate.
  - reflexivity.
  - intros H. apply Bool.eqb_prop in H. now subst.
  - intros H. apply andb_prop in H. destruct H as [H H3].
    apply andb_prop in H. destruct H as [H1 H2].
    apply Bool.eqb_prop in H1. apply N.eqb_eq in H2. apply Z.eqb_eq in H3.
    now subst.
Qed.

(** ** The encoder and the decoder: values *)

Lemma pyval_nested_ind (P : pyval -> Prop) :
  P PyNone -> (forall b, P (PyBool b)) -> (forall n, P (PyInt n)) ->
  (forall f, P (PyFloat f)) -> (forall s, P (PyStr s)) ->
  (forall l, Forall P l -> P (PyList l)) ->
  (forall d, Forall (fun kv => P (snd kv)) d -> P (PyDict d)) ->
  forall v, P v.
Proof.
  intros HN HB HI HF HS HL HD. fix IH 1. intros [ |b|n|f|s|l|d].
  - exact HN.
  - apply HB.
  - apply HI.
  - apply HF.
  - apply HS.
  - apply HL. induction l as [|x l IHl]; constructor; [apply IH | exact IHl].
  - apply HD. induction d as [|[k x] d IHd]; constructor;
      [apply IH | exact IHd].
Qed.

Lemma pystr_eqb_eq (a b : pystr) : pystr_eqb a b = true <-> a = b.
Proof.
  unfold pystr_eqb. destruct (list_eq_dec N.eq_dec a b); split; easy.
Qed.

Lemma pystr_eqb_sym (a b : pystr) : pystr_eqb a b = pystr_eqb b a.
Proof.
  destruct (pystr_eqb a b) eqn:E1, (pystr_eqb b a) eqn:E2; try reflexivity.
  - apply pystr_eqb_eq in E1. subst.
    assert (pystr_eqb b b = true) by now apply pystr_eqb_eq. congruence.
  - apply pystr_eqb_eq in E2. subst.
    assert (pystr_eqb a a = true) by now apply pystr_eqb_eq. congruence.
Qed.

Lemma dict_set_fresh (k : pystr) (v : pyval) (d : list (pystr * pyval)) :
  existsb (pystr_eqb k) (map fst d) = false -> dict_set k v d = d ++ [(k, v)].
Proof.
  induction d as [|[k' v'] d IH]; cbn; [reflexivity|].
  intros H. apply orb_false_elim in H. destruct H as [H1 H2].
  now rewrite H1, IH.
Qed.

Lemma unique_app_fresh (a b : list pystr) (k : pystr) :
  unique (a ++ k :: b) = true -> existsb (pystr_eqb k) a = false.
Proof.
  induction a as [|x a IH]; cbn; [reflexivity|].
  intros H. apply andb_prop in H. destruct H as [H1 H2].
  rewrite (IH H2), orb_false_r.
  apply negb_true_iff in H1. rewrite existsb_app in H1.
  apply orb_false_elim in H1. destruct H1 as [_ H1]. cbn in H1.
  apply orb_false_elim in H1. destruct H1 as [H1 _].
  now rewrite pystr_eqb_sym.
Qed.

(** A list of pairs with distinct keys is the dict made of it. *)
Lemma dict_of_pairs_unique (d : list (pystr * pyval)) :
  unique (map fst d) = true -> dict_of_pairs d = d.
Proof.
  unfold dict_of_pairs.
  assert (G : forall d acc,
             unique (map fst acc ++ map fst d) = true ->
             fold_left (fun d kv => dict_set (fst kv) (snd kv) d) d acc
             = acc ++ d).
  { clear d. induction d as [|[k v] d IH]; intros acc U; cbn.
    - now rewrite List.app_nil_r.
    - cbn in U. rewrite dict_set_fresh.
      + rewrite IH; [now rewrite <- List.app_assoc|].
        now rewrite map_app, <- List.app_assoc.
      + now apply unique_app_fresh in U. }
  intros U. now apply (G d []).
Qed.

Lemma skip_ws_head (c : N) (s : pystr) :
  is_json_ws c = false -> skip_ws (c :: s) = c :: s.
Proof. intros H. cbn. now rewrite H. Qed.

Lemma skip_ws_space (s : pystr) : skip_ws (ch " " :: s) = skip_ws s.
Proof. reflexivity. Qed.

Lemma join_cons (p : pystr) (parts : list pystr) (close : pystr) :
  join (u ", ") (p :: parts) ++ close = p ++ continued parts close.
Proof.
  destruct parts as [|q parts]; [reflexivity|].
  cbn [join continued]. now rewrite <- !List.app_assoc.
Qed.

Lemma continued_cons (p : pystr) (parts : list pystr) (close : pystr) :
  continued (p :: parts) close
  = ch "," :: ch " " :: p ++ continued parts close.
Proof.
  unfold continued at 1. rewrite join_cons. reflexivity.
Qed.

Lemma continued_ends (parts : list pystr) (close : pystr) :
  ends_value close = true -> ends_value (continued parts close) = true.
Proof. destruct parts; [easy | reflexivity]. Qed.

Lemma first_error_none {A} (f : A -> option exn) (l : list A) :
  first_error (map f l) = None <-> Forall (fun x => f x = None) l.
Proof.
  induction l as [|x l IH]; cbn.
  - split; [constructor | reflexivity].
  - destruct (f x) eqn:E.
    + split; [discriminate|]. intros H. inversion H; congruence.
    + rewrite IH. split; [now constructor | now inversion 1].
Qed.

Lemma nesting_in {A} (f : A -> pyval) (x : A) (l : list A) :
  In x l ->
  (nesting (f x) <= fold_right (fun y n => Nat.max (nesting (f y)) n) O l)%nat.
Proof.
  induction l as [|y l IH]; cbn; [easy|].
  intros [->|H]; [lia|]. specialize (IH H). lia.
Qed.

(** The encoder raises nothing on a value whose integers it wrote with
    more recursion left, if the value is nested no deeper than the
    recursion that is left now. *)
Lemma encode_error_nesting (v : pyval) :
  forall d d',
    encode_error d v = None -> (nesting v <= d')%nat ->
    encode_error d' v = None.
Proof.
  induction v as [ |b|n|f|s|l IHl|dd IHd] using pyval_nested_ind;
    intros d d' E L; try reflexivity.
  - exact E.
  - cbn [encode_error nesting] in *.
    destruct d as [|d]; [discriminate|].
    destruct d' as [|d']; [lia|].
    apply first_error_none. apply first_error_none in E.
    rewrite Forall_forall in *. intros x Hx.
    apply (IHl x Hx d d' (E x Hx)).
    pose proof (nesting_in (fun y => y) x l Hx). cbv beta in *. lia.
  - cbn [encode_error nesting] in *.
    destruct d as [|d]; [discriminate|].
    destruct d' as [|d']; [lia|].
    apply (first_error_none (fun kv => encode_error d' (snd kv))).
    apply (first_error_none (fun kv => encode_error d (snd kv))) in E.
    rewrite Forall_forall in *. intros x Hx.
    apply (IHd x Hx d d' (E x Hx)).
    pose proof (nesting_in snd x dd Hx). cbv beta in *. lia.
Qed.

Lemma json_dumps_ok (depth : nat) (v : pyval) (text : pystr) :
  json_dumps depth v = Ok text ->
  text = json_text v /\ encode_error depth v = None.
Proof.
  unfold json_dumps. destruct (encode_error depth v); [discriminate|].
  intros [= <-]. now split.
Qed.


Lemma carried_float_scanned (f : float_lit) :
  representable (PyFloat f) = true ->
  scan_scalar (floatstr f) = Some (Ok (PyFloat f), []).
Proof.
  cbn [representable]. intros R.
  assert (C : carried_float f = true) by (destruct f; easy).
  clear R. unfold carried_float in C.
  destruct (scan_scalar (floatstr f)) as [[[v|e] r]|]; try discriminate.
  destruct v; try discriminate. destruct r; [|discriminate].
  apply float_lit_eqb_eq in C. now subst.
Qed.

(** The text of a value starts with a character that is neither
    whitespace nor a closing bracket. *)
Lemma json_text_head (v : pyval) :
  representable v = true ->
  (exists c t,
     json_text v = c :: t /\ is_json_ws c = false /\ (c =? ch "]") = false
     /\ (c =? quote) = false)
  \/ exists s, v = PyStr s.
Proof.
  destruct v as [ |b|n|f|s|l|d]; intros R.
  - left. now eexists _, _.
  - left. destruct b; now eexists _, _.
  - left. destruct (str_of_Z_head n) as (c & t & E & Hc).
    exists c, t. split; [exact E|].
    destruct Hc as [Hc| ->]; [|easy].
    unfold is_digit in Hc. apply andb_prop in Hc. destruct Hc as [H1 H2].
    apply N.leb_le in H1, H2.
    unfold is_json_ws.
    repeat split; repeat (apply orb_false_intro); apply N.eqb_neq;
      intros ->; unfold ch, quote in *; cbn in *; lia.
  - left. apply carried_float_scanned in R.
    apply scan_scalar_head in R.
    destruct R as (c & t & E & W & B & Q & _).
    exists c, t. cbn [json_text]. auto.
  - right. now exists s.
  - left. now eexists _, _.
  - left. now eexists _, _.
Qed.

Lemma json_text_not_ws (v : pyval) (s : pystr) :
  representable v = true ->
  skip_ws (json_text v ++ s) = json_text v ++ s
  /\ exists c t, json_text v ++ s = c :: t /\ (c =? ch "]") = false.
Proof.
  intros R. destruct (json_text_head v R) as [(c & t & E & W & B & _)|[x ->]].
  - rewrite E. cbn [app]. split; [now apply skip_ws_head | now eexists _, _].
  - split; [reflexivity | now eexists _, _].
Qed.

Lemma scan_once_scalar (fuel depth : nat) (c : N) (s : pystr) :
  (c =? quote) = false -> (c =? ch "{") = false -> (c =? ch "[") = false ->
  scan_once (S fuel) depth (c :: s)
  = match scan_scalar (c :: s) with
    | Some (Ok v, r) => Scanned v r
    | Some (Raise e, _) => Failed e
    | None => Malformed
    end.
Proof. intros H1 H2 H3. cbn [scan_once]. now rewrite H1, H2, H3. Qed.

Lemma reads_back_int (n : Z) : reads_back (PyInt n).
Proof.
  intros _ fuel depth rest F L Hr. destruct fuel as [|fuel]; [cbn in F; lia|].
  cbn [json_text]. cbn [encode_error] in L.
  assert (Hz : (length (str_of_N (Z.abs_N n)) <= int_max_str_digits)%nat).
  { destruct (int_max_str_digits <? length (str_of_N (Z.abs_N n)))%nat eqn:E;
      [discriminate|]. now apply Nat.ltb_ge in E. }
  pose proof (scan_scalar_str_of_Z n rest Hz Hr) as Hs.
  destruct (str_of_Z_head n) as (c & t & E & Hc). rewrite E in *.
  cbn [app] in *.
  rewrite scan_once_scalar, Hs; [reflexivity| | |];
    apply N.eqb_neq; intros ->; destruct Hc; discriminate.
Qed.

Lemma reads_back_float (f : float_lit) : reads_back (PyFloat f).
Proof.
  intros R fuel depth rest F _ Hr. destruct fuel as [|fuel]; [cbn in F; lia|].
  cbn [json_text].
  pose proof (carried_float_scanned f R) as Hs.
  pose proof (scan_scalar_more (floatstr f) rest Hr) as Hm.
  rewrite Hs in Hm. cbn [app] in Hm.
  destruct (scan_scalar_head _ _ Hs) as (c & t & E & _ & _ & Q & B1 & B2).
  rewrite E in *. cbn [app] in *.
  now rewrite scan_once_scalar, Hm.
Qed.

Lemma reads_back_str (s : pystr) : reads_back (PyStr s).
Proof.
  intros R fuel depth rest F _ Hr. destruct fuel as [|fuel]; [cbn in F; lia|].
  cbn [json_text representable] in *. unfold encode_basestring_ascii.
  cbn [app scan_once]. change (quote =? quote) with true. cbv iota.
  rewrite <- List.app_assoc. cbn [app].
  now rewrite scanstring_carried.
Qed.

(** The loop of the array decoder, on the text of a list that is not
    empty. *)
Lemma JSONArray_items (l : list pyval) :
  forall x fuel depth rest,
    Forall reads_back (x :: l) ->
    forallb representable (x :: l) = true ->
    Forall (fun y => encode_error depth y = None) (x :: l) ->
    (list_sum (map (fun y => S (size y)) (x :: l)) <= fuel)%nat ->
    JSONArray fuel depth
      (json_text x ++ continued (map json_text l) (ch "]" :: rest))
    = Scanned (x :: l) rest.
Proof.
  induction l as [|y l IH]; intros x fuel depth rest HP R HE F;
    cbn [forallb] in R; apply andb_prop in R; destruct R as [Rx R];
    inversion HP as [|? ? Px HP']; subst;
    inversion HE as [|? ? Ex HE']; subst;
    cbn [map list_sum fold_right] in F;
    (destruct fuel as [|fuel]; [lia|]); cbn [JSONArray].
  - cbn [map continued].
    rewrite (Px Rx fuel depth (ch "]" :: rest)); [|lia|exact Ex|reflexivity].
    reflexivity.
  - rewrite (Px Rx fuel depth); [|lia|exact Ex|now apply continued_ends].
    cbn [map]. rewrite continued_cons. cbn [skip_ws].
    change (is_json_ws (ch ",")) with false. cbv iota.
    change (ch "," =? ch "]") with false.
    change (ch "," =? ch ",") with true. cbv iota.
    change (is_json_ws (ch " ")) with true. cbv iota.
    pose proof R as R'. cbn [forallb] in R'.
    apply andb_prop in R'. destruct R' as [Ry _].
    destruct (json_text_not_ws y
                (continued (map json_text l) (ch "]" :: rest)) Ry)
      as [W _].
    rewrite skip_ws_space, W.
    rewrite (IH y fuel depth rest HP' R HE'); [reflexivity|].
    cbn [map list_sum fold_right]. lia.
Qed.

Lemma item_text (k : pystr) (x : pyval) (tail : pystr) :
  (encode_basestring_ascii k ++ u ": " ++ json_text x) ++ tail
  = quote :: flat_map escape_char k
    ++ quote :: ch ":" :: ch " " :: json_text x ++ tail.
Proof.
  unfold encode_basestring_ascii. change (u ": ") with [ch ":"; ch " "].
  cbn [app]. rewrite <- !List.app_assoc. reflexivity.
Qed.

(** The loop of the object decoder, after the quote that opens the
    first key of a dict that is not empty. *)
Lemma JSONObject_pairs (d : list (pystr * pyval)) :
  forall k x fuel depth rest,
    Forall (fun kv => reads_back (snd kv)) ((k, x) :: d) ->
    forallb (fun kv => carried_text (fst kv) && representable (snd kv))
      ((k, x) :: d) = true ->
    Forall (fun kv => encode_error depth (snd kv) = None) ((k, x) :: d) ->
    (list_sum (map (fun kv => S (size (snd kv))) ((k, x) :: d)) <= fuel)%nat ->
    JSONObject fuel depth
      (flat_map escape_char k
       ++ quote :: ch ":" :: ch " " :: json_text x
       ++ continued
            (map (fun kv => encode_basestring_ascii (fst kv) ++ u ": "
                            ++ json_text (snd kv)) d)
            (ch "}" :: rest))
    = Scanned ((k, x) :: d) rest.
Proof.
  induction d as [|[k' x'] d IH]; intros k x fuel depth rest HP R HE F;
    cbn [forallb fst snd] in R; apply andb_prop in R; destruct R as [Rx R];
    apply andb_prop in Rx; destruct Rx as [Rk Rx];
    inversion HP as [|? ? Px HP']; subst; cbn [snd] in Px;
    inversion HE as [|? ? Ex HE']; subst; cbn [snd] in Ex;
    cbn [map list_sum fold_right snd] in F;
    (destruct fuel as [|fuel]; [lia|]); cbn [JSONObject];
    rewrite (scanstring_carried k _ Rk);
    cbn [skip_ws];
    change (is_json_ws (ch ":")) with false; cbv iota;
    change (ch ":" =? ch ":") with true; cbv iota;
    rewrite skip_ws_space.
  - cbn [map continued].
    destruct (json_text_not_ws x (ch "}" :: rest) Rx) as [W _].
    rewrite W, (Px Rx fuel depth (ch "}" :: rest)); [|lia|exact Ex|reflexivity].
    reflexivity.
  - set (C := continued _ _).
    destruct (json_text_not_ws x C Rx) as [W _].
    rewrite W, (Px Rx fuel depth C); [|lia|exact Ex|now apply continued_ends].
    subst C. cbn [map fst snd]. rewrite continued_cons, item_text.
    cbn [skip_ws].
    change (is_json_ws (ch ",")) with false. cbv iota.
    change (ch "," =? ch "}") with false.
    change (ch "," =? ch ",") with true. cbv iota.
    rewrite skip_ws_space. cbn [skip_ws].
    change (is_json_ws quote) with false. cbv iota.
    change (quote =? quote) with true. cbv iota.
    rewrite (IH k' x' fuel depth rest HP' R HE'); [reflexivity|].
    cbn [map list_sum fold_right snd]. lia.
Qed.

(** The decoder reads back what the encoder wrote. *)
Lemma scan_once_json_text (v : pyval) : reads_back v.
Proof.
  induction v as [ |b|n|f|s|l IHl|d IHd] using pyval_nested_ind.
  - intros _ fuel depth rest F _ Hr. destruct fuel as [|fuel]; [cbn in F; lia|].
    reflexivity.
  - intros _ fuel depth rest F _ Hr. destruct fuel as [|fuel]; [cbn in F; lia|].
    destruct b; reflexivity.
  - apply reads_back_int.
  - apply reads_back_float.
  - apply reads_back_str.
  - intros R fuel depth rest F L Hr.
    cbn [representable size list_sum fold_right map encode_error] in *.
    destruct fuel as [|fuel]; [lia|].
    destruct depth as [|depth]; [discriminate|].
    apply first_error_none in L.
    cbn [json_text]. change (u "[") with [ch "["]. cbn [app scan_once].
    change (ch "[" =? quote) with false.
    change (ch "[" =? ch "{") with false.
    change (ch "[" =? ch "[") with true. cbv iota.
    destruct l as [|x l]; [reflexivity|].
    rewrite <- List.app_assoc.
    change (u "]" ++ rest) with (ch "]" :: rest).
    cbn [map]. rewrite (join_cons (json_text x) (map json_text l)).
    pose proof R as R'. cbn [forallb] in R'.
    apply andb_prop in R'. destruct R' as [Rx _].
    destruct (json_text_not_ws x
                (continued (map json_text l) (ch "]" :: rest)) Rx)
      as (W & c & t & E & B).
    rewrite W, E, B, <- E.
    rewrite (JSONArray_items l x fuel depth rest IHl R L); [reflexivity|lia].
  - intros R fuel depth rest F L Hr.
    cbn [representable size list_sum fold_right map encode_error] in *.
    apply andb_prop in R. destruct R as [U R].
    destruct fuel as [|fuel]; [lia|].
    destruct depth as [|depth]; [discriminate|].
    apply (first_error_none (fun kv => encode_error depth (snd kv))) in L.
    cbn [json_text]. change (u "{") with [ch "{"]. cbn [app scan_once].
    change (ch "{" =? quote) with false.
    change (ch "{" =? ch "{") with true. cbv iota.
    destruct d as [|[k x] d]; [reflexivity|].
    rewrite <- List.app_assoc.
    change (u "}" ++ rest) with (ch "}" :: rest).
    cbn [map fst snd]. rewrite join_cons, item_text.
    cbn [skip_ws].
    change (is_json_ws quote) with false. cbv iota.
    change (quote =? ch "}") with false.
    change (quote =? quote) with true. cbv iota.
    rewrite (JSONObject_pairs d k x fuel depth rest IHd R L); [|lia].
    now rewrite (dict_of_pairs_unique _ U).
Qed.

Lemma join_size_bound {A} (f : A -> pystr) (g : A -> nat) (l : list A) :
  Forall (fun a => (g a <= length (f a))%nat) l ->
  (list_sum (map (fun a => S (g a)) l)
   <= S (length (join (u ", ") (map f l))))%nat.
Proof.
  induction 1 as [|a l Ha _ IH]; [cbn; lia|].
  cbn [map list_sum fold_right]. change (fold_right Nat.add 0%nat) with list_sum.
  destruct l as [|b l]; [cbn; lia|].
  cbn [map] in *. cbn [join]. rewrite !length_app.
  change (length (u ", ")) with 2%nat. cbn [join] in IH. lia.
Qed.

(** The text of a value has at least one character for each value in
    it. *)
Lemma size_le_length (v : pyval) :
  representable v = true -> (size v <= length (json_text v))%nat.
Proof.
  induction v as [ |b|n|f|s|l IHl|d IHd] using pyval_nested_ind; intros R.
  - vm_compute. lia.
  - destruct b; vm_compute; lia.
  - cbn [size json_text].
    destruct (str_of_Z_head n) as (c & t & E & _). rewrite E. cbn. lia.
  - destruct (json_text_head _ R) as [(c & t & E & _)|[x E]]; [|discriminate].
    rewrite E. cbn. lia.
  - cbn [size json_text]. unfold encode_basestring_ascii. cbn. lia.
  - cbn [size json_text representable] in *. rewrite !length_app.
    change (length (u "[")) with 1%nat. change (length (u "]")) with 1%nat.
    assert (B : Forall (fun x => (size x <= length (json_text x))%nat) l).
    { apply Forall_forall. intros x Hx.
      rewrite Forall_forall in IHl. apply IHl; [exact Hx|].
      rewrite forallb_forall in R. now apply R. }
    pose proof (join_size_bound json_text size l B). lia.
  - cbn [size json_text representable] in *. rewrite !length_app.
    change (length (u "{")) with 1%nat. change (length (u "}")) with 1%nat.
    apply andb_prop in R. destruct R as [_ R].
    set (item := fun kv : pystr * pyval =>
                   encode_basestring_ascii (fst kv) ++ u ": "
                   ++ json_text (snd kv)).
    assert (B : Forall (fun kv => (size (snd kv) <= length (item kv))%nat) d).
    { apply Forall_forall. intros kv Hx.
      rewrite Forall_forall in IHd. specialize (IHd kv Hx).
      rewrite forallb_forall in R. specialize (R kv Hx).
      apply andb_prop in R. destruct R as [_ R]. specialize (IHd R).
      subst item. cbv beta. rewrite !length_app. lia. }
    pose proof (join_size_bound item (fun kv => size (snd kv)) d B) as H.
    cbv beta in H. unfold pystr in *. lia.
Qed.

(** Round trip of the codec: [json.loads(json.dumps(v)) == v], when
    [json.dumps] wrote the text and the value is nested no deeper than
    [json.loads] can go. *)
Lemma json_loads_json_text (v : pyval) :
  representable v = true -> encode_error recursion_budget v = None ->
  json_loads (json_text v) = Ok v.
Proof.
  intros R L. unfold json_loads, decode.
  destruct (json_text_not_ws v [] R) as [W _].
  rewrite List.app_nil_r in W. rewrite W.
  pose proof (scan_once_json_text v R (S (2 * length (json_text v)))
                recursion_budget []) as E.
  rewrite List.app_nil_r in E. rewrite E; [reflexivity| |exact L|reflexivity].
  pose proof (size_le_length v R). lia.
Qed.

Lemma json_loads_json_dumps (depth : nat) (v : pyval) (text : pystr) :
  representable v = true -> json_dumps depth v = Ok text ->
  (nesting v <= recursion_budget)%nat ->
  json_loads text = Ok v.
Proof.
  intros R D L. apply json_dumps_ok in D. destruct D as [-> E].
  apply json_loads_json_text; [exact R|].
  now apply (encode_error_nesting v depth).
Qed.

End Codec.

(** ** The matcher *)

Lemma star_greedy_some {R} cls (s : pystr) (k : pystr -> option R) x :
  star_greedy cls s k = Some x -> exists s', k s' = Some x.
Proof.
  induction s as [|c r IH]; simpl; intros E.
  - now exists [].
  - destruct (cls c).
    + destruct (star_greedy cls r k) eqn:E1.
      * apply IH. congruence.
      * now exists (c :: r).
    + now exists (c :: r).
Qed.

Lemma star_lazy_some {R} cls (s : pystr) (k : pystr -> option R) x :
  star_lazy cls s k = Some x -> exists s', k s' = Some x.
Proof.
  induction s as [|c r IH]; simpl; intros E.
  - destruct (k []) eqn:E1; [|discriminate]. exists []. congruence.
  - destruct (k (c :: r)) eqn:E1.
    + exists (c :: r). congruence.
    + destruct (cls c); [now apply IH | discriminate].
Qed.

(** A match that succeeds has called its continuation, and with the
    group untouched when the expression has none. *)
Lemma rmatch_some {R} (r : regex) :
  forall s g (k : pystr -> option pystr -> option R) x,
    rmatch r s g k = Some x ->
    exists s' g', k s' g' = Some x /\ (group_free r = true -> g' = g).
Proof.
  induction r as [l|cls greedy|r1 IH1|r1 IH1|r1 IH1 r2 IH2];
    intros s g k x E; simpl in E.
  - destruct (starts_with l s) as [s'|]; [|discriminate].
    exists s', g. auto.
  - destruct greedy.
    + apply star_greedy_some in E. destruct E as [s' E]. exists s', g. auto.
    + apply star_lazy_some in E. destruct E as [s' E]. exists s', g. auto.
  - destruct (rmatch r1 s g k) eqn:E1.
    + rewrite <- E. apply IH1 in E1. exact E1.
    + exists s, g. auto.
  - apply IH1 in E. destruct E as (s' & g' & E & _).
    exists s', (Some (firstn (length s - length s') s)).
    split; [exact E | discriminate].
  - apply IH1 in E. destruct E as (s1 & g1 & E & G1).
    apply IH2 in E. destruct E as (s2 & g2 & E & G2).
    exists s2, g2. split; [exact E|].
    simpl. intros G. apply andb_prop in G. destruct G as [Ga Gb].
    rewrite (G2 Gb). now apply G1.
Qed.

Lemma rmatch_seq {R} r1 r2 s g (k : pystr -> option pystr -> option R) :
  rmatch (r1 >>> r2) s g k = rmatch r1 s g (fun s' g' => rmatch r2 s' g' k).
Proof. reflexivity. Qed.

Lemma rmatch_group {R} r s g (k : pystr -> option pystr -> option R) :
  rmatch (Group r) s g k
  = rmatch r s g (fun s' _ => k s' (Some (firstn (length s - length s') s))).
Proof. reflexivity. Qed.

Lemma rmatch_lit {R} l s g (k : pystr -> option pystr -> option R) :
  rmatch (Lit l) s g k
  = match starts_with l s with Some s' => k s' g | None => None end.
Proof. reflexivity. Qed.

Lemma rmatch_opt {R} r s g (k : pystr -> option pystr -> option R) :
  rmatch (Opt r) s g k
  = match rmatch r s g k with Some x => Some x | None => k s g end.
Proof. reflexivity. Qed.

Lemma rmatch_star_greedy {R} cls s g (k : pystr -> option pystr -> option R) :
  rmatch (Star cls true) s g k = star_greedy cls s (fun s' => k s' g).
Proof. reflexivity. Qed.

Lemma rmatch_star_lazy {R} cls s g (k : pystr -> option pystr -> option R) :
  rmatch (Star cls false) s g k = star_lazy cls s (fun s' => k s' g).
Proof. reflexivity. Qed.

(** The pattern of the normalizer never matches without its group. *)
Lemma json_block_group (s : pystr) (g : option pystr) :
  re_match Main.json_block s = Some g -> exists block, g = Some block.
Proof.
  unfold re_match, Main.json_block. intros E.
  rewrite rmatch_seq in E.
  apply rmatch_some in E. destruct E as (s1 & g1 & E & _). cbv beta in E.
  rewrite rmatch_seq in E.
  apply rmatch_some in E. destruct E as (s2 & g2 & E & _). cbv beta in E.
  rewrite rmatch_seq in E.
  apply rmatch_some in E. destruct E as (s3 & g3 & E & _). cbv beta in E.
  rewrite rmatch_seq, rmatch_group in E.
  apply rmatch_some in E. destruct E as (s4 & g4 & E & _). cbv beta in E.
  apply rmatch_some in E. destruct E as (s5 & g5 & E & G5).
  specialize (G5 eq_refl). subst g5. cbv beta in E.
  injection E as <-. eexists. reflexivity.
Qed.

Lemma re_search_json_block_group (s : pystr) (g : option pystr) :
  re_search Main.json_block s = Some g -> exists block, g = Some block.
Proof.
  induction s as [|c r IH]; cbn [re_search].
  - destruct (re_match Main.json_block []) eqn:E; [|discriminate].
    intros E1. injection E1 as <-. now apply json_block_group in E.
  - destruct (re_match Main.json_block (c :: r)) eqn:E.
    + intros E1. injection E1 as <-. now apply json_block_group in E.
    + exact IH.
Qed.

(** ** The pattern on a fenced block *)

Lemma starts_with_app (l s : pystr) : starts_with l (l ++ s) = Some s.
Proof.
  induction l as [|a l IH]; [reflexivity|].
  cbn. now rewrite N.eqb_refl.
Qed.

Lemma starts_with_head (a c : N) (l s : pystr) :
  c <> a -> starts_with (a :: l) (c :: s) = None.
Proof.
  intros Hc. cbn. destruct (N.eqb_spec a c); [congruence | reflexivity].
Qed.

(** A greedy repetition takes all of a run that ends before a character
    out of its class, when the rest of the pattern matches from there. *)
Lemma star_greedy_run {R} cls (w s : pystr) (k : pystr -> option R) x :
  Forall (fun c => cls c = true) w ->
  match s with [] => True | c :: _ => cls c = false end ->
  k s = Some x ->
  star_greedy cls (w ++ s) k = Some x.
Proof.
  intros Hw Hs Hk. induction Hw as [|c w Hc _ IH]; cbn [app].
  - destruct s as [|c s]; cbn; [exact Hk|]. now rewrite Hs.
  - cbn. now rewrite Hc, IH.
Qed.

(** It fails when the rest of the pattern fails wherever it may stop. *)
Lemma star_greedy_none {R} cls (s : pystr) (k : pystr -> option R) :
  (forall w s', s = w ++ s' -> Forall (fun c => cls c = true) w ->
                k s' = None) ->
  star_greedy cls s k = None.
Proof.
  induction s as [|c s IH]; intros H; cbn.
  - apply (H [] []); [reflexivity | constructor].
  - destruct (cls c) eqn:Hc.
    + rewrite IH.
      * apply (H [] (c :: s)); [reflexivity | constructor].
      * intros w s' -> Hw. apply (H (c :: w) s'); [reflexivity|].
        now constructor.
    + apply (H [] (c :: s)); [reflexivity | constructor].
Qed.

(** A lazy repetition stops at the first place from which the rest of
    the pattern matches. *)
Lemma star_lazy_first {R} (b s : pystr) (k : pystr -> option R) x :
  (forall b1 c b2, b = b1 ++ c :: b2 -> k (c :: b2 ++ s) = None) ->
  k s = Some x ->
  star_lazy dot_all (b ++ s) k = Some x.
Proof.
  revert k. induction b as [|c b IH]; intros k H Hk; cbn [app].
  - destruct s; cbn; now rewrite Hk.
  - cbn. rewrite (H [] c b eq_refl).
    apply IH; [|exact Hk].
    intros b1 c' b2 ->. apply (H (c :: b1) c' b2). reflexivity.
Qed.

Lemma fence_follows_space (c : N) (s : pystr) :
  is_space c = true -> fence_follows (c :: s) = fence_follows s.
Proof. intros Hc. unfold fence_follows. cbn [lstrip]. now rewrite Hc. Qed.

(** After a run of whitespace at the head of a text that has no fence
    there and that a brace closes, there is no fence. *)
Lemma no_fence_before_brace (b w s' T : pystr) :
  fence_follows b = false -> spaces w ->
  b ++ ch "}" :: T = w ++ s' ->
  starts_with fence s' = None.
Proof.
  intros Hb Hw. revert b Hb. induction Hw as [|c w Hc _ IH]; intros b Hb E.
  - cbn [app] in E. subst s'. unfold fence_follows in Hb.
    destruct b as [|c b]; [reflexivity|].
    cbn [lstrip] in Hb. destruct (is_space c) eqn:Hc.
    + cbn [app]. unfold fence. apply starts_with_head. intros ->. discriminate.
    + apply starts_with_none_more; [repeat constructor | reflexivity |].
      now destruct (starts_with fence (c :: b)).
  - destruct b as [|c0 b].
    + cbn in E. injection E as <- _. discriminate.
    + cbn in E. injection E as <- E.
      rewrite (fence_follows_space _ _ Hc) in Hb. now apply IH in E.
Qed.

Lemma closes_early_split (b1 b2 : pystr) :
  closes_early (b1 ++ ch "}" :: b2) = false -> fence_follows b2 = false.
Proof.
  induction b1 as [|c b1 IH]; cbn [app closes_early]; intros H;
    apply orb_false_elim in H; destruct H as [H1 H2].
  - now rewrite N.eqb_refl in H1.
  - now apply IH.
Qed.

Lemma no_backtick_no_fence (s : pystr) :
  no_backtick s -> fence_follows s = false.
Proof.
  induction 1 as [|c s Hc _ IH]; [reflexivity|].
  unfold fence_follows. cbn [lstrip].
  destruct (is_space c) eqn:Hs; [exact IH|].
  unfold fence. rewrite starts_with_head; [reflexivity|]. exact Hc.
Qed.

Lemma no_backtick_closes_late (s : pystr) :
  no_backtick s -> closes_early s = false.
Proof.
  induction 1 as [|c s Hc Hs IH]; [reflexivity|].
  cbn [closes_early]. rewrite IH, (no_backtick_no_fence s Hs).
  now rewrite andb_false_r.
Qed.

Section Fenced.
Variables (ws2 post : pystr).
Hypothesis Hws2 : spaces ws2.

(** What follows the group: whitespace and the closing fence. *)
Lemma rmatch_close (g : option pystr) :
  rmatch (Star is_space true >>> Lit fence) (ws2 ++ fence ++ post) g
    (fun _ g' => Some g')
  = Some g.
Proof.
  rewrite rmatch_seq, rmatch_star_greedy.
  apply star_greedy_run; [exact Hws2 | reflexivity |].
  now rewrite rmatch_lit, starts_with_app.
Qed.

Lemma rmatch_no_close (b T : pystr) (g : option pystr) :
  fence_follows b = false ->
  rmatch (Star is_space true >>> Lit fence) (b ++ ch "}" :: T) g
    (fun _ g' => Some g')
  = None.
Proof.
  intros Hb. rewrite rmatch_seq, rmatch_star_greedy.
  apply star_greedy_none. intros w s' E Hw.
  now rewrite rmatch_lit, (no_fence_before_brace b w s' T Hb Hw E).
Qed.

Variables (gap body : pystr).
Hypothesis Hgap : spaces gap.
Hypothesis Hbody : closes_early body = false.

Let content : pystr := block gap body.

(** The group and what follows it, from the opening brace on. *)
Lemma rmatch_group_close (g : option pystr) :
  rmatch
    (Group (Lit (u "{") >>> Star is_space true >>> Lit [quote] >>>
            Star dot_all false >>> Lit (u "}")) >>>
     Star is_space true >>> Lit fence)
    (content ++ ws2 ++ fence ++ post) g (fun _ g' => Some g')
  = Some (Some content).
Proof.
  rewrite rmatch_seq, rmatch_group.
  set (Z := content ++ ws2 ++ fence ++ post).
  set (T := ws2 ++ fence ++ post).
  assert (EZ : Z = ch "{" :: gap ++ quote :: body ++ ch "}" :: T).
  { subst Z T content. unfold block. cbn [app].
    rewrite <- List.app_assoc. cbn [app].
    rewrite <- List.app_assoc. reflexivity. }
  rewrite rmatch_seq, rmatch_lit.
  rewrite EZ at 1. change (u "{") with [ch "{"].
  cbn [starts_with]. rewrite N.eqb_refl.
  rewrite rmatch_seq, rmatch_star_greedy.
  apply star_greedy_run; [exact Hgap | reflexivity |].
  rewrite rmatch_seq, rmatch_lit.
  cbn [starts_with]. rewrite N.eqb_refl.
  rewrite rmatch_seq, rmatch_star_lazy.
  apply (star_lazy_first body (ch "}" :: T)).
  - intros b1 c b2 E. rewrite rmatch_lit. change (u "}") with [ch "}"].
    cbn [starts_with].
    destruct (N.eqb_spec (ch "}") c) as [<-|Nc]; [|reflexivity].
    apply rmatch_no_close.
    rewrite E in Hbody. now apply closes_early_split in Hbody.
  - rewrite rmatch_lit. change (u "}") with [ch "}"].
    cbn [starts_with]. rewrite N.eqb_refl.
    assert (EC : firstn (length Z - length T) Z = content).
    { subst Z T. rewrite length_app, Nat.add_sub.
      rewrite <- (Nat.add_0_r (length content)), firstn_app_2.
      cbn [firstn]. apply List.app_nil_r. }
    rewrite EC. apply rmatch_close.
Qed.

End Fenced.

Lemma re_match_fenced (tag ws1 gap body ws2 post : pystr) :
  tag = [] \/ tag = u "json" ->
  spaces ws1 -> spaces gap -> closes_early body = false -> spaces ws2 ->
  re_match Main.json_block
    (fence ++ tag ++ ws1 ++ block gap body ++ ws2 ++ fence ++ post)
  = Some (Some (block gap body)).
Proof.
  intros Ht H1 Hg Hb H2. unfold re_match, Main.json_block.
  change (u "```") with fence.
  rewrite rmatch_seq, rmatch_lit, starts_with_app, rmatch_seq.
  set (Y := ws1 ++ block gap body ++ ws2 ++ fence ++ post).
  set (K := fun (s' : pystr) (g' : option pystr) => rmatch _ s' g' _).
  assert (HK : K Y None = Some (Some (block gap body))).
  { subst K Y. cbv beta. rewrite rmatch_seq, rmatch_star_greedy.
    apply star_greedy_run; [exact H1 | reflexivity |].
    now apply rmatch_group_close. }
  rewrite rmatch_opt. destruct Ht as [-> | ->].
  - cbn [app]. rewrite rmatch_lit.
    replace (starts_with (u "json") Y) with (@None pystr); [exact HK|].
    subst Y. destruct H1 as [|c ws1 Hc _]; [reflexivity|].
    symmetry. apply starts_with_head. intros ->. discriminate.
  - rewrite rmatch_lit, starts_with_app. now rewrite HK.
Qed.

(** The search goes past a text inside which the pattern does not
    match. *)
Lemma re_search_past (r : regex) (pre rest : pystr) :
  matches_inside r pre rest = false ->
  re_search r (pre ++ rest) = re_search r rest.
Proof.
  induction pre as [|c pre IH]; [reflexivity|].
  cbn [matches_inside app]. cbn [re_search].
  destruct (re_match r (c :: pre ++ rest)); [discriminate|]. exact IH.
Qed.

Lemma re_search_here (r : regex) (s : pystr) g :
  re_match r s = Some g -> re_search r s = Some g.
Proof. intros E. destruct s; cbn [re_search]; now rewrite E. Qed.

(** The search goes past the text before the fence and stops at the
    block. *)
Lemma re_search_fenced (pre tag ws1 gap body ws2 post : pystr) :
  matches_inside Main.json_block pre
    (fence ++ tag ++ ws1 ++ block gap body ++ ws2 ++ fence ++ post) = false ->
  tag = [] \/ tag = u "json" ->
  spaces ws1 -> spaces gap -> closes_early body = false -> spaces ws2 ->
  re_search Main.json_block
    (pre ++ fence ++ tag ++ ws1 ++ block gap body ++ ws2 ++ fence ++ post)
  = Some (Some (block gap body)).
Proof.
  intros Hp Ht H1 Hg Hb H2.
  rewrite (re_search_past _ _ _ Hp).
  apply re_search_here. now apply re_match_fenced.
Qed.

(** The pattern matches nowhere inside a text without backtick. *)
Lemma no_backtick_no_match (pre rest : pystr) :
  no_backtick pre -> matches_inside Main.json_block pre rest = false.
Proof.
  induction 1 as [|c pre Hc _ IH]; [reflexivity|].
  cbn [matches_inside app].
  replace (re_match Main.json_block (c :: pre ++ rest))
    with (@None (option pystr)); [exact IH|].
  unfold re_match, Main.json_block. rewrite rmatch_seq, rmatch_lit.
  change (u "```") with fence. unfold fence.
  now rewrite starts_with_head.
Qed.

(** ** Objects that are not empty *)
Section Objects.
Context {interp : Interpreter}.

Lemma JSONObject_nonempty (fuel depth : nat) (s : pystr) ps r :
  JSONObject fuel depth s = Scanned ps r -> ps <> [].
Proof.
  destruct fuel as [|fuel]; cbn [JSONObject]; [nope|].
  intros E.
  repeat match type of E with
         | match ?x with _ => _ end = _ => destruct x; try discriminate
         | (if ?b then _ else _) = _ => destruct b; try discriminate
         end;
    injection E as <- _; discriminate.
Qed.

Lemma dict_set_nonempty k v d : dict_set k v d <> [].
Proof.
  destruct d as [|[k' v'] d]; cbn; [discriminate|].
  destruct (pystr_eqb k k'); discriminate.
Qed.

Lemma dict_of_pairs_nonempty (ps : list (pystr * pyval)) :
  ps <> [] -> dict_of_pairs ps <> [].
Proof.
  unfold dict_of_pairs.
  assert (G : forall ps acc, acc <> [] ->
              fold_left (fun d kv => dict_set (fst kv) (snd kv) d) ps acc
              <> []).
  { clear ps. induction ps as [|kv ps IH]; intros acc Ha; cbn; [exact Ha|].
    apply IH. apply dict_set_nonempty. }
  destruct ps as [|kv ps]; [easy|]. intros _. cbn.
  apply G. discriminate.
Qed.

Lemma skip_ws_gap (gap rest : pystr) :
  spaces gap ->
  exists c r,
    skip_ws (gap ++ quote :: rest) = c :: r
    /\ (c = quote \/ is_space c = true).
Proof.
  induction 1 as [|c gap Hc _ IH]; cbn [app].
  - exists quote, rest. split; [reflexivity | now left].
  - cbn [skip_ws]. destruct (is_json_ws c); [exact IH|].
    exists c, (gap ++ quote :: rest). split; [reflexivity | now right].
Qed.

(** A block that parses is a mapping with at least one key. *)
Lemma json_loads_block (gap body : pystr) (v : pyval) :
  spaces gap -> json_loads (block gap body) = Ok v ->
  exists d, v = PyDict d /\ d <> [].
Proof.
  intros Hg. unfold json_loads, decode, block.
  cbn [skip_ws]. change (is_json_ws (ch "{")) with false. cbv iota.
  cbn [scan_once].
  change (ch "{" =? quote) with false. change (ch "{" =? ch "{") with true.
  cbv iota.
  destruct recursion_budget as [|depth]; [nope|].
  destruct (skip_ws_gap gap (body ++ [ch "}"]) Hg) as (c & r & -> & Hc).
  assert (B : (c =? ch "}") = false).
  { apply N.eqb_neq. intros ->. destruct Hc; discriminate. }
  rewrite B.
  destruct (c =? quote); [|nope].
  destruct (JSONObject _ _ r) as [ps r'| | |e] eqn:E; try nope.
  apply JSONObject_nonempty in E.
  destruct (skip_ws r'); [|nope].
  intros [= <-]. eexists. split; [reflexivity|].
  now apply dict_of_pairs_nonempty.
Qed.

(** ** The exceptions of the decoder *)

Lemma match_number_raises (s : pystr) (e : exn) (r : pystr) :
  match_number s = Some (Raise e, r) ->
  exists n, e = too_many_digits n /\ (int_max_str_digits < n)%nat.
Proof.
  unfold match_number.
  set (p := match s with
            | c :: r0 => if c =? ch "-" then (true, r0) else (false, s)
            | [] => (false, s)
            end).
  destruct p as [neg s1].
  destruct (match_integer s1) as [[int s2]|]; [|nope].
  destruct (match_frac s2) as [[f s3]|];
    destruct (match_exp _) as [[x s4]|]; try nope.
  destruct (int_max_str_digits <? length int)%nat eqn:L; [|nope].
  intros [= <- _]. exists (length int). split; [reflexivity|].
  now apply Nat.ltb_lt in L.
Qed.

Lemma scan_scalar_raises (s : pystr) (e : exn) (r : pystr) :
  scan_scalar s = Some (Raise e, r) -> is_JSONDecodeError e = false.
Proof.
  unfold scan_scalar, first_of. intros E.
  repeat match type of E with
         | match ?x with _ => _ end = _ => destruct x as [[v0 r0]|] eqn:?
         end;
    try (injection E as -> ->);
    first [ match goal with
            | H : match_number _ = Some _ |- _ =>
                apply match_number_raises in H; destruct H as (n & -> & _);
                reflexivity
            end
          | match goal with
            | H : found _ = Some (Raise _, _) |- _ =>
                apply found_some in H; destruct H as (v' & _ & H);
                discriminate H
            end ].
Qed.

(** An exception of the scanner is no [JSONDecodeError]. *)
Lemma scan_failed (fuel : nat) :
  (forall depth s e,
     scan_once fuel depth s = Failed e -> is_JSONDecodeError e = false)
  /\ (forall depth s e,
        JSONObject fuel depth s = Failed e -> is_JSONDecodeError e = false)
  /\ (forall depth s e,
        JSONArray fuel depth s = Failed e -> is_JSONDecodeError e = false).
Proof.
  induction fuel as [|fuel (IHs & IHo & IHa)];
    [repeat split; intros; discriminate|].
  split; [|split]; intros depth s e E.
  - cbn [scan_once] in E.
    repeat match type of E with
           | match ?x with _ => _ end = _ => destruct x eqn:?; try discriminate
           | (if ?b then _ else _) = _ => destruct b; try discriminate
           end;
      injection E as <-;
      first [ reflexivity
            | eapply IHo; eassumption
            | eapply IHa; eassumption
            | eapply scan_scalar_raises; eassumption ].
  - cbn [JSONObject] in E.
    repeat match type of E with
           | match ?x with _ => _ end = _ => destruct x eqn:?; try discriminate
           | (if ?b then _ else _) = _ => destruct b; try discriminate
           end;
      injection E as <-;
      first [ eapply IHs; eassumption | eapply IHo; eassumption ].
  - cbn [JSONArray] in E.
    repeat match type of E with
           | match ?x with _ => _ end = _ => destruct x eqn:?; try discriminate
           | (if ?b then _ else _) = _ => destruct b; try discriminate
           end;
      injection E as <-;
      first [ eapply IHs; eassumption | eapply IHa; eassumption ].
Qed.

(** [json.loads] raises its own error or an exception that a handler of
    [JSONDecodeError] lets through. *)
Lemma json_loads_raises (text : pystr) (e : exn) :
  json_loads text = Raise e ->
  e = JSONDecodeError \/ is_JSONDecodeError e = false.
Proof.
  unfold json_loads, decode.
  destruct (scan_once _ _ _) as [v r| | |e0] eqn:E.
  - destruct (skip_ws r); [nope|]. intros [= <-]. now left.
  - intros [= <-]. now left.
  - intros [= <-]. now left.
  - intros [= <-]. right. eapply (proj1 (scan_failed _)). exact E.
Qed.

End Objects.

(** ** The output normalizer *)
Section NormalizerFacts.
Context {interp : Interpreter}.
Import Main.

Lemma json_data_not_str (output : pyval) :
  (forall s, output <> PyStr s) -> json_data output = ret PyNone.
Proof.
  intros Hs. destruct output; try reflexivity.
  exfalso. now apply (Hs s).
Qed.

Lemma pushes_app (a b : list event) : pushes (a ++ b) = pushes a ++ pushes b.
Proof. apply flat_map_app. Qed.

(** The first attempt succeeds. *)
Lemma json_data_direct (text : pystr) (v : pyval) (t : list event) :
  json_loads text = Ok v ->
  json_data (PyStr text) t = (Ok v, t ++ [JsonLoads text]).
Proof.
  intros E. unfold json_data, try_except, loads, bind, emit, lift.
  now rewrite E.
Qed.

(** The first attempt raises what the handler of line 208 lets through. *)
Lemma json_data_raises (text : pystr) (e : exn) (t : list event) :
  json_loads text = Raise e -> is_JSONDecodeError e = false ->
  json_data (PyStr text) t = (Raise e, t ++ [JsonLoads text]).
Proof.
  intros E He. unfold json_data, try_except, loads, bind, emit, lift.
  now rewrite E, He.
Qed.

(** The first attempt fails and the pattern finds nothing. *)
Lemma json_data_no_block (text : pystr) (t : list event) :
  json_loads text = Raise JSONDecodeError ->
  re_search json_block text = None ->
  json_data (PyStr text) t = (Ok PyNone, t ++ [JsonLoads text; ReSearch text]).
Proof.
  intros E1 E2.
  unfold json_data, try_except, loads, search, bind, emit, lift, ret.
  rewrite E1. cbn. rewrite E2. now rewrite <- app_assoc.
Qed.

(** The first attempt fails and the block that the pattern captures is
    parsed in its place. *)
Lemma json_data_block (text block : pystr) (t : list event) :
  json_loads text = Raise JSONDecodeError ->
  re_search json_block text = Some (Some block) ->
  json_data (PyStr text) t
  = (match json_loads (strip block) with
     | Ok v => Ok v
     | Raise e => if is_JSONDecodeError e then Ok PyNone else Raise e
     end,
     t ++ [JsonLoads text; ReSearch text; JsonLoads (strip block)]).
Proof.
  intros E1 E2.
  unfold json_data, try_except, loads, search, group1_strip, bind, emit,
    lift, ret.
  rewrite E1. cbn. rewrite E2. cbn.
  destruct (json_loads (strip block)) as [v|e]; cbn;
    [|destruct (is_JSONDecodeError e)]; now rewrite <- !app_assoc.
Qed.

(** [json_data] pushes nothing, and the two attempts come to one of
    three ends. *)
Lemma json_data_total (text : pystr) (t : list event) :
  exists evs,
    pushes evs = []
    /\ ((exists v, parses_to text v
                   /\ json_data (PyStr text) t = (Ok v, t ++ evs))
        \/ (unparsable text
            /\ json_data (PyStr text) t = (Ok PyNone, t ++ evs))
        \/ (exists e, fails_with text e
                      /\ json_data (PyStr text) t = (Raise e, t ++ evs))).
Proof.
  unfold parses_to, unparsable, fails_with.
  destruct (json_loads text) as [v|e] eqn:E1.
  - exists [JsonLoads text]. split; [reflexivity|]. left. exists v.
    split; [now left | now apply json_data_direct].
  - destruct (json_loads_raises _ _ E1) as [->|He].
    + destruct (re_search json_block text) as [g|] eqn:E2.
      * destruct (re_search_json_block_group _ _ E2) as [block ->].
        exists [JsonLoads text; ReSearch text; JsonLoads (strip block)].
        split; [reflexivity|].
        rewrite (json_data_block text block t E1 E2).
        destruct (json_loads (strip block)) as [v|e] eqn:E3.
        -- left. exists v. split; [|reflexivity].
           right. split; [reflexivity|]. now exists block.
        -- destruct (json_loads_raises _ _ E3) as [->|He].
           ++ right; left. split; [|reflexivity].
              split; [reflexivity|]. right. now exists block.
           ++ right; right. exists e. rewrite He. split; [|reflexivity].
              split; [reflexivity|]. right. split; [reflexivity|].
              now exists block.
      * exists [JsonLoads text; ReSearch text]. split; [reflexivity|].
        right; left. split; [split; [reflexivity | now left]|].
        now apply json_data_no_block.
    + exists [JsonLoads text]. split; [reflexivity|].
      right; right. exists e. split; [split; [exact He | now left]|].
      now apply json_data_raises.
Qed.

(** The same ends, told from the hypotheses. *)
Lemma json_data_parses (text : pystr) (v : pyval) :
  parses_to text v ->
  exists evs, pushes evs = [] /\ json_data (PyStr text) [] = (Ok v, evs).
Proof.
  intros [E1|(E1 & block & E2 & E3)].
  - eexists. split; [|now apply json_data_direct]. reflexivity.
  - eexists. split;
      [|rewrite (json_data_block text block [] E1 E2), E3; reflexivity].
    reflexivity.
Qed.



(** [cleaned_data] leaves the trace as it is. *)
Lemma cleaned_data_trace (v : pyval) :
  exists r, forall t, cleaned_data v t = (r, t).
Proof.
  unfold cleaned_data, bind, lift, ret.
  destruct (method_get v "summary" _) as [s|e]; [|now exists (Raise e)].
  destruct (method_get v "jobs" _) as [j|e]; [|now exists (Raise e)].
  destruct (slice_to 5 j) as [j5|e]; [|now exists (Raise e)].
  destruct (method_get v "recommendations" _) as [r|e]; [|now exists (Raise e)].
  eexists. reflexivity.
Qed.

(** What [main] does with the value of [json_data]: the record of
    [cleaned_data] when the value is truthy, the payload for an
    exception that it raised, and the payload "Could not parse JSON
    output" when the value is falsy. *)
Lemma main_of_json_data (result output v : pyval) (evs : list event) :
  item result "output" = Some output ->
  json_data output [] = (Ok v, evs) ->
  run (main result)
  = (Ok tt,
     evs ++
     if truthy v then
       match fst (cleaned_data v []) with
       | Ok cleaned => [PushData cleaned]
       | Raise e =>
           [LogError (u "Failed to process results: " ++ exn_str e);
            PushData (error_payload
                        (u "Failed to process results: " ++ exn_str e)
                        (PyStr (py_str result)))]
       end
     else [PushData (error_payload (u "Could not parse JSON output") output)]).
Proof.
  intros Hi E. unfold run, main, try_except, bind. rewrite Hi, E.
  destruct (truthy v); [|reflexivity].
  destruct (cleaned_data_trace v) as [r Hr]. rewrite !Hr. cbn [fst].
  destruct r as [cleaned|e]; [reflexivity|].
  unfold any_exception, log_error, push_data, emit.
  now rewrite <- List.app_assoc.
Qed.

(** What [main] does when [json_data] raises. *)
Lemma main_of_raise (result output : pyval) (e : exn) (evs : list event) :
  item result "output" = Some output ->
  json_data output [] = (Raise e, evs) ->
  run (main result)
  = (Ok tt,
     evs ++
     [LogError (u "Failed to process results: " ++ exn_str e);
      PushData (error_payload (u "Failed to process results: " ++ exn_str e)
                  (PyStr (py_str result)))]).
Proof.
  intros Hi E. unfold run, main, try_except, bind. rewrite Hi, E.
  unfold any_exception, log_error, push_data, emit.
  now rewrite <- List.app_assoc.
Qed.

(** The record of [cleaned_data] for a mapping. *)
Lemma cleaned_data_dict (d : list (pystr * pyval)) (t : list event) :
  cleaned_data (PyDict d) t
  = (match slice_to 5 (match dict_get (u "jobs") d with
                       | Some x => x
                       | None => PyList []
                       end) with
     | Ok jobs5 =>
         Ok (PyDict
               [(u "summary",
                 match dict_get (u "summary") d with
                 | Some x => x
                 | None => PyStr (u "No summary provided")
                 end);
                (u "jobs", jobs5);
                (u "recommendations",
                 match dict_get (u "recommendations") d with
                 | Some x => x
                 | None => PyList []
                 end)])
     | Raise e => Raise e
     end, t).
Proof.
  unfold cleaned_data, bind, lift, ret, method_get.
  now destruct (slice_to 5 _).
Qed.




(** What [main] pushes when [json_data] is a mapping that is not empty
    and whose [jobs] is absent or a list. *)
Lemma main_cleaned (result : pyval) (text : pystr) (d : list (pystr * pyval))
    (evs : list event) :
  item result "output" = Some (PyStr text) ->
  json_data (PyStr text) [] = (Ok (PyDict d), evs) ->
  pushes evs = [] ->
  d <> [] ->
  (dict_get (u "jobs") d = None
   \/ exists l, dict_get (u "jobs") d = Some (PyList l)) ->
  let original :=
    match dict_get (u "jobs") d with Some (PyList l) => l | _ => [] end in
  exists jobs trace,
    run (main result) = (Ok tt, trace)
    /\ pushes trace
       = [PyDict
            [(u "summary",
              match dict_get (u "summary") d with
              | Some x => x
              | None => PyStr (u "No summary provided")
              end);
             (u "jobs", PyList jobs);
             (u "recommendations",
              match dict_get (u "recommendations") d with
              | Some x => x
              | None => PyList []
              end)]]
    /\ jobs = firstn 5 original
    /\ length jobs = Nat.min (length original) 5.
Proof.
  intros Hi E P Hd Hj original.
  exists (firstn 5 original), (evs ++ [PushData
    (PyDict
       [(u "summary",
         match dict_get (u "summary") d with
         | Some x => x
         | None => PyStr (u "No summary provided")
         end);
        (u "jobs", PyList (firstn 5 original));
        (u "recommendations",
         match dict_get (u "recommendations") d with
         | Some x => x
         | None => PyList []
         end)])]).
  split.
  - unfold run, main, try_except, bind. rewrite Hi, E.
    assert (T : truthy (PyDict d) = true) by (destruct d; [easy|reflexivity]).
    rewrite T.
    unfold cleaned_data, bind, lift, ret, push_data, emit, method_get.
    subst original.
    destruct Hj as [Hj|[l Hj]]; rewrite Hj; reflexivity.
  - split; [now rewrite pushes_app, P|].
    split; [reflexivity|].
    rewrite length_firstn. apply Nat.min_comm.
Qed.

(** C1, as amended: when the terminal text parses, as a whole or else
    through the block that the pattern captures, to a mapping that is
    not empty and whose [jobs] is absent or a list, [main] pushes one
    structured result: [jobs] cut to its first five elements, so of
    length [min (length jobs) 5], and [summary], [jobs] and
    [recommendations] replaced by "No summary provided", the empty
    list and the empty list when the key is absent.  The text parses
    when [json.loads] returns, which it does not for text that is no
    JSON, nor for an integer of more than 4300 digits or for nesting
    beyond the recursion that is left. *)
Theorem main_structured_result (result : pyval) (text : pystr)
    (d : list (pystr * pyval)) :
  item result "output" = Some (PyStr text) ->
  (json_loads text = Ok (PyDict d)
   \/ (json_loads text = Raise JSONDecodeError
       /\ exists block,
            re_search json_block text = Some (Some block)
            /\ json_loads (strip block) = Ok (PyDict d))) ->
  d <> [] ->
  (dict_get (u "jobs") d = None
   \/ exists l, dict_get (u "jobs") d = Some (PyList l)) ->
  let original :=
    match dict_get (u "jobs") d with Some (PyList l) => l | _ => [] end in
  exists jobs trace,
    run (main result) = (Ok tt, trace)
    /\ pushes trace
       = [PyDict
            [(u "summary",
              match dict_get (u "summary") d with
              | Some x => x
              | None => PyStr (u "No summary provided")
              end);
             (u "jobs", PyList jobs);
             (u "recommendations",
              match dict_get (u "recommendations") d with
              | Some x => x
              | None => PyList []
              end)]]
    /\ jobs = firstn 5 original
    /\ length jobs = Nat.min (length original) 5.
Proof.
  intros Hi Hp Hd Hj original.
  destruct (json_data_parses text (PyDict d) Hp) as (evs & P & E).
  exact (main_cleaned result text d evs Hi E P Hd Hj).
Qed.

(** The texts of the example, which an interpreter reads alike with two
    levels of recursion or more. *)
Lemma json_loads_fenced_example :
  json_loads fenced_example = Raise JSONDecodeError.
Proof. vm_compute. reflexivity. Qed.

Lemma json_loads_example_block :
  (2 <= recursion_budget)%nat ->
  json_loads (block [] example_body)
  = Ok (PyDict [(u "summary", PyStr (u "ok")); (u "jobs", PyList []);
                (u "recommendations", PyList [PyStr (u "apply")])]).
Proof.
  intros B. unfold json_loads, decode.
  destruct recursion_budget as [|[|n]]; [lia|lia|].
  vm_compute. reflexivity.
Qed.

(** C2, as amended: when the terminal text fails to parse as a whole and
    is made of a text inside which the pattern matches at no position, a
    fence, the tag [json] or none, whitespace or none, a block,
    whitespace or none, a closing fence and anything after, where the
    block starts with a brace, whitespace or none and a quote, ends with
    a brace and has before its end no brace that is followed by
    whitespace or none and a fence, and the block is valid JSON whose
    [jobs] is absent or a list, then [main] parses the block and pushes
    the structured result built from it; so for the fenced block of the
    example, which yields the summary "ok", no jobs and the
    recommendation "apply" when [json.loads] has two levels of recursion
    left. *)
Theorem main_fenced_block :
  (forall (result : pyval) (pre tag ws1 gap body ws2 post : pystr) (v : pyval),
     let text :=
       pre ++ fence ++ tag ++ ws1 ++ block gap body ++ ws2 ++ fence ++ post in
     item result "output" = Some (PyStr text) ->
     json_loads text = Raise JSONDecodeError ->
     matches_inside json_block pre
       (fence ++ tag ++ ws1 ++ block gap body ++ ws2 ++ fence ++ post)
     = false ->
     tag = [] \/ tag = u "json" ->
     spaces ws1 -> spaces gap -> closes_early body = false -> spaces ws2 ->
     json_loads (block gap body) = Ok v ->
     (item v "jobs" = None \/ exists l, item v "jobs" = Some (PyList l)) ->
     exists jobs,
       run (main result)
       = (Ok tt,
          [JsonLoads text; ReSearch text; JsonLoads (block gap body);
           PushData
             (PyDict
                [(u "summary",
                  match item v "summary" with
                  | Some x => x
                  | None => PyStr (u "No summary provided")
                  end);
                 (u "jobs", PyList jobs);
                 (u "recommendations",
                  match item v "recommendations" with
                  | Some x => x
                  | None => PyList []
                  end)])])
       /\ jobs = firstn 5 (match item v "jobs" with
                           | Some (PyList l) => l
                           | _ => []
                           end))
  /\ ((2 <= recursion_budget)%nat ->
      run (main (agent_result (PyStr fenced_example)))
      = (Ok tt,
         [JsonLoads fenced_example; ReSearch fenced_example;
          JsonLoads (block [] example_body);
          PushData
            (PyDict [(u "summary", PyStr (u "ok")); (u "jobs", PyList []);
                     (u "recommendations", PyList [PyStr (u "apply")])])])).
Proof.
  assert (G : forall (result : pyval) (pre tag ws1 gap body ws2 post : pystr)
                (d : list (pystr * pyval)),
             let text :=
               pre ++ fence ++ tag ++ ws1 ++ block gap body ++ ws2 ++ fence
                 ++ post in
             item result "output" = Some (PyStr text) ->
             json_loads text = Raise JSONDecodeError ->
             matches_inside json_block pre
               (fence ++ tag ++ ws1 ++ block gap body ++ ws2 ++ fence ++ post)
             = false ->
             tag = [] \/ tag = u "json" ->
             spaces ws1 -> spaces gap -> closes_early body = false ->
             spaces ws2 ->
             json_loads (block gap body) = Ok (PyDict d) -> d <> [] ->
             (dict_get (u "jobs") d = None
              \/ exists l, dict_get (u "jobs") d = Some (PyList l)) ->
             run (main result)
             = (Ok tt,
                [JsonLoads text; ReSearch text; JsonLoads (block gap body);
                 PushData
                   (PyDict
                      [(u "summary",
                        match dict_get (u "summary") d with
                        | Some x => x
                        | None => PyStr (u "No summary provided")
                        end);
                       (u "jobs",
                        PyList (firstn 5 (match dict_get (u "jobs") d with
                                          | Some (PyList l) => l
                                          | _ => []
                                          end)));
                       (u "recommendations",
                        match dict_get (u "recommendations") d with
                        | Some x => x
                        | None => PyList []
                        end)])])).
  { intros result pre tag ws1 gap body ws2 post d text Hi E1 Hp Ht H1 Hg Hb H2
      Ev Hd Hj.
    pose proof (re_search_fenced pre tag ws1 gap body ws2 post Hp Ht H1 Hg Hb
                  H2) as E2.
    fold text in E2.
    assert (Es : strip (block gap body) = block gap body).
    { unfold block.
      change (gap ++ quote :: body ++ [ch "}"])
        with (gap ++ (quote :: body) ++ [ch "}"]).
      rewrite List.app_assoc. now apply strip_fixed. }
    pose proof (json_data_block text (block gap body) [] E1 E2) as E.
    rewrite Es, Ev in E. cbn [app] in E.
    rewrite (main_of_json_data result _ _ _ Hi E).
    assert (T : truthy (PyDict d) = true) by (destruct d; [easy|reflexivity]).
    rewrite T, cleaned_data_dict. cbn [fst].
    destruct Hj as [Hj|[l Hj]]; rewrite Hj; reflexivity. }
  split.
  - intros result pre tag ws1 gap body ws2 post v text Hi E1 Hp Ht H1 Hg Hb H2
      Ev Hj.
    destruct (json_loads_block gap body v Hg Ev) as (d & -> & Hd).
    cbn [item] in *. eexists. split; [|reflexivity].
    now apply G.
  - intros B.
    apply (G (agent_result (PyStr fenced_example)) [] (u "json") newline []
             example_body newline []
             [(u "summary", PyStr (u "ok")); (u "jobs", PyList []);
              (u "recommendations", PyList [PyStr (u "apply")])]).
    + reflexivity.
    + apply json_loads_fenced_example.
    + reflexivity.
    + now right.
    + repeat constructor.
    + constructor.
    + vm_compute. reflexivity.
    + repeat constructor.
    + now apply json_loads_example_block.
    + discriminate.
    + right. eexists. reflexivity.
Qed.

(** C8, as amended: a structured result with at most five jobs that
    [json.dumps] writes as JSON text, given to [main] as the terminal
    text, is parsed at the first attempt and pushed as it was, field for
    field, when it holds no high surrogate right before a low one, no
    NaN, only floats that [repr] writes as they were read, in no job a
    key twice, and lists and mappings nested no deeper than the
    recursion that is left to [json.loads]. *)
Theorem main_round_trip (r : StructuredResult) (depth : nat) (text : pystr) :
  (length (jobs r) <= 5)%nat ->
  representable (to_mapping r) = true ->
  json_dumps depth (to_mapping r) = Ok text ->
  (nesting (to_mapping r) <= recursion_budget)%nat ->
  run (main (agent_result (PyStr text)))
  = (Ok tt, [JsonLoads text; PushData (to_mapping r)]).
Proof.
  intros L R D N.
  pose proof (json_data_direct _ _ [] (json_loads_json_dumps depth _ text R D N))
    as E.
  rewrite (main_of_json_data (agent_result (PyStr text)) _ _ _ eq_refl E).
  change (truthy (to_mapping r)) with true. cbv iota.
  unfold to_mapping at 1. rewrite cleaned_data_dict.
  change (dict_get (u "summary") _) with (Some (PyStr (summary r))).
  change (dict_get (u "jobs") _) with (Some (PyList (map PyDict (jobs r)))).
  change (dict_get (u "recommendations") _)
    with (Some (PyList (map PyStr (recommendations r)))).
  cbv iota beta. cbn [slice_to fst app].
  rewrite firstn_all2 by (rewrite length_map; exact L).
  reflexivity.
Qed.

(** C10: when the agent's result has an [output] that is not a string,
    [main] makes no attempt to parse JSON: its whole trace is the push of
    the payload with the error "Could not parse JSON output" and that
    very value as [raw_output]. *)
Theorem main_output_not_str (result output : pyval) :
  item result "output" = Some output ->
  (forall s, output <> PyStr s) ->
  run (main result)
  = (Ok tt, [PushData (error_payload (u "Could not parse JSON output") output)])
  /\ json_attempts (snd (run (main result))) = [].
Proof.
  intros Hi Hs.
  assert (E : run (main result)
              = (Ok tt, [PushData (error_payload
                                     (u "Could not parse JSON output") output)])).
  { unfold run, main, try_except, bind.
    rewrite Hi, (json_data_not_str _ Hs). reflexivity. }
  split; [exact E|]. now rewrite E.
Qed.

End NormalizerFacts.

Lemma main_output_not_str_witness :
  run (@Main.main cpython
         (Main.agent_result (PyDict [(u "summary", PyStr (u "ok"))])))
  = (Ok tt,
     [PushData (Main.error_payload (u "Could not parse JSON output")
                  (PyDict [(u "summary", PyStr (u "ok"))]))]).
Proof.
  apply (@main_output_not_str cpython).
  - reflexivity.
  - intros s; discriminate.
Defined.

(** ** The tool adapters *)
Section AdapterFacts.
Context {interp : Interpreter}.
Variable actor_call : pystr -> pyval -> result (option (list (pystr * pyval))).
Variable list_items : pyval -> result (list pyval).
Variable chain_ainvoke : pystr -> result pyval.
Import Tools.





(** A record's description, read off the item it was made from. *)
Lemma format_description_cases (job : pyval) (text : pystr) :
  format_description job = Ok text ->
  ((item job "summary" = None
    \/ exists v, item job "summary" = Some v /\ truthy v = false)
   /\ text = [])
  \/ (exists s,
        item job "summary" = Some (PyStr s) /\ s <> []
        /\ text = firstn 300 s ++ u "...").
Proof.
  unfold format_description, and_then, method_get, item.
  destruct job as [ |b|n|f|s|l|d]; try discriminate.
  destruct (dict_get (u "summary") d) as [v|] eqn:E.
  - destruct (truthy v) eqn:T.
    + destruct v as [ |b|n|f|s|l|d']; cbn [slice_to add_str and_then];
        try discriminate.
      intros [= <-]. right. exists s. split; [reflexivity|].
      split; [|reflexivity]. now destruct s.
    + intros [= <-]. left. split; [|reflexivity]. right. now exists v.
  - cbn. intros [= <-]. left. split; [|reflexivity]. now left.
Qed.

Lemma format_job_description (job : pyval) (r : JobSearchResult) :
  format_job job = Ok r -> format_description job = Ok (description r).
Proof.
  unfold format_job, and_then. intros E.
  repeat match type of E with
         | match ?x with _ => _ end = _ => destruct x; try discriminate
         end.
  now injection E as <-.
Qed.

Lemma format_job_is_dict (job : pyval) (r : JobSearchResult) :
  format_job job = Ok r -> exists d, job = PyDict d.
Proof. destruct job as [ |b|n|f|s|l|d]; try nope. now exists d. Qed.

Lemma format_job_inv (d : list (pystr * pyval)) (r : JobSearchResult) :
  format_job (PyDict d) = Ok r ->
    formattable (PyDict d) = true
    /\ title r = strip (text_of (dict_get (u "title") d))
    /\ company r = strip (text_of (dict_get (u "companyName") d))
    /\ location r
       = strip (text_of (match dict_get (u "jobLocation") d with
                         | Some (PyDict l) => dict_get (u "displayName") l
                         | _ => None
                         end))
    /\ posting_date r
       = match dict_get (u "postedDate") d with Some v => v | None => PyStr [] end
    /\ employment_type r
       = match dict_get (u "employmentType") d with
         | Some v => v
         | None => PyStr []
         end
    /\ salary r
       = match dict_get (u "salary") d with
         | Some v => v
         | None => PyStr (u "Not specified")
         end
    /\ url r
       = match dict_get (u "detailsPageUrl") d with
         | Some v => v
         | None => PyStr []
         end
    /\ is_remote r
       = match dict_get (u "isRemote") d with
         | Some v => v
         | None => PyBool false
         end.
Proof.
  unfold format_job, format_description, formattable, and_then, method_get.
  destruct (dict_get (u "title") d) as [[ |b1|n1|f1|t|l1|d1]|];
    cbn [method_strip]; try nope;
    (destruct (dict_get (u "companyName") d) as [[ |b2|n2|f2|c|l2|d2]|];
     cbn [method_strip]; try nope;
     (destruct (dict_get (u "jobLocation") d) as [[ |b3|n3|f3|s3|l3|d3]|];
      try nope; cbn [dict_get];
      [destruct (dict_get (u "displayName") d3) as [[ |b4|n4|f4|s4|l4|d4]|];
       cbn [method_strip]; try nope
      |cbn [method_strip]];
      (destruct (dict_get (u "summary") d) as [[ |b5|n5|f5|s5|l5|d5]|];
       cbn [truthy];
       [ | destruct b5 | destruct (n5 =? 0)%Z | destruct (float_is_zero f5)
         | destruct s5 | destruct l5 | destruct d5 | ];
       cbn [negb slice_to add_str]; try nope;
       (intros [= <-]; repeat split; reflexivity)))).
Qed.

Lemma format_job_accepts (d : list (pystr * pyval)) :
  formattable (PyDict d) = true -> exists r, format_job (PyDict d) = Ok r.
Proof.
  unfold format_job, format_description, formattable, and_then, method_get.
  destruct (dict_get (u "title") d) as [[ |b1|n1|f1|t|l1|d1]|];
    cbn [method_strip absent_or_str andb]; try nope;
    (destruct (dict_get (u "companyName") d) as [[ |b2|n2|f2|c|l2|d2]|];
     cbn [method_strip absent_or_str andb]; try nope;
     (destruct (dict_get (u "jobLocation") d) as [[ |b3|n3|f3|s3|l3|d3]|];
      cbn [andb]; try nope; cbn [dict_get];
      [destruct (dict_get (u "displayName") d3) as [[ |b4|n4|f4|s4|l4|d4]|];
       cbn [method_strip absent_or_str andb]; try nope
      |cbn [method_strip]];
      (destruct (dict_get (u "summary") d) as [[ |b5|n5|f5|s5|l5|d5]|];
       cbn [truthy];
       [ | destruct b5 | destruct (n5 =? 0)%Z | destruct (float_is_zero f5)
         | destruct s5 | destruct l5 | destruct d5 | ];
       cbn [negb slice_to add_str]; try nope;
       (intros _; eexists; reflexivity)))).
Qed.

(** C9: every item that lines 78-88 accept (a dict whose texts are
    absent or strings and whose [summary] is absent, falsy or a string)
    is formatted, and the description of a formatted record is the empty
    string when the item's [summary] is missing or falsy, and otherwise
    the first 300 characters of [summary] followed by "...", whatever the
    length of [summary]; it has at most 303 characters. *)
Theorem description_is_truncated (job : pyval) :
  (formattable job = true -> exists r, format_job job = Ok r)
  /\ forall r : JobSearchResult,
       format_job job = Ok r ->
       (((item job "summary" = None
          \/ exists v, item job "summary" = Some v /\ truthy v = false)
         /\ description r = [])
        \/ exists s,
             item job "summary" = Some (PyStr s) /\ s <> []
             /\ description r = firstn 300 s ++ u "...")
       /\ (length (description r) <= 303)%nat.
Proof.
  split.
  - destruct job as [ |b|n|f|s|l|d]; try nope. apply format_job_accepts.
  - intros r E. apply format_job_description in E.
    apply format_description_cases in E.
    split; [exact E|].
    destruct E as [[_ ->]|(s & _ & _ & ->)]; [cbn [length]; lia|].
    rewrite length_app, length_firstn.
    change (length (u "...")) with 3%nat. lia.
Qed.



(** C7: on a resume text made of whitespace only, the empty text
    included, [_analyze_resume] returns the "empty input" record, with
    no skills, experience or education and zero years of experience,
    and its trace is empty: the model was not called. *)
Theorem analyze_resume_blank (resume_text : pystr) :
  Forall (fun c => is_space c = true) resume_text ->
  run (_analyze_resume chain_ainvoke resume_text) = (Ok empty_resume, [])
  /\ model_calls (snd (run (_analyze_resume chain_ainvoke resume_text))) = []
  /\ item empty_resume "error" = Some (PyStr (u "Empty resume text provided"))
  /\ item empty_resume "skills" = Some (PyList [])
  /\ item empty_resume "experience" = Some (PyList [])
  /\ item empty_resume "education" = Some (PyList [])
  /\ item empty_resume "years_experience" = Some (PyInt 0).
Proof.
  intros Hs. unfold run, _analyze_resume.
  rewrite (strip_spaces resume_text Hs). cbn.
  repeat split; reflexivity.
Qed.

End AdapterFacts.

(** ** The agent loop *)
Section LoopFacts.
Import Agent.
Variable model : list ToolSpec -> list AgentTurn -> pystr -> reply.
Variable tools : list ToolSpec.
Variable task : pystr.

Lemma agent_loop_bounded (budget : nat) :
  forall transcript invoked o transcript' invoked',
    agent_loop model tools task budget transcript invoked
    = (o, transcript', invoked') ->
    (invoked' + length transcript <= invoked + length transcript')%nat
    /\ (invoked <= invoked')%nat
    /\ (length transcript' <= length transcript + budget)%nat
    /\ (o = IterationLimit <->
        length transcript' = (length transcript + budget)%nat)
    /\ (forall text, o = Answer text ->
        exists th, model tools transcript' task = Final th text).
Proof.
  induction budget as [|budget IH]; intros tr n o tr' n' E; cbn in E.
  - injection E as <- <- <-.
    refine (conj _ (conj _ (conj _ (conj _ _)))); try lia;
      [split; [lia | reflexivity] | discriminate].
  - destruct (model tools tr task) as [th nm input|th answer|resp err] eqn:Em.
    + destruct (lookup tools nm) as [t|].
      * apply IH in E. rewrite length_app in E. cbn in E.
        destruct E as (E1 & E2 & E3 & E4 & E5).
        refine (conj _ (conj _ (conj _ (conj _ E5)))); try lia.
        rewrite E4. lia.
      * injection E as <- <- <-.
        refine (conj _ (conj _ (conj _ (conj _ _)))); try lia;
          [split; [discriminate | lia] | discriminate].
    + injection E as <- <- <-.
      refine (conj _ (conj _ (conj _ (conj _ _)))); try lia.
      * split; [discriminate | lia].
      * intros text [= <-]. now exists th.
    + apply IH in E. rewrite length_app in E. cbn in E.
      destruct E as (E1 & E2 & E3 & E4 & E5).
      refine (conj _ (conj _ (conj _ (conj _ E5)))); try lia.
      rewrite E4. lia.
Qed.

(** The transcript grows by the turns of the steps that had an action
    with a known tool or a response that did not parse, and the loop
    ends before its budget is used up only at a final answer or at an
    unknown tool. *)
Lemma agent_loop_trace (budget : nat) :
  forall transcript invoked o transcript' invoked',
    agent_loop model tools task budget transcript invoked
    = (o, transcript', invoked') ->
    exists added,
      transcript' = transcript ++ added
      /\ (forall k turn,
            nth_error added k = Some turn ->
            match model tools (transcript ++ firstn k added) task with
            | Action th nm input =>
                exists t,
                  lookup tools nm = Some t
                  /\ turn = {| thought := th; tool := nm; tool_input := input;
                               observation := match invoke t input with
                                              | Ok out => out
                                              | Raise e => exn_str e
                                              end |}
            | Unparsed response error =>
                turn = {| thought := response; tool := []; tool_input := [];
                          observation := error |}
            | Final _ _ => False
            end)
      /\ ((length added < budget)%nat ->
          match model tools transcript' task with
          | Final _ text => o = Answer text
          | Action _ nm _ => lookup tools nm = None /\ o = UnknownToolError nm
          | Unparsed _ _ => False
          end).
Proof.
  induction budget as [|budget IH]; intros tr n o tr' n' E; cbn in E.
  - injection E as <- <- <-. exists []. rewrite List.app_nil_r.
    split; [reflexivity|]. split; [|cbn; lia].
    intros [|k] turn H; discriminate H.
  - assert (Stop : forall o0,
               (match model tools tr task with
                | Final _ text => o0 = Answer text
                | Action _ nm _ =>
                    lookup tools nm = None /\ o0 = UnknownToolError nm
                | Unparsed _ _ => False
                end) ->
               (o0, tr, n) = (o, tr', n') ->
               exists added,
                 tr' = tr ++ added
                 /\ (forall k turn,
                       nth_error added k = Some turn ->
                       match model tools (tr ++ firstn k added) task with
                       | Action th nm input =>
                           exists t,
                             lookup tools nm = Some t
                             /\ turn = {| thought := th; tool := nm;
                                          tool_input := input;
                                          observation :=
                                            match invoke t input with
                                            | Ok out => out
                                            | Raise e => exn_str e
                                            end |}
                       | Unparsed response error =>
                           turn = {| thought := response; tool := [];
                                     tool_input := []; observation := error |}
                       | Final _ _ => False
                       end)
                 /\ ((length added < S budget)%nat ->
                     match model tools tr' task with
                     | Final _ text => o = Answer text
                     | Action _ nm _ =>
                         lookup tools nm = None /\ o = UnknownToolError nm
                     | Unparsed _ _ => False
                     end)).
    { intros o0 H0 E0. injection E0 as <- <- <-.
      exists []. rewrite List.app_nil_r.
      split; [reflexivity|]. split; [|intros _; exact H0].
      intros [|k] turn H; discriminate H. }
    assert (Step : forall turn n1,
               agent_loop model tools task budget (tr ++ [turn]) n1
               = (o, tr', n') ->
               match model tools tr task with
               | Action th nm input =>
                   exists t,
                     lookup tools nm = Some t
                     /\ turn = {| thought := th; tool := nm;
                                  tool_input := input;
                                  observation := match invoke t input with
                                                 | Ok out => out
                                                 | Raise e => exn_str e
                                                 end |}
               | Unparsed response error =>
                   turn = {| thought := response; tool := [];
                             tool_input := []; observation := error |}
               | Final _ _ => False
               end ->
               exists added,
                 tr' = tr ++ added
                 /\ (forall k turn0,
                       nth_error added k = Some turn0 ->
                       match model tools (tr ++ firstn k added) task with
                       | Action th nm input =>
                           exists t,
                             lookup tools nm = Some t
                             /\ turn0 = {| thought := th; tool := nm;
                                           tool_input := input;
                                           observation :=
                                             match invoke t input with
                                             | Ok out => out
                                             | Raise e => exn_str e
                                             end |}
                       | Unparsed response error =>
                           turn0 = {| thought := response; tool := [];
                                      tool_input := []; observation := error |}
                       | Final _ _ => False
                       end)
                 /\ ((length added < S budget)%nat ->
                     match model tools tr' task with
                     | Final _ text => o = Answer text
                     | Action _ nm _ =>
                         lookup tools nm = None /\ o = UnknownToolError nm
                     | Unparsed _ _ => False
                     end)).
    { intros turn n1 E1 Ht. apply IH in E1.
      destruct E1 as (added & -> & Hk & He).
      exists (turn :: added). rewrite <- List.app_assoc.
      split; [reflexivity|]. split.
      - intros [|k] turn0 H; cbn [nth_error firstn] in *.
        + injection H as <-. now rewrite List.app_nil_r.
        + specialize (Hk k turn0 H).
          now rewrite <- List.app_assoc in Hk.
      - intros L. cbn [length] in L.
        rewrite <- List.app_assoc in He. cbn [app] in He.
        apply He. lia. }
    destruct (model tools tr task) as [th nm input|th answer|resp err] eqn:Em.
    + destruct (lookup tools nm) as [t|] eqn:El.
      * eapply Step; [exact E|]. now exists t.
      * eapply Stop; [|exact E]. now split.
    + eapply Stop; [|exact E]. reflexivity.
    + eapply Step; [exact E|]. reflexivity.
Qed.

(** C4: whatever the model answers and whatever the tools do, one
    invocation of the agent ends after at most 5 steps, so with at most
    5 tool invocations; it ends with the iteration-limit marker exactly
    when the budget of 5 is used up, and with the text of the final
    answer as soon as the model gives one.  Every turn of the transcript
    was added by a step whose reply was an action with a known tool,
    recorded with the tool's output or the text of its exception, or a
    response that did not parse, recorded with the parse error: no step
    went on after a final answer.  Before the budget is used up the loop
    stops only at a final answer, whose text it returns, or at an action
    with an unknown tool; so a final answer at any step within the
    budget ends the run there and is what is returned. *)
Theorem agent_stops_within_five_steps :
  exists o transcript invoked,
    agent_invoke model tools task = (o, transcript, invoked)
    /\ (invoked <= 5)%nat
    /\ (invoked <= length transcript)%nat
    /\ (length transcript <= 5)%nat
    /\ (o = IterationLimit <-> length transcript = 5%nat)
    /\ (forall text, o = Answer text ->
        exists th, model tools transcript task = Final th text)
    /\ (forall k turn,
          nth_error transcript k = Some turn ->
          match model tools (firstn k transcript) task with
          | Action th nm input =>
              exists t,
                lookup tools nm = Some t
                /\ turn = {| thought := th; tool := nm; tool_input := input;
                             observation := match invoke t input with
                                            | Ok out => out
                                            | Raise e => exn_str e
                                            end |}
          | Unparsed response error =>
              turn = {| thought := response; tool := []; tool_input := [];
                        observation := error |}
          | Final _ _ => False
          end)
    /\ ((length transcript < 5)%nat ->
        match model tools transcript task with
        | Final _ text => o = Answer text
        | Action _ nm _ => lookup tools nm = None /\ o = UnknownToolError nm
        | Unparsed _ _ => False
        end)
    /\ (forall k th text,
          (k <= length transcript)%nat -> (k < 5)%nat ->
          model tools (firstn k transcript) task = Final th text ->
          k = length transcript /\ o = Answer text).
Proof.
  unfold agent_invoke.
  destruct (agent_loop model tools task max_iterations [] 0)
    as [[o tr] n] eqn:E.
  exists o, tr, n. split; [reflexivity|].
  pose proof (agent_loop_trace _ _ _ _ _ _ E) as (added & Ea & Hk & He).
  cbn [app] in Ea. subst added.
  apply agent_loop_bounded in E. unfold max_iterations in *. cbn in E.
  destruct E as (E1 & E2 & E3 & E4 & E5).
  assert (End : (length tr < 5)%nat ->
                match model tools tr task with
                | Final _ text => o = Answer text
                | Action _ nm _ =>
                    lookup tools nm = None /\ o = UnknownToolError nm
                | Unparsed _ _ => False
                end).
  { intros L. exact (He L). }
  refine (conj _ (conj _ (conj _ (conj E4 (conj E5 (conj Hk (conj End _)))))));
    try lia.
  intros k th text Lk L5 Em.
  assert (K : k = length tr).
  { destruct (Nat.eq_dec k (length tr)) as [K|K]; [exact K|].
    assert (Lt : (k < length tr)%nat) by lia.
    apply nth_error_Some in Lt.
    destruct (nth_error tr k) as [turn|] eqn:En; [|now destruct Lt].
    specialize (Hk k turn En). cbn [app] in Hk. now rewrite Em in Hk. }
  split; [exact K|]. subst k. rewrite firstn_all in Em.
  assert (L : (length tr < 5)%nat) by lia.
  specialize (End L). now rewrite Em in End.
Qed.

End LoopFacts.

(** C1 fails on the text of an empty object and on the text of a list:
    each is valid JSON, and [main] pushes an error payload for it, not the
    structured result made of the three defaults. *)
Lemma main_empty_object_is_an_error :
  @json_loads cpython (u "{}") = Ok (PyDict [])
  /\ run (@Main.main cpython (Main.agent_result (PyStr (u "{}"))))
     = (Ok tt,
        [JsonLoads (u "{}");
         PushData (Main.error_payload (u "Could not parse JSON output")
                     (PyStr (u "{}")))])
  /\ @json_loads cpython (u "[1, 2]") = Ok (PyList [PyInt 1; PyInt 2])
  /\ pushes (snd (run (@Main.main cpython
                         (Main.agent_result (PyStr (u "[1, 2]"))))))
     = [Main.error_payload
          (u "Failed to process results: 'list' object has no attribute 'get'")
          (PyStr (u "{'input': '', 'output': '[1, 2]'}"))]
  /\ forall text,
       In text [u "{}"; u "[1, 2]"] ->
       pushes (snd (run (@Main.main cpython (Main.agent_result (PyStr text)))))
       <> [PyDict [(u "summary", PyStr (u "No summary provided"));
                   (u "jobs", PyList []); (u "recommendations", PyList [])]].
Proof.
  split; [reflexivity|]. split; [reflexivity|]. split; [reflexivity|].
  split; [reflexivity|].
  intros text [<-|[<-|[]]]; vm_compute; discriminate.
Qed.

Lemma main_structured_result_witness :
  exists jobs trace,
    run (@Main.main cpython
           (Main.agent_result (PyStr (dq "{'jobs': [1, 2, 3, 4, 5, 6, 7]}"))))
    = (Ok tt, trace)
    /\ pushes trace
       = [PyDict [(u "summary", PyStr (u "No summary provided"));
                  (u "jobs", PyList jobs); (u "recommendations", PyList [])]]
    /\ jobs = [PyInt 1; PyInt 2; PyInt 3; PyInt 4; PyInt 5]
    /\ length jobs = 5%nat.
Proof.
  apply (@main_structured_result cpython
           (Main.agent_result (PyStr (dq "{'jobs': [1, 2, 3, 4, 5, 6, 7]}")))
           (dq "{'jobs': [1, 2, 3, 4, 5, 6, 7]}")
           [(u "jobs", PyList [PyInt 1; PyInt 2; PyInt 3; PyInt 4; PyInt 5;
                               PyInt 6; PyInt 7])]).
  - reflexivity.
  - left. reflexivity.
  - discriminate.
  - right. eexists. reflexivity.
Defined.



(** A summary of 400 characters is cut to its first 300, and the three
    dots follow. *)
Lemma description_is_truncated_witness :
  exists r,
    @Tools.format_job cpython job_long = Ok r
    /\ Tools.description r = repeat (ch "x") 300 ++ u "..."
    /\ length (Tools.description r) = 303%nat.
Proof.
  destruct (proj1 (@description_is_truncated cpython job_long) eq_refl)
    as [r E].
  exists r. split; [exact E|].
  destruct (proj2 (@description_is_truncated cpython job_long) r E)
    as [[[[H|(v & H & T)] _]|(s & H & _ & D)] _].
  - discriminate H.
  - injection H as <-. discriminate T.
  - injection H as <-. rewrite D. split; reflexivity.
Defined.


Lemma analyze_resume_blank_witness :
  run (Tools._analyze_resume no_chain [32; 9; 10]) = (Ok Tools.empty_resume, []).
Proof.
  apply (analyze_resume_blank no_chain [32; 9; 10]).
  repeat constructor.
Defined.

(** A final answer at the third step ends the run there: two turns, one
    tool invocation, and the text of the answer. *)
Lemma agent_stops_within_five_steps_witness :
  exists transcript,
    Agent.agent_invoke model_three_steps [search_tool] []
    = (Agent.Answer (u "no jobs"), transcript, 1%nat)
    /\ length transcript = 2%nat.
Proof.
  destruct (agent_stops_within_five_steps model_three_steps [search_tool] [])
    as (o & tr & n & E & _ & _ & _ & _ & _ & _ & _ & F).
  assert (T : exists a b, tr = [a; b] /\ n = 1%nat).
  { vm_compute in E. injection E as _ <- <-. now eexists _, _. }
  destruct T as (a & b & -> & ->).
  destruct (F 2%nat (u "done") (u "no jobs")) as [_ ->];
    [cbn; lia | lia | reflexivity |].
  exists [a; b]. split; [exact E | reflexivity].
Defined.

(** C8 fails on a summary made of a high surrogate and then a low one:
    [json.dumps] writes two escapes, which [json.loads] reads as one
    character, so [main] pushes a summary of one character for the
    summary of two. *)
Lemma main_round_trip_joins_surrogates :
  (length (Main.jobs paired_result) <= 5)%nat
  /\ exists text,
       @json_dumps cpython 980 (Main.to_mapping paired_result) = Ok text
       /\ text
          = dq "{'summary': '\ud83d\ude00', 'jobs': [], 'recommendations': []}"
       /\ run (@Main.main cpython (Main.agent_result (PyStr text)))
          = (Ok tt, [JsonLoads text; PushData (Main.to_mapping joined_result)])
       /\ Main.to_mapping joined_result <> Main.to_mapping paired_result.
Proof.
  split; [cbn; lia|]. eexists. split; [reflexivity|].
  split; [reflexivity|]. split; [vm_compute; reflexivity | discriminate].
Qed.

Lemma main_round_trip_witness :
  exists text,
    @json_dumps cpython 980 (Main.to_mapping one_result) = Ok text
    /\ run (@Main.main cpython (Main.agent_result (PyStr text)))
       = (Ok tt, [JsonLoads text; PushData (Main.to_mapping one_result)]).
Proof.
  eexists. split; [reflexivity|].
  apply (@main_round_trip cpython one_result 980%nat).
  - cbn. lia.
  - vm_compute. reflexivity.
  - reflexivity.
  - vm_compute. lia.
Defined.

(** C2 fails on a fenced block whose summary holds a brace followed by a
    fence: the block is valid JSON, and the text as a whole is not, but
    the pattern stops at that brace and [main] pushes an error
    payload. *)
Lemma main_fenced_brace_is_an_error :
  fenced_brace
  = u "```" ++ u "json" ++ newline ++ brace_content ++ newline ++ u "```"
  /\ @json_loads cpython fenced_brace = Raise JSONDecodeError
  /\ @json_loads cpython brace_content
     = Ok (PyDict [(u "summary", PyStr (ch "}" :: u "```"))])
  /\ run (@Main.main cpython (Main.agent_result (PyStr fenced_brace)))
     = (Ok tt,
        [JsonLoads fenced_brace; ReSearch fenced_brace;
         JsonLoads (dq "{'summary':'}");
         PushData (Main.error_payload (u "Could not parse JSON output")
                     (PyStr fenced_brace))]).
Proof. repeat split; vm_compute; reflexivity. Qed.

(** The fenced block of the example is found after a sentence that
    holds backticks. *)
Lemma main_fenced_block_witness :
  exists jobs,
    run (@Main.main cpython (Main.agent_result (PyStr prefixed_example)))
    = (Ok tt,
       [JsonLoads prefixed_example; ReSearch prefixed_example;
        JsonLoads (block [] example_body);
        PushData
          (PyDict [(u "summary", PyStr (u "ok")); (u "jobs", PyList jobs);
                   (u "recommendations", PyList [PyStr (u "apply")])])])
    /\ jobs = [].
Proof.
  apply (proj1 (@main_fenced_block cpython)
           (Main.agent_result (PyStr prefixed_example))
           quoting_prefix (u "json") newline [] example_body newline []
           (PyDict [(u "summary", PyStr (u "ok")); (u "jobs", PyList []);
                    (u "recommendations", PyList [PyStr (u "apply")])])).
  - reflexivity.
  - vm_compute. reflexivity.
  - vm_compute. reflexivity.
  - now right.
  - repeat constructor.
  - constructor.
  - vm_compute. reflexivity.
  - repeat constructor.
  - vm_compute. reflexivity.
  - right. eexists. reflexivity.
Defined.

(** ** Runs of the examples *)

(** A result that is not a mapping is reported with its text. *)
Example main_unexpected_format :
  run (@Main.main cpython (PyList [PyInt 1; PyNone]))
  = (Ok tt,
     [PushData (Main.error_payload (u "Unexpected output format")
                  (PyStr (u "[1, None]")))]).
Proof. reflexivity. Qed.

(** The query is cut at its comma into what to search and where; of the
    seven items of the dataset, the three without title are logged and
    left out. *)
Example linkedin_search_developer_paris :
  exists jobs logs,
    run (@Tools._linkedin_search cpython actor_up (items_of seven_items)
           (u "developer , Paris"))
    = (Ok jobs,
       ActorCall (u "krandiash/linkedin-jobs-scraper")
         (PyDict [(u "query", PyStr (u "developer"));
                  (u "location", PyStr (u "Paris")); (u "limit", PyInt 10)])
       :: ListItems (PyStr (u "ds1")) :: logs)
    /\ map Tools.title jobs = [u "a"; u "b"; u "c"; u "d"]
    /\ length logs = 3%nat.
Proof.
  eexists _, _. split; [vm_compute; reflexivity|]. split; reflexivity.
Qed.

(** Without a comma the location is the default of the adapter. *)
Example dice_search_default_location :
  exists trace,
    run (@Tools._dice_search cpython actor_down (items_of []) (u "developer"))
    = (Ok [],
       ActorCall (u "mohamedgb00714/dicecom-job-scraper")
         (PyDict [(u "query", PyStr (u "developer"));
                  (u "location", PyStr (u "Remote")); (u "limit", PyInt 10)])
       :: trace).
Proof. eexists. vm_compute. reflexivity. Qed.

(** A resume that is not blank goes to the model; when the chain fails
    the record of the failure keeps the text. *)
Example analyze_resume_failure :
  run (Tools._analyze_resume no_chain (u "Ten years of Rocq"))
  = (Ok (Tools.failed_resume (Exn (u "RuntimeError") (u "no model"))
           (u "Ten years of Rocq")),
     [ModelCall (u "Ten years of Rocq");
      LogError (u "Resume analysis failed: no model")]).
Proof. reflexivity. Qed.

(** An integer of 4301 digits in the terminal text makes [json.loads]
    raise [ValueError], which the handler of line 208 lets through: the
    pattern is not searched and the handler of line 236 logs and pushes
    its message. *)
Example main_integer_beyond_the_limit :
  let text := dq "{'jobs': [" ++ long_number ++ u "]}" in
  let error :=
    u "Failed to process results: Exceeds the limit (4300 digits) for integer string conversion: value has 4301 digits; use sys.set_int_max_str_digits() to increase the limit" in
  run (@Main.main cpython (Main.agent_result (PyStr text)))
  = (Ok tt,
     [JsonLoads text; LogError error;
      PushData (Main.error_payload error
                  (PyStr (@py_str cpython (Main.agent_result (PyStr text)))))]).
Proof. vm_compute. reflexivity. Qed.

(** [json.dumps] raises on an integer of 4301 digits. *)
Example json_dumps_integer_beyond_the_limit :
  @json_dumps cpython 980 (PyList [PyInt (10 ^ 4300)])
  = Raise (@too_many_digits_to_str cpython).
Proof. vm_compute. reflexivity. Qed.

(** * Further properties of the code *)

(** ** The normalizer, case by case *)
Section NormalizerCases.
Context {interp : Interpreter}.
Import Main.

(** X1: a terminal text that is valid JSON but whose value is falsy
    ([null], [false], a zero, the empty string, list or object) is
    reported as unparseable: [main] pushes the payload "Could not parse
    JSON output" with the text, after its one attempt, and does not look
    for a fenced block. *)
Theorem main_falsy_json_is_reported_unparsed (result : pyval) (text : pystr)
    (v : pyval) :
  item result "output" = Some (PyStr text) ->
  json_loads text = Ok v ->
  truthy v = false ->
  run (main result)
  = (Ok tt,
     [JsonLoads text;
      PushData (error_payload (u "Could not parse JSON output") (PyStr text))]).
Proof.
  intros Hi E T.
  rewrite (main_of_json_data result _ v _ Hi (json_data_direct text v [] E)), T.
  reflexivity.
Qed.


(** X3: the types of the fields are not checked, and the cut to five
    applies to whatever can be sliced: when [json.loads] returns an
    object whose [jobs] is a string, the record that is pushed has its
    first five characters as [jobs]. *)
Theorem main_jobs_text_is_cut_to_five_characters (result : pyval)
    (text : pystr) (d : list (pystr * pyval)) (s : pystr) :
  item result "output" = Some (PyStr text) ->
  json_loads text = Ok (PyDict d) ->
  dict_get (u "jobs") d = Some (PyStr s) ->
  run (main result)
  = (Ok tt,
     [JsonLoads text;
      PushData
        (PyDict
           [(u "summary",
             match dict_get (u "summary") d with
             | Some x => x
             | None => PyStr (u "No summary provided")
             end);
            (u "jobs", PyStr (firstn 5 s));
            (u "recommendations",
             match dict_get (u "recommendations") d with
             | Some x => x
             | None => PyList []
             end)])]).
Proof.
  intros Hi E Hj.
  rewrite (main_of_json_data result _ _ _ Hi (json_data_direct text _ [] E)).
  assert (T : truthy (PyDict d) = true) by (destruct d; [discriminate|reflexivity]).
  rewrite T. unfold cleaned_data, bind, lift, ret, method_get.
  rewrite Hj. reflexivity.
Qed.


(** X5: the attempts are made in order and the first success wins.  When
    the whole text is valid JSON it is the only text that is parsed and
    the pattern is not searched, whatever fenced block the text holds;
    so too when [json.loads] raises an exception that is no
    [JSONDecodeError], as it does for an integer of more than 4300
    digits or for nesting beyond the recursion that is left; when it
    raises [JSONDecodeError] the pattern is searched once, on the whole
    text, and the block that it captures, if any, is the only other text
    that is parsed. *)
Theorem main_attempts_in_order (result : pyval) (text : pystr) :
  item result "output" = Some (PyStr text) ->
  let trace := snd (run (main result)) in
  match json_loads text with
  | Ok _ => json_attempts trace = [text] /\ searches trace = []
  | Raise e =>
      if is_JSONDecodeError e then
        searches trace = [text]
        /\ match re_search json_block text with
           | Some (Some block) => json_attempts trace = [text; strip block]
           | _ => json_attempts trace = [text]
           end
      else json_attempts trace = [text] /\ searches trace = []
  end.
Proof.
  intros Hi trace. subst trace.
  destruct (json_loads text) as [v|e] eqn:E1.
  - rewrite (main_of_json_data result _ v _ Hi (json_data_direct text v [] E1)).
    cbn [snd app].
    destruct (truthy v); [destruct (fst (cleaned_data v []))|];
      split; reflexivity.
  - destruct (json_loads_raises _ _ E1) as [->|He].
    + change (is_JSONDecodeError JSONDecodeError) with true. cbv iota.
      destruct (re_search json_block text) as [g|] eqn:E2.
      * destruct (re_search_json_block_group _ _ E2) as [block ->].
        pose proof (json_data_block text block [] E1 E2) as E.
        destruct (json_loads (strip block)) as [v|e] eqn:E3.
        -- rewrite (main_of_json_data result _ _ _ Hi E).
           cbn [snd app].
           destruct (truthy _); [destruct (fst (cleaned_data _ []))|];
             split; reflexivity.
        -- destruct (is_JSONDecodeError e).
           ++ rewrite (main_of_json_data result _ _ _ Hi E).
              split; reflexivity.
           ++ rewrite (main_of_raise result _ _ _ Hi E).
              split; reflexivity.
      * rewrite (main_of_json_data result _ _ _ Hi
                   (json_data_no_block text [] E1 E2)).
        split; reflexivity.
    + rewrite He.
      rewrite (main_of_raise result _ _ _ Hi (json_data_raises text e [] E1 He)).
      split; reflexivity.
Qed.


End NormalizerCases.

(** ** The pattern of the normalizer *)

Lemma starts_with_some (l s s' : pystr) :
  starts_with l s = Some s' -> s = l ++ s'.
Proof.
  revert s. induction l as [|a l IH]; intros [|b s]; cbn; try nope.
  - now intros [= <-].
  - now intros [= <-].
  - destruct (N.eqb_spec a b) as [<-|]; [|nope].
    intros E. now rewrite (IH s E).
Qed.

Lemma star_greedy_sound {R} cls (s : pystr) (k : pystr -> option R) x :
  star_greedy cls s k = Some x ->
  exists w s',
    s = w ++ s' /\ Forall (fun c => cls c = true) w /\ k s' = Some x.
Proof.
  induction s as [|c r IH]; cbn [star_greedy]; intros E.
  - exists [], []. auto.
  - destruct (cls c) eqn:Hc.
    + destruct (star_greedy cls r k) as [y|] eqn:E1.
      * assert (y = x) by congruence. subst y.
        destruct (IH eq_refl) as (w & s' & -> & Hw & Hk).
        exists (c :: w), s'. auto.
      * exists [], (c :: r). auto.
    + exists [], (c :: r). auto.
Qed.

Lemma star_lazy_sound {R} cls (s : pystr) (k : pystr -> option R) x :
  star_lazy cls s k = Some x ->
  exists w s',
    s = w ++ s' /\ Forall (fun c => cls c = true) w /\ k s' = Some x.
Proof.
  induction s as [|c r IH]; cbn [star_lazy]; intros E.
  - destruct (k []) eqn:E1; [|discriminate].
    exists [], []. repeat split; [constructor | congruence].
  - destruct (k (c :: r)) eqn:E1.
    + exists [], (c :: r). repeat split; [constructor | congruence].
    + destruct (cls c) eqn:Hc; [|discriminate].
      destruct (IH E) as (w & s' & -> & Hw & Hk).
      exists (c :: w), s'. auto.
Qed.

(** A match that succeeds has taken from the head of the text a part
    that the expression matches, and handed the rest to its
    continuation. *)
Lemma rmatch_sound {R} (r : regex) :
  forall s g (k : pystr -> option pystr -> option R) x,
    rmatch r s g k = Some x ->
    exists p s' g',
      s = p ++ s' /\ matches r p /\ k s' g' = Some x
      /\ (group_free r = true -> g' = g).
Proof.
  induction r as [l|cls greedy|r1 IH1|r1 IH1|r1 IH1 r2 IH2];
    intros s g k x E.
  - rewrite rmatch_lit in E.
    destruct (starts_with l s) as [s'|] eqn:El; [|discriminate].
    exists l, s', g. apply starts_with_some in El. cbn. auto.
  - destruct greedy.
    + rewrite rmatch_star_greedy in E. apply star_greedy_sound in E.
      destruct E as (w & s' & -> & Hw & Hk). exists w, s', g. cbn. auto.
    + rewrite rmatch_star_lazy in E. apply star_lazy_sound in E.
      destruct E as (w & s' & -> & Hw & Hk). exists w, s', g. cbn. auto.
  - rewrite rmatch_opt in E.
    destruct (rmatch r1 s g k) as [y|] eqn:E1.
    + assert (y = x) by congruence. subst y.
      destruct (IH1 _ _ _ _ E1) as (p & s' & g' & -> & Hm & Hk & Hg).
      exists p, s', g'. cbn. auto.
    + exists [], s, g. cbn. auto.
  - rewrite rmatch_group in E.
    destruct (IH1 _ _ _ _ E) as (p & s' & g' & -> & Hm & Hk & _).
    eexists p, s', _. cbn.
    split; [reflexivity|]. split; [exact Hm|]. split; [exact Hk|].
    discriminate.
  - rewrite rmatch_seq in E.
    destruct (IH1 _ _ _ _ E) as (p1 & s1 & g1 & -> & Hm1 & E1 & Hg1).
    destruct (IH2 _ _ _ _ E1) as (p2 & s2 & g2 & -> & Hm2 & E2 & Hg2).
    exists (p1 ++ p2), s2, g2. cbn.
    split; [now rewrite List.app_assoc|].
    split; [now exists p1, p2|]. split; [exact E2|].
    intros G. apply andb_prop in G. destruct G as [Ga Gb].
    rewrite (Hg2 Gb). now apply Hg1.
Qed.

(** A group captures the part that it matched. *)
Lemma rmatch_group_sound {R} (r : regex) s g
    (k : pystr -> option pystr -> option R) x :
  rmatch (Group r) s g k = Some x ->
  exists p s', s = p ++ s' /\ matches r p /\ k s' (Some p) = Some x.
Proof.
  rewrite rmatch_group. intros E. apply rmatch_sound in E.
  destruct E as (p & s' & g' & -> & Hm & Hk & _).
  exists p, s'. split; [reflexivity|]. split; [exact Hm|].
  cbv beta in Hk. rewrite length_app, Nat.add_sub in Hk.
  rewrite <- (Nat.add_0_r (length p)), firstn_app_2 in Hk.
  cbn [firstn] in Hk. now rewrite List.app_nil_r in Hk.
Qed.

(** Where the pattern matches, the text reads: a fence, the tag or
    none, whitespace, a block, whitespace, a fence. *)
Lemma re_match_json_block_sound (s : pystr) (g : option pystr) :
  re_match Main.json_block s = Some g ->
  exists tag ws1 gap body ws2 post,
    s = fence ++ tag ++ ws1 ++ block gap body ++ ws2 ++ fence ++ post
    /\ g = Some (block gap body)
    /\ (tag = [] \/ tag = u "json")
    /\ spaces ws1 /\ spaces gap /\ spaces ws2.
Proof.
  unfold re_match, Main.json_block. intros E.
  rewrite rmatch_seq in E. apply rmatch_sound in E.
  destruct E as (p1 & s1 & g1 & -> & M1 & E & G1). cbv beta in E.
  specialize (G1 eq_refl). subst g1. cbn [matches] in M1. subst p1.
  rewrite rmatch_seq in E. apply rmatch_sound in E.
  destruct E as (tag & s2 & g2 & -> & M2 & E & G2). cbv beta in E.
  specialize (G2 eq_refl). subst g2. cbn [matches] in M2.
  rewrite rmatch_seq in E. apply rmatch_sound in E.
  destruct E as (ws1 & s3 & g3 & -> & M3 & E & G3). cbv beta in E.
  specialize (G3 eq_refl). subst g3. cbn [matches] in M3.
  rewrite rmatch_seq in E. apply rmatch_group_sound in E.
  destruct E as (b & s4 & -> & M4 & E).
  cbn [matches] in M4.
  destruct M4 as (b1 & r1 & -> & -> & gap & r2 & -> & Mg & q & r3 & -> & ->
                  & body & b5 & -> & _ & ->).
  rewrite rmatch_seq in E. apply rmatch_sound in E.
  destruct E as (ws2 & s5 & g5 & -> & M5 & E & G5). cbv beta in E.
  specialize (G5 eq_refl). subst g5. cbn [matches] in M5.
  apply rmatch_sound in E.
  destruct E as (p6 & post & g6 & -> & M6 & E & G6). cbv beta in E.
  specialize (G6 eq_refl). subst g6. cbn [matches] in M6. subst p6.
  injection E as <-.
  exists tag, ws1, gap, body, ws2, post.
  change (u "```") with fence. change (u "{") with [ch "{"].
  change (u "}") with [ch "}"].
  split; [reflexivity|]. split; [reflexivity|].
  split; [exact M2|]. split; [exact M3|]. split; [exact Mg | exact M5].
Qed.

Lemma re_search_json_block_sound (text : pystr) (g : option pystr) :
  re_search Main.json_block text = Some g ->
  exists pre tag ws1 gap body ws2 post,
    text = pre ++ fence ++ tag ++ ws1 ++ block gap body ++ ws2 ++ fence ++ post
    /\ g = Some (block gap body)
    /\ (tag = [] \/ tag = u "json")
    /\ spaces ws1 /\ spaces gap /\ spaces ws2.
Proof.
  induction text as [|c text IH]; cbn [re_search].
  - destruct (re_match Main.json_block []) as [g'|] eqn:E; [|discriminate].
    intros [= <-]. apply re_match_json_block_sound in E.
    destruct E as (tag & ws1 & gap & body & ws2 & post & E & H).
    now exists [], tag, ws1, gap, body, ws2, post.
  - destruct (re_match Main.json_block (c :: text)) as [g'|] eqn:E.
    + intros [= <-]. apply re_match_json_block_sound in E.
      destruct E as (tag & ws1 & gap & body & ws2 & post & E & H).
      now exists [], tag, ws1, gap, body, ws2, post.
    + intros E1. destruct (IH E1)
        as (pre & tag & ws1 & gap & body & ws2 & post & -> & H).
      now exists (c :: pre), tag, ws1, gap, body, ws2, post.
Qed.

Lemma strip_block (gap body : pystr) : strip (block gap body) = block gap body.
Proof.
  unfold block.
  change (gap ++ quote :: body ++ [ch "}"])
    with (gap ++ (quote :: body) ++ [ch "}"]).
  rewrite List.app_assoc. now apply strip_fixed.
Qed.

(** X6: whatever the pattern of line 210 captures stands in the text
    between two fences (after the tag [json] or none, and whitespace or
    none on either side); it starts with a brace, whitespace or none and
    a quote, and ends with a brace.  So [.strip()] on line 213 leaves it
    as it is, and when it is valid JSON its value is an object with at
    least one key. *)
Theorem json_block_captures_an_object {interp : Interpreter} (text b : pystr) :
  re_search Main.json_block text = Some (Some b) ->
  (exists pre tag ws1 gap body ws2 post,
     text = pre ++ fence ++ tag ++ ws1 ++ b ++ ws2 ++ fence ++ post
     /\ (tag = [] \/ tag = u "json")
     /\ spaces ws1 /\ spaces ws2
     /\ b = block gap body /\ spaces gap)
  /\ strip b = b
  /\ forall v, json_loads b = Ok v -> exists d, v = PyDict d /\ d <> [].
Proof.
  intros E. apply re_search_json_block_sound in E.
  destruct E as (pre & tag & ws1 & gap & body & ws2 & post & -> & [= ->]
                 & Ht & H1 & Hg & H2).
  split; [|split].
  - now exists pre, tag, ws1, gap, body, ws2, post.
  - apply strip_block.
  - intros v. now apply json_loads_block.
Qed.

Lemma re_match_needs_fence (s : pystr) :
  starts_with fence s = None -> re_match Main.json_block s = None.
Proof.
  intros E. unfold re_match, Main.json_block. rewrite rmatch_seq, rmatch_lit.
  change (u "```") with fence. now rewrite E.
Qed.

Lemma re_search_no_backtick (text : pystr) :
  no_backtick text -> re_search Main.json_block text = None.
Proof.
  induction 1 as [|c s Hc _ IH]; cbn [re_search].
  - now rewrite re_match_needs_fence.
  - rewrite re_match_needs_fence; [exact IH|].
    unfold fence. now apply starts_with_head.
Qed.

Lemma skip_ws_run (ws s : pystr) :
  Forall (fun c => is_json_ws c = true) ws -> skip_ws (ws ++ s) = skip_ws s.
Proof.
  induction 1 as [|c ws Hc _ IH]; cbn [app skip_ws]; [reflexivity|].
  now rewrite Hc.
Qed.

(** No JSON text starts with a backtick. *)
Lemma json_loads_backtick {interp : Interpreter} (ws rest : pystr) :
  Forall (fun c => is_json_ws c = true) ws ->
  json_loads (ws ++ backtick :: rest) = Raise JSONDecodeError.
Proof.
  intros Hw. unfold json_loads, decode. rewrite (skip_ws_run ws _ Hw).
  reflexivity.
Qed.

Section NormalizerFences.
Context {interp : Interpreter}.
Import Main.

(** X7: a terminal text without any backtick has no fenced block: when
    [json.loads] raises [JSONDecodeError] on it, [main] parses once,
    searches once and pushes the payload "Could not parse JSON output"
    with the text as it came. *)
Theorem main_text_without_backtick (result : pyval) (text : pystr) :
  item result "output" = Some (PyStr text) ->
  no_backtick text ->
  json_loads text = Raise JSONDecodeError ->
  run (main result)
  = (Ok tt,
     [JsonLoads text; ReSearch text;
      PushData (error_payload (u "Could not parse JSON output") (PyStr text))]).
Proof.
  intros Hi Hb E1.
  now rewrite (main_of_json_data result _ _ _ Hi
                 (json_data_no_block text [] E1 (re_search_no_backtick _ Hb))).
Qed.

(** X8: a terminal text whose first character after optional JSON
    whitespace is a backtick, as it is for an answer in the fenced
    format that the system message asks for, is never valid JSON as a
    whole: the first attempt fails and the pattern is searched. *)
Theorem main_text_that_starts_with_a_fence (result : pyval) (ws rest : pystr) :
  let text := ws ++ backtick :: rest in
  item result "output" = Some (PyStr text) ->
  Forall (fun c => is_json_ws c = true) ws ->
  json_loads text = Raise JSONDecodeError
  /\ exists tail,
       run (main result) = (Ok tt, JsonLoads text :: ReSearch text :: tail)
       /\ searches tail = [].
Proof.
  intros text Hi Hw.
  pose proof (json_loads_backtick ws rest Hw) as E1. fold text in E1.
  split; [exact E1|].
  destruct (re_search json_block text) as [g|] eqn:E2.
  - destruct (re_search_json_block_group _ _ E2) as [block ->].
    pose proof (json_data_block text block [] E1 E2) as E.
    destruct (json_loads (strip block)) as [v|e];
      [|destruct (is_JSONDecodeError e)].
    + rewrite (main_of_json_data result _ _ _ Hi E).
      eexists. split; [reflexivity|].
      destruct (truthy _); [destruct (fst (cleaned_data _ []))|]; reflexivity.
    + rewrite (main_of_json_data result _ _ _ Hi E).
      eexists. split; reflexivity.
    + rewrite (main_of_raise result _ _ _ Hi E).
      eexists. split; reflexivity.
  - rewrite (main_of_json_data result _ _ _ Hi
               (json_data_no_block text [] E1 E2)).
    eexists. split; reflexivity.
Qed.

(** X28: only the first fenced block is tried.  When [json.loads]
    raises [JSONDecodeError] on the whole text and again on the block
    that the pattern captures, the leftmost one, [main] pushes the
    payload "Could not parse JSON output" with the whole text: there is
    no second search and a later block, valid or not, is never
    parsed. *)
Theorem main_tries_only_the_first_block (result : pyval) (text b : pystr) :
  item result "output" = Some (PyStr text) ->
  json_loads text = Raise JSONDecodeError ->
  re_search json_block text = Some (Some b) ->
  json_loads b = Raise JSONDecodeError ->
  run (main result)
  = (Ok tt,
     [JsonLoads text; ReSearch text; JsonLoads b;
      PushData (error_payload (u "Could not parse JSON output") (PyStr text))]).
Proof.
  intros Hi E1 E2 E3.
  assert (Es : strip b = b).
  { destruct (re_search_json_block_sound text _ E2)
      as (pre & tag & ws1 & gap & body & ws2 & post & _ & [= ->] & _).
    apply strip_block. }
  pose proof (json_data_block text b [] E1 E2) as E.
  rewrite Es, E3 in E.
  now rewrite (main_of_json_data result _ _ _ Hi E).
Qed.

End NormalizerFences.

Section NormalizerIdempotent.
Context {interp : Interpreter}.
Import Main.

Lemma slice_to_again (n : nat) (j j5 : pyval) :
  slice_to n j = Ok j5 -> slice_to n j5 = Ok j5.
Proof.
  destruct j as [ |b|k|f|s|l|d]; cbn [slice_to]; try nope.
  - intros [= <-]. cbn [slice_to]. now rewrite firstn_firstn, Nat.min_id.
  - intros [= <-]. cbn [slice_to]. now rewrite firstn_firstn, Nat.min_id.
Qed.

(** A record that [cleaned_data] has built is left as it is when it is
    cleaned again. *)
Lemma cleaned_data_again (v c : pyval) :
  fst (cleaned_data v []) = Ok c ->
  fst (cleaned_data c []) = Ok c /\ truthy c = true.
Proof.
  unfold cleaned_data at 1. unfold bind, lift, ret.
  destruct (method_get v "summary" _) as [s|e]; [|nope].
  destruct (method_get v "jobs" _) as [j|e]; [|nope].
  destruct (slice_to 5 j) as [j5|e] eqn:Ej; [|nope].
  destruct (method_get v "recommendations" _) as [r|e]; [|nope].
  cbn [fst]. intros [= <-]. split; [|reflexivity].
  apply slice_to_again in Ej.
  unfold cleaned_data, bind, lift, ret.
  change (method_get (PyDict [(u "summary", s); (u "jobs", j5);
                              (u "recommendations", r)]) "summary"
            (PyStr (u "No summary provided")))
    with (Ok s).
  change (method_get (PyDict [(u "summary", s); (u "jobs", j5);
                              (u "recommendations", r)]) "jobs" (PyList []))
    with (Ok j5).
  change (method_get (PyDict [(u "summary", s); (u "jobs", j5);
                              (u "recommendations", r)]) "recommendations"
            (PyList []))
    with (Ok r).
  cbv iota beta. now rewrite Ej.
Qed.

Lemma error_payload_not_structured (error : pystr) (raw_output : pyval) :
  ~ structured (error_payload error raw_output).
Proof. intros (s & j & r & E). discriminate E. Qed.

(** X9: normalizing is idempotent.  A structured result that [main] has
    pushed and that [json.dumps] writes as JSON text, given to [main] as
    the terminal text, is parsed at the first attempt and pushed again as
    it was: a second cut to five changes nothing.  The result holds no
    high surrogate right before a low one, no NaN, only floats that
    [repr] writes as they were read, in no object a key twice, and it is
    nested no deeper than the recursion that is left to [json.loads]. *)
Theorem main_is_idempotent (result data : pyval) (depth : nat) (text : pystr) :
  pushes (snd (run (main result))) = [data] ->
  structured data ->
  representable data = true ->
  json_dumps depth data = Ok text ->
  (nesting data <= recursion_budget)%nat ->
  run (main (agent_result (PyStr text)))
  = (Ok tt, [JsonLoads text; PushData data]).
Proof.
  intros P S R D N.
  assert (C : fst (cleaned_data data []) = Ok data /\ truthy data = true).
  { assert (V : forall output v evs,
               item result "output" = Some output ->
               json_data output [] = (Ok v, evs) -> pushes evs = [] ->
               fst (cleaned_data data []) = Ok data /\ truthy data = true).
    { intros output v evs Hi E Pe.
      rewrite (main_of_json_data result output v evs Hi E) in P.
      cbn [snd] in P. rewrite pushes_app, Pe in P. cbn [app] in P.
      destruct (truthy v).
      + destruct (fst (cleaned_data v [])) as [c|e] eqn:Ec.
        * injection P as <-. now apply cleaned_data_again in Ec.
        * injection P as <-. now apply error_payload_not_structured in S.
      + injection P as <-. now apply error_payload_not_structured in S. }
    destruct (item result "output") as [output|] eqn:Hi.
    - destruct output as [ |b|n|f|text0|l|d];
        try (apply (V _ PyNone [] eq_refl eq_refl eq_refl)).
      destruct (json_data_total text0 []) as (evs & Pe & H). cbn [app] in H.
      destruct H as [(v & _ & E)|[(_ & E)|(e & _ & E)]].
      + exact (V _ v evs eq_refl E Pe).
      + exact (V _ PyNone evs eq_refl E Pe).
      + rewrite (main_of_raise result _ e evs Hi E) in P.
        cbn [snd] in P. rewrite pushes_app, Pe in P. cbn in P.
        injection P as <-. now apply error_payload_not_structured in S.
    - unfold run, main, try_except in P. rewrite Hi in P.
      injection P as <-. now apply error_payload_not_structured in S. }
  destruct C as [C T].
  rewrite (main_of_json_data (agent_result (PyStr text)) (PyStr text) data _
             eq_refl
             (json_data_direct _ _ [] (json_loads_json_dumps depth _ _ R D N))).
  now rewrite T, C.
Qed.

End NormalizerIdempotent.

(** ** The tool adapters, item by item *)
Section FormatterFacts.
Context {interp : Interpreter}.
Import Tools.

(** The loop returns the records of the items that format, and logs
    the exceptions of the others, each in the order of the items. *)
Lemma for_job_in_trace (items : list pyval) :
  forall (formatted_jobs : list JobSearchResult) (t : list event),
    for_job_in items formatted_jobs t
    = (Ok (formatted_jobs ++ well_formatted items),
       t ++ map (fun e => LogError (u "Failed to format job listing: "
                                      ++ exn_str e))
              (format_errors items)).
Proof.
  induction items as [|job rest IH]; intros acc t.
  - cbn. unfold ret. now rewrite !List.app_nil_r.
  - cbn [for_job_in well_formatted format_errors flat_map].
    unfold bind at 1. unfold try_except, bind, lift, ret, emit.
    destruct (format_job job) as [j|e]; cbv beta iota.
    + rewrite (IH (acc ++ [j]) t). now rewrite <- List.app_assoc.
    + unfold any_exception. cbv beta iota.
      rewrite (IH acc). cbn [app map].
      now rewrite <- List.app_assoc.
Qed.

Lemma well_formatted_or_error (items : list pyval) :
  (length (well_formatted items) + length (format_errors items))%nat
  = length items.
Proof.
  induction items as [|job rest IH]; [reflexivity|].
  cbn [well_formatted format_errors flat_map].
  destruct (format_job job); cbn [app length]; fold (well_formatted rest);
    fold (format_errors rest); lia.
Qed.

(** X10: [format_job_results] goes through every item, also after five
    records are kept: each item either gives a record or is logged once,
    with the message of its exception, in the order of the list; the
    records are cut to five only at the end. *)
Theorem format_job_results_logs_each_rejected_item (items : list pyval) :
  run (format_job_results items)
  = (Ok (firstn 5 (well_formatted items)),
     map (fun e => LogError (u "Failed to format job listing: " ++ exn_str e))
       (format_errors items))
  /\ (length (well_formatted items) + length (format_errors items))%nat
     = length items.
Proof.
  split; [|apply well_formatted_or_error].
  unfold run, format_job_results, bind, ret.
  now rewrite for_job_in_trace.
Qed.

(** X11: which items are kept.  [format_job] accepts an item exactly
    when it is a dict whose [title] and [companyName] are absent or
    strings, whose [jobLocation] is absent or a dict with [displayName]
    absent or a string, and whose [summary] is absent, falsy or a string;
    any other item, such as one with a [null] title, raises and is
    skipped.  The five other fields play no part. *)
Theorem format_job_accepts_exactly_the_formattable (job : pyval) :
  (exists r, format_job job = Ok r) <-> formattable job = true.
Proof.
  split.
  - intros [r E]. destruct (format_job_is_dict job r E) as [d ->].
    now apply format_job_inv in E.
  - destruct job as [ |b|n|f|s|l|d]; try nope. apply format_job_accepts.
Qed.

End FormatterFacts.

(** ** Stripped text *)

Lemma lstrip_not_space (s : pystr) :
  match lstrip s with [] => True | c :: _ => is_space c = false end.
Proof.
  induction s as [|c r IH]; cbn [lstrip]; [exact I|].
  destruct (is_space c) eqn:Hc; [exact IH | exact Hc].
Qed.

Lemma lstrip_last (l : pystr) (c : N) :
  is_space c = false -> exists l', lstrip (l ++ [c]) = l' ++ [c].
Proof.
  intros Hc. induction l as [|a l IH]; cbn [app lstrip].
  - rewrite Hc. now exists [].
  - destruct (is_space a); [exact IH|]. now exists (a :: l).
Qed.

(** [rstrip] keeps a first character that is not whitespace. *)
Lemma rstrip_head (c : N) (s : pystr) :
  is_space c = false -> exists y, rstrip (c :: s) = c :: y.
Proof.
  intros Hc. unfold rstrip. cbn [rev].
  destruct (lstrip_last (rev s) c Hc) as [l' ->].
  rewrite rev_app_distr. now exists (rev l').
Qed.

Lemma rstrip_rstrip (s : pystr) : rstrip (rstrip s) = rstrip s.
Proof.
  unfold rstrip. rewrite rev_involutive. f_equal.
  pose proof (lstrip_not_space (rev s)) as H.
  destruct (lstrip (rev s)) as [|c r]; [reflexivity|]. now apply lstrip_head.
Qed.

(** Stripping twice is stripping once. *)
Lemma strip_strip (s : pystr) : strip (strip s) = strip s.
Proof.
  unfold strip. pose proof (lstrip_not_space s) as H.
  destruct (lstrip s) as [|c r]; [reflexivity|].
  destruct (rstrip_head c r H) as [y E].
  rewrite E, (lstrip_head c y H), <- E. apply rstrip_rstrip.
Qed.



Lemma contains_In (sep : N) (s : pystr) : contains sep s = true <-> In sep s.
Proof.
  unfold contains. rewrite existsb_exists. split.
  - intros (x & Hx & E). apply N.eqb_eq in E. now subst.
  - intros H. exists sep. split; [exact H | apply N.eqb_refl].
Qed.


Section FormatterFields.
Context {interp : Interpreter}.
Import Tools.

(** X12: the three text fields of a record are stripped.  [title],
    [company] and [location] are the upstream [title], [companyName] and
    [jobLocation.displayName], or the empty text when the key is
    absent, without the whitespace at either end: stripping them again
    changes nothing. *)
Theorem format_job_strips_the_text_fields (job : pyval) (r : JobSearchResult) :
  format_job job = Ok r ->
  title r = strip (text_of (item job "title"))
  /\ company r = strip (text_of (item job "companyName"))
  /\ location r
     = strip (text_of (match item job "jobLocation" with
                       | Some l => item l "displayName"
                       | None => None
                       end))
  /\ strip (title r) = title r
  /\ strip (company r) = company r
  /\ strip (location r) = location r.
Proof.
  intros E. destruct (format_job_is_dict job r E) as [d ->].
  apply format_job_inv in E.
  destruct E as (F & Et & Ec & El & _).
  cbn [item].
  assert (El' : location r
                = strip (text_of (match dict_get (u "jobLocation") d with
                                  | Some l => item l "displayName"
                                  | None => None
                                  end))).
  { rewrite El. destruct (dict_get (u "jobLocation") d) as [[ | | | | | |l]|];
      reflexivity. }
  split; [exact Et|]. split; [exact Ec|]. split; [exact El'|].
  rewrite Et, Ec, El. repeat split; apply strip_strip.
Qed.

(** X13: the other fields are passed through as they are, whatever their
    type, with the defaults of lines 82-87 for the keys that are absent:
    the empty text for the posting date, the employment type and the
    URL, "Not specified" for the salary and [False] for [is_remote]. *)
Theorem format_job_passes_the_other_fields_through (job : pyval)
    (r : JobSearchResult) :
  format_job job = Ok r ->
  posting_date r
  = match item job "postedDate" with Some v => v | None => PyStr [] end
  /\ employment_type r
     = match item job "employmentType" with Some v => v | None => PyStr [] end
  /\ salary r
     = match item job "salary" with
       | Some v => v
       | None => PyStr (u "Not specified")
       end
  /\ url r
     = match item job "detailsPageUrl" with Some v => v | None => PyStr [] end
  /\ is_remote r
     = match item job "isRemote" with Some v => v | None => PyBool false end.
Proof.
  intros E. destruct (format_job_is_dict job r E) as [d ->].
  apply format_job_inv in E.
  destruct E as (_ & _ & _ & _ & E). exact E.
Qed.

End FormatterFields.

(** ** The query of a job search *)

Lemma split_nonempty (sep : N) (s : pystr) : split sep s <> [].
Proof.
  destruct s as [|c r]; cbn [split]; [discriminate|].
  destruct (c =? sep); [discriminate|].
  destruct (split sep r); discriminate.
Qed.

Lemma split_no_sep (sep : N) (s : pystr) :
  contains sep s = false -> split sep s = [s].
Proof.
  unfold contains. induction s as [|c r IH]; cbn [existsb split]; [reflexivity|].
  intros H. apply orb_false_elim in H. destruct H as [H1 H2].
  rewrite N.eqb_sym, H1. now rewrite (IH H2).
Qed.

Lemma split_at_sep (sep : N) (a b : pystr) :
  contains sep a = false -> split sep (a ++ sep :: b) = a :: split sep b.
Proof.
  unfold contains. induction a as [|c a IH]; cbn [existsb app split].
  - now rewrite N.eqb_refl.
  - intros H. apply orb_false_elim in H. destruct H as [H1 H2].
    rewrite N.eqb_sym, H1. now rewrite (IH H2).
Qed.

(** A text that holds the separator is cut at its first occurrence. *)
Lemma contains_first (sep : N) (s : pystr) :
  contains sep s = true ->
  exists a b, s = a ++ sep :: b /\ contains sep a = false.
Proof.
  unfold contains. induction s as [|c r IH]; cbn [existsb]; [discriminate|].
  destruct (N.eqb_spec sep c) as [<-|Hc]; cbn [orb].
  - intros _. now exists [], r.
  - intros H. destruct (IH H) as (a & b & -> & Ha).
    exists (c :: a), b. split; [reflexivity|]. cbn [existsb].
    apply N.eqb_neq in Hc. now rewrite Hc.
Qed.


Section SearchFacts.
Context {interp : Interpreter}.
Variable actor_call : pystr -> pyval -> result (option (list (pystr * pyval))).
Variable list_items : pyval -> result (list pyval).
Import Tools.

Lemma format_job_results_trace (items : list pyval) (t : list event) :
  format_job_results items t
  = (Ok (firstn 5 (well_formatted items)),
     t ++ map (fun e => LogError (u "Failed to format job listing: "
                                    ++ exn_str e))
            (format_errors items)).
Proof.
  unfold format_job_results, bind, ret. now rewrite for_job_in_trace.
Qed.

(** The input of the run, as lines 56-60 build it. *)
Let run_input (query location : pystr) : pyval :=
  PyDict [(u "query", PyStr (strip (hd [] (split comma query))));
          (u "location",
           PyStr (if contains comma query
                  then strip (nth 1 (split comma query) [])
                  else location));
          (u "limit", PyInt 10)].

(** Every run of [base_job_search], by what the client answers. *)
Lemma base_job_search_run (query actor_id location : pystr) :
  run (base_job_search actor_call list_items query actor_id location)
  = let call := ActorCall actor_id (run_input query location) in
    let failed e :=
      LogError (u "Job search failed for " ++ actor_id ++ u ": " ++ exn_str e) in
    match actor_call actor_id (run_input query location) with
    | Raise e => (Ok [], [call; failed e])
    | Ok None => (Ok [], [call])
    | Ok (Some d) =>
        if negb (truthy (PyDict d)) then (Ok [], [call])
        else
          match getitem d "defaultDatasetId" with
          | Raise e => (Ok [], [call; failed e])
          | Ok id =>
              match list_items id with
              | Raise e => (Ok [], [call; ListItems id; failed e])
              | Ok items =>
                  (Ok (firstn 5 (well_formatted items)),
                   call :: ListItems id
                   :: map (fun e => LogError (u "Failed to format job listing: "
                                                ++ exn_str e))
                        (format_errors items))
              end
          end
    end.
Proof.
  unfold run, base_job_search, try_except, any_exception, run_input.
  pose proof (split_nonempty comma query) as Hne.
  unfold bind at 1. unfold lift at 1.
  destruct (split comma query) as [|q parts] eqn:Es; [easy|].
  cbn [index nth_error hd].
  unfold bind at 1.
  assert (El : (if negb (contains comma query) then ret location
                else (l <- lift (index (q :: parts) 1) ;; ret (strip l))) []
               = (Ok (if contains comma query
                      then strip (nth 1 (q :: parts) [])
                      else location), [])).
  { destruct (contains comma query) eqn:Ec; cbn [negb]; [|reflexivity].
    destruct (contains_first comma query Ec) as (a & b & E & Ha).
    rewrite E, (split_at_sep comma a b Ha) in Es. injection Es as <- <-.
    pose proof (split_nonempty comma b) as Hb.
    destruct (split comma b) as [|p ps]; [easy|]. reflexivity. }
  rewrite El.
  unfold bind at 1. unfold emit at 1. unfold bind at 1. unfold lift at 1.
  cbn [app].
  set (ri := PyDict _).
  destruct (actor_call actor_id ri) as [[d|]|e]; try reflexivity.
  destruct (negb (truthy (PyDict d))); [reflexivity|].
  unfold bind at 1. unfold lift at 1.
  destruct (getitem d "defaultDatasetId") as [id|e]; [|reflexivity].
  unfold bind at 1. unfold emit at 1. unfold bind at 1. unfold lift at 1.
  destruct (list_items id) as [items|e]; [|reflexivity].
  now rewrite format_job_results_trace.
Qed.

Lemma logs_only (A : Type) (f : A -> pystr) (l : list A) :
  actor_calls (map (fun e => LogError (f e)) l) = []
  /\ datasets_read (map (fun e => LogError (f e)) l) = []
  /\ logged (map (fun e => LogError (f e)) l) = map f l.
Proof.
  induction l as [|a l (IH1 & IH2 & IH3)]; [easy|].
  cbn [map]. unfold actor_calls, datasets_read, logged in *.
  cbn [flat_map app]. now rewrite IH1, IH2, IH3.
Qed.



(** The trace starts with the call to the actor. *)
Lemma base_job_search_sends_the_input (actor_id location query : pystr) :
  exists tail,
    snd (run (base_job_search actor_call list_items query actor_id location))
    = ActorCall actor_id (run_input query location) :: tail
    /\ actor_calls tail = [].
Proof.
  rewrite base_job_search_run. cbv zeta.
  destruct (actor_call actor_id _) as [[d|]|e]; cbn [snd];
    [|now eexists|now eexists].
  destruct (negb (truthy (PyDict d))); cbn [snd]; [now eexists|].
  destruct (getitem d "defaultDatasetId") as [id|e]; cbn [snd];
    [|now eexists].
  destruct (list_items id) as [items|e]; [|now eexists].
  eexists. split; [reflexivity|].
  unfold actor_calls. cbn [flat_map app].
  apply (proj1 (logs_only _ _ _)).
Qed.


(** X15: the input is read as a query, a comma and a location.  When
    the text before the first comma is [header] and the text up to the
    next comma, or to the end, is [place], the actor is called with
    [header] and [place], each stripped; what follows a second comma is
    dropped, and so is the default location. *)
Theorem base_job_search_reads_query_then_location
    (header place more actor_id location : pystr) :
  contains comma header = false ->
  contains comma place = false ->
  (more = [] \/ exists m, more = comma :: m) ->
  exists tail,
    snd (run (base_job_search actor_call list_items
                (header ++ comma :: place ++ more) actor_id location))
    = ActorCall actor_id
        (PyDict [(u "query", PyStr (strip header));
                 (u "location", PyStr (strip place)); (u "limit", PyInt 10)])
      :: tail.
Proof.
  intros Hh Hp Hm.
  destruct (base_job_search_sends_the_input actor_id location
              (header ++ comma :: place ++ more)) as (tail & E & _).
  exists tail. rewrite E. unfold run_input.
  assert (Es : exists ps,
             split comma (header ++ comma :: place ++ more)
             = header :: place :: ps).
  { rewrite (split_at_sep comma header _ Hh).
    destruct Hm as [->|[m ->]].
    - rewrite List.app_nil_r, (split_no_sep comma place Hp). now exists [].
    - rewrite (split_at_sep comma place m Hp). now eexists. }
  destruct Es as [ps ->].
  assert (Ec : contains comma (header ++ comma :: place ++ more) = true).
  { apply contains_In, in_or_app. right. now left. }
  rewrite Ec. reflexivity.
Qed.

(** X16: when the run of the actor is [None] or an empty mapping, the
    search ends there: it returns no job, reads no dataset and logs
    nothing. *)
Theorem base_job_search_without_a_run (query actor_id location : pystr) :
  (forall run_input,
     actor_call actor_id run_input = Ok None
     \/ actor_call actor_id run_input = Ok (Some [])) ->
  exists run_input,
    run (base_job_search actor_call list_items query actor_id location)
    = (Ok [], [ActorCall actor_id run_input]).
Proof.
  intros H. exists (run_input query location).
  rewrite base_job_search_run. cbv zeta.
  destruct (H (run_input query location)) as [-> | ->]; reflexivity.
Qed.

(** X17: when the actor gives a run with a dataset and the dataset is
    listed, [base_job_search] returns what [format_job_results] makes of
    its items, so the first five records of the items that format; it
    has called the actor once, read that one dataset, and logged each
    item that does not format. *)
Theorem base_job_search_formats_the_dataset (query actor_id location : pystr)
    (id : pyval) (items : list pyval) :
  (forall run_input,
     exists d,
       actor_call actor_id run_input = Ok (Some d)
       /\ dict_get (u "defaultDatasetId") d = Some id) ->
  list_items id = Ok items ->
  exists run_input jobs trace,
    run (base_job_search actor_call list_items query actor_id location)
    = (Ok jobs, trace)
    /\ jobs = firstn 5 (well_formatted items)
    /\ Ok jobs = fst (run (format_job_results items))
    /\ actor_calls trace = [(actor_id, run_input)]
    /\ datasets_read trace = [id]
    /\ logged trace
       = map (fun e => u "Failed to format job listing: " ++ exn_str e)
           (format_errors items).
Proof.
  intros H Hi. exists (run_input query location).
  rewrite base_job_search_run. cbv zeta.
  destruct (H (run_input query location)) as (d & -> & Hd).
  assert (T : negb (truthy (PyDict d)) = false) by (destruct d; [discriminate|reflexivity]).
  rewrite T. unfold getitem. rewrite Hd, Hi.
  eexists _, _. split; [reflexivity|]. split; [reflexivity|].
  split; [unfold run; now rewrite format_job_results_trace|].
  unfold actor_calls, datasets_read, logged. cbn [flat_map app].
  destruct (logs_only exn (fun e => u "Failed to format job listing: "
                                      ++ exn_str e) (format_errors items))
    as (L1 & L2 & L3).
  unfold actor_calls, datasets_read, logged in L1, L2, L3.
  now rewrite L1, L2, L3.
Qed.

(** X18: a failure of the search is logged once, under the name of the
    actor and with the message of the exception, and ends the search
    with no job: when the call to the actor raises, when the run has no
    [defaultDatasetId], and when the listing of the dataset raises. *)
Theorem base_job_search_logs_a_failure_once (query actor_id location : pystr) :
  let failed e :=
    LogError (u "Job search failed for " ++ actor_id ++ u ": " ++ exn_str e) in
  exists run_input tail,
    snd (run (base_job_search actor_call list_items query actor_id location))
    = ActorCall actor_id run_input :: tail
    /\ (forall e,
          actor_call actor_id run_input = Raise e ->
          run (base_job_search actor_call list_items query actor_id location)
          = (Ok [], [ActorCall actor_id run_input; failed e]))
    /\ (forall d,
          actor_call actor_id run_input = Ok (Some d) -> d <> [] ->
          dict_get (u "defaultDatasetId") d = None ->
          run (base_job_search actor_call list_items query actor_id location)
          = (Ok [],
             [ActorCall actor_id run_input;
              failed (Exn (u "KeyError") (u "'defaultDatasetId'"))]))
    /\ (forall d id e,
          actor_call actor_id run_input = Ok (Some d) ->
          dict_get (u "defaultDatasetId") d = Some id ->
          list_items id = Raise e ->
          run (base_job_search actor_call list_items query actor_id location)
          = (Ok [], [ActorCall actor_id run_input; ListItems id; failed e])).
Proof.
  intros failed.
  destruct (base_job_search_sends_the_input actor_id location query)
    as (tail & E & _).
  exists (run_input query location), tail. split; [exact E|]. clear E.
  rewrite base_job_search_run. cbv zeta.
  split; [|split].
  - intros e ->. reflexivity.
  - intros d -> Hd Hk.
    assert (T : negb (truthy (PyDict d)) = false) by (destruct d; [easy|reflexivity]).
    rewrite T. unfold getitem. rewrite Hk. reflexivity.
  - intros d id e -> Hk Hl.
    assert (T : negb (truthy (PyDict d)) = false) by (destruct d; [discriminate|reflexivity]).
    rewrite T. unfold getitem. rewrite Hk, Hl. reflexivity.
Qed.

(** X19: every search is bounded: it returns, with at most five
    records, after exactly one call to the actor, which is the actor it
    was given, and at most one read of a dataset. *)
Theorem base_job_search_is_bounded (query actor_id location : pystr) :
  exists jobs trace,
    run (base_job_search actor_call list_items query actor_id location)
    = (Ok jobs, trace)
    /\ (length jobs <= 5)%nat
    /\ (exists run_input, actor_calls trace = [(actor_id, run_input)])
    /\ (length (datasets_read trace) <= 1)%nat.
Proof.
  rewrite base_job_search_run. cbv zeta.
  destruct (actor_call actor_id _) as [[d|]|e].
  - destruct (negb (truthy (PyDict d))).
    + eexists _, _. split; [reflexivity|]. cbn. split; [lia|].
      split; [now eexists | lia].
    + destruct (getitem d "defaultDatasetId") as [id|e].
      * destruct (list_items id) as [items|e].
        -- eexists _, _. split; [reflexivity|].
           split; [rewrite length_firstn; lia|].
           unfold actor_calls, datasets_read. cbn [flat_map app].
           destruct (logs_only exn
                       (fun e => u "Failed to format job listing: " ++ exn_str e)
                       (format_errors items)) as (L1 & L2 & _).
           unfold actor_calls, datasets_read in L1, L2. rewrite L1, L2.
           split; [now eexists | cbn; lia].
        -- eexists _, _. split; [reflexivity|]. cbn. split; [lia|].
           split; [now eexists | lia].
      * eexists _, _. split; [reflexivity|]. cbn. split; [lia|].
        split; [now eexists | lia].
  - eexists _, _. split; [reflexivity|]. cbn. split; [lia|].
    split; [now eexists | lia].
  - eexists _, _. split; [reflexivity|]. cbn. split; [lia|].
    split; [now eexists | lia].
Qed.

(** X20: without a comma in the input, each of the three adapters
    searches for the whole input, stripped, at the location "Remote" and
    with the limit 10, and each on a board of its own. *)
Theorem adapters_default_to_remote (query : pystr) :
  contains comma query = false ->
  let run_input :=
    PyDict [(u "query", PyStr (strip query)); (u "location", PyStr (u "Remote"));
            (u "limit", PyInt 10)] in
  (exists tail,
     snd (run (_linkedin_search actor_call list_items query))
     = ActorCall (u "krandiash/linkedin-jobs-scraper") run_input :: tail)
  /\ (exists tail,
        snd (run (_indeed_search actor_call list_items query))
        = ActorCall (u "krandiash/indeed-scraper") run_input :: tail)
  /\ (exists tail,
        snd (run (_dice_search actor_call list_items query))
        = ActorCall (u "mohamedgb00714/dicecom-job-scraper") run_input :: tail).
Proof.
  intros Hc ri.
  assert (G : forall actor_id,
             exists tail,
               snd (run (base_job_search actor_call list_items query actor_id
                           Remote))
               = ActorCall actor_id ri :: tail).
  { intros actor_id.
    destruct (base_job_search_sends_the_input actor_id Remote query)
      as (tail & E & _).
    exists tail. rewrite E. unfold run_input.
    now rewrite Hc, (split_no_sep comma query Hc). }
  split; [|split]; apply G.
Qed.

End SearchFacts.

(** ** The resume analysis *)

Lemma pystr_eqb_refl (k : pystr) : pystr_eqb k k = true.
Proof. now apply pystr_eqb_eq. Qed.

(** A key that is set is found with its new value. *)
Lemma dict_get_set_same (k : pystr) (v : pyval) (d : list (pystr * pyval)) :
  dict_get k (dict_set k v d) = Some v.
Proof.
  induction d as [|[k' v'] d IH]; cbn [dict_set dict_get].
  - now rewrite pystr_eqb_refl.
  - destruct (pystr_eqb k k') eqn:E; cbn [dict_get]; now rewrite E.
Qed.

(** The other keys keep their values. *)
Lemma dict_get_set_other (k k' : pystr) (v : pyval) (d : list (pystr * pyval)) :
  k' <> k -> dict_get k' (dict_set k v d) = dict_get k' d.
Proof.
  intros Hk. induction d as [|[k0 v0] d IH]; cbn [dict_set dict_get].
  - destruct (pystr_eqb k' k) eqn:E; [|reflexivity].
    apply pystr_eqb_eq in E. contradiction.
  - destruct (pystr_eqb k k0) eqn:E; cbn [dict_get].
    + apply pystr_eqb_eq in E. subst k0.
      destruct (pystr_eqb k' k) eqn:E'; [|reflexivity].
      apply pystr_eqb_eq in E'. contradiction.
    + now rewrite IH.
Qed.

Section ResumeFacts.
Context {interp : Interpreter}.
Variable chain_ainvoke : pystr -> result pyval.
Import Tools.

Lemma analyze_resume_not_blank (resume_text : pystr) :
  strip resume_text <> [] ->
  run (_analyze_resume chain_ainvoke resume_text)
  = match and_then (chain_ainvoke resume_text)
            (fun analysis => with_raw_text analysis resume_text) with
    | Ok record => (Ok record, [ModelCall resume_text])
    | Raise e =>
        (Ok (failed_resume e resume_text),
         [ModelCall resume_text;
          LogError (u "Resume analysis failed: " ++ exn_str e)])
    end.
Proof.
  intros Hs. unfold run, _analyze_resume.
  assert (T : negb (truthy (PyStr (strip resume_text))) = false).
  { cbn [truthy]. destruct (strip resume_text); [easy | reflexivity]. }
  rewrite T. unfold try_except, bind, emit, lift, ret, any_exception, and_then.
  cbn [app].
  destruct (chain_ainvoke resume_text) as [analysis|e]; [|reflexivity].
  destruct (with_raw_text analysis resume_text) as [record|e]; reflexivity.
Qed.

(** X21: [_analyze_resume] never raises.  On a blank text it returns
    the "empty input" record, which has no [raw_text], without a call to
    the model; on any other text it calls the model once, with the text,
    and whether the analysis succeeds or fails the record that it
    returns keeps the text under [raw_text]. *)
Theorem analyze_resume_never_raises (resume_text : pystr) :
  exists record trace,
    run (_analyze_resume chain_ainvoke resume_text) = (Ok record, trace)
    /\ (strip resume_text = [] ->
        record = empty_resume /\ trace = []
        /\ item record "raw_text" = None)
    /\ (strip resume_text <> [] ->
        model_calls trace = [resume_text]
        /\ item record "raw_text" = Some (PyStr resume_text)).
Proof.
  destruct (strip resume_text) as [|c s] eqn:Es.
  - exists empty_resume, []. split.
    + unfold run, _analyze_resume. now rewrite Es.
    + split; [now intros _ | easy].
  - assert (Hs : strip resume_text <> []) by (rewrite Es; discriminate).
    rewrite (analyze_resume_not_blank resume_text Hs).
    destruct (chain_ainvoke resume_text) as [analysis|e]; cbn [and_then].
    + destruct analysis as [ |b|n|f|t|l|d]; cbn [with_raw_text];
        try (eexists _, _; split; [reflexivity|]; split; [discriminate|];
             intros _; split; reflexivity).
      eexists _, _. split; [reflexivity|]. split; [discriminate|].
      intros _. split; [reflexivity|]. cbn [item]. apply dict_get_set_same.
    + eexists _, _. split; [reflexivity|]. split; [discriminate|].
      intros _. split; reflexivity.
Qed.

(** X22: when the chain returns a mapping, the record is that mapping
    with [raw_text] set to the resume text: the text replaces a
    [raw_text] that the model may have given, and every other key keeps
    the value of the analysis.  Nothing is logged. *)
Theorem analyze_resume_adds_the_raw_text (resume_text : pystr)
    (d : list (pystr * pyval)) :
  strip resume_text <> [] ->
  chain_ainvoke resume_text = Ok (PyDict d) ->
  exists r,
    run (_analyze_resume chain_ainvoke resume_text)
    = (Ok (PyDict r), [ModelCall resume_text])
    /\ dict_get (u "raw_text") r = Some (PyStr resume_text)
    /\ (forall key, key <> u "raw_text" -> dict_get key r = dict_get key d).
Proof.
  intros Hs Hc. rewrite (analyze_resume_not_blank resume_text Hs), Hc.
  cbn [and_then with_raw_text]. eexists. split; [reflexivity|].
  split; [apply dict_get_set_same|].
  intros key Hk. now apply dict_get_set_other.
Qed.

(** X23: when the chain raises, or returns a value that is not a
    mapping and so cannot be unpacked on line 168, the failure is logged
    once and the record of lines 172-177 is returned: the message of the
    exception under [error], no skills, experience or education, zero
    years of experience, and the resume text under [raw_text]. *)
Theorem analyze_resume_failure_record (resume_text : pystr) :
  strip resume_text <> [] ->
  (forall e,
     chain_ainvoke resume_text = Raise e ->
     run (_analyze_resume chain_ainvoke resume_text)
     = (Ok (failed_resume e resume_text),
        [ModelCall resume_text;
         LogError (u "Resume analysis failed: " ++ exn_str e)]))
  /\ (forall v,
        chain_ainvoke resume_text = Ok v -> (forall d, v <> PyDict d) ->
        let e := Exn (u "TypeError")
                   (u "'" ++ type_name v ++ u "' object is not a mapping") in
        run (_analyze_resume chain_ainvoke resume_text)
        = (Ok (failed_resume e resume_text),
           [ModelCall resume_text;
            LogError (u "Resume analysis failed: " ++ exn_str e)]))
  /\ (forall e,
        item (failed_resume e resume_text) "error" = Some (PyStr (exn_str e))
        /\ item (failed_resume e resume_text) "skills" = Some (PyList [])
        /\ item (failed_resume e resume_text) "experience" = Some (PyList [])
        /\ item (failed_resume e resume_text) "education" = Some (PyList [])
        /\ item (failed_resume e resume_text) "years_experience"
           = Some (PyInt 0)
        /\ item (failed_resume e resume_text) "raw_text"
           = Some (PyStr resume_text)).
Proof.
  intros Hs. rewrite (analyze_resume_not_blank resume_text Hs).
  split; [|split].
  - intros e ->. reflexivity.
  - intros v -> Hv e.
    destruct v as [ |b|n|f|t|l|d]; try reflexivity.
    exfalso. now apply (Hv d).
  - intros e. repeat split; reflexivity.
Qed.

End ResumeFacts.

(** ** The report *)
Section ReportFacts.
Context {interp : Interpreter}.
Import Main.







End ReportFacts.

(** ** The whole of [main] *)
Section EntryFacts.
Context {interp : Interpreter}.
Variable agent_ainvoke : pystr -> result pyval.
Import Entry.

(** [d.get(key, default)] *)
Let field (d : list (pystr * pyval)) (key : string) (default : pyval) : pyval :=
  match dict_get (u key) d with Some v => v | None => default end.

(** What [main] does with an input that is a mapping, or with the
    fallback in its place. *)
Lemma main_of_mapping (input : pyval) (d : list (pystr * pyval)) :
  or_else input fallback_input = PyDict d ->
  run (main agent_ainvoke input)
  = match agent_ainvoke
            (agent_input (field d "resume" (PyStr []))
               (field d "location" (PyStr (u "Remote")))
               (field d "jobType" (PyStr (u "full-time")))
               (field d "keywords" (PyStr []))) with
    | Ok result => run (Main.main result)
    | Raise e => (Raise e, [])
    end.
Proof.
  intros Hd. unfold run, main. rewrite Hd.
  unfold bind, lift, method_get, field.
  destruct (agent_ainvoke _) as [result|e]; reflexivity.
Qed.


(** X27: with no input, or with an input that is falsy such as the
    empty mapping, [main] takes the fallback input, of which it reads
    nothing: the agent is asked the question for an empty resume, the
    location "Remote", the job type "full-time" and no keywords, and
    [main] goes on with the result as it does for any other. *)
Theorem main_without_input_asks_with_the_defaults (input : pyval) :
  truthy input = false ->
  run (main agent_ainvoke input)
  = match agent_ainvoke
            (agent_input (PyStr []) (PyStr (u "Remote"))
               (PyStr (u "full-time")) (PyStr [])) with
    | Ok result => run (Main.main result)
    | Raise e => (Raise e, [])
    end.
Proof.
  intros T.
  assert (Hd : or_else input fallback_input = fallback_input)
    by (unfold or_else; now rewrite T).
  exact (main_of_mapping input _ Hd).
Qed.

End EntryFacts.

(** ** Instances *)

Lemma main_falsy_json_is_reported_unparsed_witness :
  run (@Main.main cpython (Main.agent_result (PyStr (u "null"))))
  = (Ok tt,
     [JsonLoads (u "null");
      PushData (Main.error_payload (u "Could not parse JSON output")
                  (PyStr (u "null")))]).
Proof.
  apply (@main_falsy_json_is_reported_unparsed cpython
           (Main.agent_result (PyStr (u "null"))) (u "null") PyNone);
    reflexivity.
Defined.


Lemma main_jobs_text_is_cut_to_five_characters_witness :
  run (@Main.main cpython
         (Main.agent_result (PyStr (dq "{'jobs': 'abcdefgh'}"))))
  = (Ok tt,
     [JsonLoads (dq "{'jobs': 'abcdefgh'}");
      PushData
        (PyDict [(u "summary", PyStr (u "No summary provided"));
                 (u "jobs", PyStr (u "abcde"));
                 (u "recommendations", PyList [])])]).
Proof.
  apply (@main_jobs_text_is_cut_to_five_characters cpython
           (Main.agent_result (PyStr (dq "{'jobs': 'abcdefgh'}")))
           (dq "{'jobs': 'abcdefgh'}") [(u "jobs", PyStr (u "abcdefgh"))]
           (u "abcdefgh"));
    reflexivity.
Defined.


Lemma main_attempts_in_order_witness :
  (searches (snd (run (@Main.main cpython
                         (Main.agent_result (PyStr fenced_example)))))
   = [fenced_example]
   /\ json_attempts (snd (run (@Main.main cpython
                                 (Main.agent_result (PyStr fenced_example)))))
      = [fenced_example; strip (block [] example_body)])
  /\ (json_attempts (snd (run (@Main.main cpython
                                 (Main.agent_result (PyStr long_number)))))
      = [long_number]
      /\ searches (snd (run (@Main.main cpython
                               (Main.agent_result (PyStr long_number)))))
         = []).
Proof.
  split.
  - exact (@main_attempts_in_order cpython
             (Main.agent_result (PyStr fenced_example)) fenced_example eq_refl).
  - pose proof (@main_attempts_in_order cpython
                  (Main.agent_result (PyStr long_number)) long_number eq_refl)
      as H.
    cbv zeta in H.
    assert (E : @json_loads cpython long_number
                = Raise (@too_many_digits cpython 4301))
      by (vm_compute; reflexivity).
    rewrite E in H. exact H.
Defined.

Lemma json_block_captures_an_object_witness :
  strip (block [] example_body) = block [] example_body.
Proof.
  exact (proj1 (proj2 (@json_block_captures_an_object cpython fenced_example
                         (block [] example_body) eq_refl))).
Defined.

Lemma main_text_without_backtick_witness :
  run (@Main.main cpython (Main.agent_result (PyStr (u "I found 3 jobs."))))
  = (Ok tt,
     [JsonLoads (u "I found 3 jobs."); ReSearch (u "I found 3 jobs.");
      PushData (Main.error_payload (u "Could not parse JSON output")
                  (PyStr (u "I found 3 jobs.")))]).
Proof.
  apply (@main_text_without_backtick cpython
           (Main.agent_result (PyStr (u "I found 3 jobs.")))
           (u "I found 3 jobs.")).
  - reflexivity.
  - unfold no_backtick. rewrite Forall_forall. intros c Hc ->.
    vm_compute in Hc. intuition discriminate.
  - reflexivity.
Defined.

Lemma main_text_that_starts_with_a_fence_witness :
  @json_loads cpython fenced_example = Raise JSONDecodeError
  /\ exists tail,
       run (@Main.main cpython (Main.agent_result (PyStr fenced_example)))
       = (Ok tt, JsonLoads fenced_example :: ReSearch fenced_example :: tail)
       /\ searches tail = [].
Proof.
  exact (@main_text_that_starts_with_a_fence cpython
           (Main.agent_result (PyStr fenced_example)) [] (tl fenced_example)
           eq_refl (Forall_nil _)).
Defined.

Lemma main_is_idempotent_witness :
  let data :=
    PyDict [(u "summary", PyStr (u "No summary provided"));
            (u "jobs", PyList [PyInt 1; PyInt 2; PyInt 3; PyInt 4; PyInt 5]);
            (u "recommendations", PyList [])] in
  pushes (snd (run (@Main.main cpython
                      (Main.agent_result
                         (PyStr (dq "{'jobs': [1, 2, 3, 4, 5, 6, 7]}"))))))
  = [data]
  /\ exists text,
       @json_dumps cpython 980 data = Ok text
       /\ run (@Main.main cpython (Main.agent_result (PyStr text)))
          = (Ok tt, [JsonLoads text; PushData data]).
Proof.
  intros data. split; [reflexivity|].
  eexists. split; [reflexivity|].
  apply (@main_is_idempotent cpython
           (Main.agent_result (PyStr (dq "{'jobs': [1, 2, 3, 4, 5, 6, 7]}")))
           data 980%nat).
  - reflexivity.
  - now eexists _, _, _.
  - reflexivity.
  - reflexivity.
  - vm_compute. lia.
Defined.

Lemma format_job_accepts_exactly_the_formattable_witness :
  (exists r, @Tools.format_job cpython job_padded = Ok r)
  /\ ~ (exists r, @Tools.format_job cpython job_untitled = Ok r).
Proof.
  split.
  - apply (@format_job_accepts_exactly_the_formattable cpython job_padded).
    reflexivity.
  - intros H.
    apply (@format_job_accepts_exactly_the_formattable cpython job_untitled)
      in H.
    discriminate H.
Defined.

Lemma format_job_strips_the_text_fields_witness :
  exists r,
    @Tools.format_job cpython job_padded = Ok r
    /\ Tools.title r = u "Developer"
    /\ Tools.company r = u "Acme"
    /\ Tools.location r = u "Paris"
    /\ strip (Tools.title r) = Tools.title r.
Proof.
  eexists. split; [reflexivity|].
  destruct (@format_job_strips_the_text_fields cpython job_padded _ eq_refl)
    as (E1 & E2 & E3 & E4 & _).
  split; [exact E1|]. split; [exact E2|]. split; [exact E3 | exact E4].
Defined.

Lemma format_job_passes_the_other_fields_through_witness :
  exists r,
    @Tools.format_job cpython job_padded = Ok r
    /\ Tools.posting_date r = PyStr []
    /\ Tools.salary r = PyInt 50000
    /\ Tools.is_remote r = PyStr (u "yes").
Proof.
  eexists. split; [reflexivity|].
  destruct (@format_job_passes_the_other_fields_through cpython job_padded _
              eq_refl)
    as (E1 & _ & E3 & _ & E5).
  split; [exact E1|]. split; [exact E3 | exact E5].
Defined.

Lemma base_job_search_reads_query_then_location_witness :
  exists tail,
    snd (run (@Tools.base_job_search cpython actor_down (items_of [])
                (u "developer , Paris, France") (u "some/actor") Tools.Remote))
    = ActorCall (u "some/actor")
        (PyDict [(u "query", PyStr (u "developer"));
                 (u "location", PyStr (u "Paris")); (u "limit", PyInt 10)])
      :: tail.
Proof.
  exact (@base_job_search_reads_query_then_location cpython actor_down
           (items_of []) (u "developer ") (u " Paris") (u ", France")
           (u "some/actor") Tools.Remote eq_refl eq_refl
           (or_intror (ex_intro _ (u " France") eq_refl))).
Defined.

Lemma base_job_search_without_a_run_witness :
  exists run_input,
    run (@Tools.base_job_search cpython actor_idle (items_of seven_items)
           (u "developer") (u "some/actor") Tools.Remote)
    = (Ok [], [ActorCall (u "some/actor") run_input]).
Proof.
  apply (@base_job_search_without_a_run cpython actor_idle
           (items_of seven_items)).
  intros run_input. now left.
Defined.

Lemma base_job_search_formats_the_dataset_witness :
  exists run_input jobs trace,
    run (@Tools.base_job_search cpython actor_up (items_of seven_items)
           (u "developer") (u "some/actor") Tools.Remote)
    = (Ok jobs, trace)
    /\ jobs = firstn 5 (@Tools.well_formatted cpython seven_items)
    /\ actor_calls trace = [(u "some/actor", run_input)]
    /\ datasets_read trace = [PyStr (u "ds1")].
Proof.
  destruct (@base_job_search_formats_the_dataset cpython actor_up
              (items_of seven_items) (u "developer") (u "some/actor")
              Tools.Remote (PyStr (u "ds1")) seven_items)
    as (ri & jobs & trace & R & J & _ & A & D & _).
  - intros run_input. eexists. split; reflexivity.
  - reflexivity.
  - exists ri, jobs, trace. auto.
Defined.

Lemma adapters_default_to_remote_witness :
  exists tail,
    snd (run (@Tools._indeed_search cpython actor_down (items_of [])
                (u " data engineer ")))
    = ActorCall (u "krandiash/indeed-scraper")
        (PyDict [(u "query", PyStr (u "data engineer"));
                 (u "location", PyStr (u "Remote")); (u "limit", PyInt 10)])
      :: tail.
Proof.
  exact (proj1 (proj2 (@adapters_default_to_remote cpython actor_down
                         (items_of []) (u " data engineer ") eq_refl))).
Defined.

Lemma analyze_resume_adds_the_raw_text_witness :
  exists r,
    run (Tools._analyze_resume chain_up (u "Ten years of Rocq"))
    = (Ok (PyDict r), [ModelCall (u "Ten years of Rocq")])
    /\ dict_get (u "raw_text") r = Some (PyStr (u "Ten years of Rocq"))
    /\ dict_get (u "years_experience") r = Some (PyInt 10).
Proof.
  destruct (analyze_resume_adds_the_raw_text chain_up (u "Ten years of Rocq")
              [(u "skills", PyList [PyStr (u "Rocq")]);
               (u "raw_text", PyStr (u "summary by the model"));
               (u "years_experience", PyInt 10)])
    as (r & R & E & K).
  - intros H. vm_compute in H. discriminate H.
  - reflexivity.
  - exists r. split; [exact R|]. split; [exact E|].
    rewrite K; [reflexivity|]. intros H. vm_compute in H. discriminate H.
Defined.

Lemma analyze_resume_failure_record_witness :
  run (Tools._analyze_resume no_chain (u "Ten years of Rocq"))
  = (Ok (Tools.failed_resume (Exn (u "RuntimeError") (u "no model"))
           (u "Ten years of Rocq")),
     [ModelCall (u "Ten years of Rocq");
      LogError (u "Resume analysis failed: no model")]).
Proof.
  refine (proj1 (analyze_resume_failure_record no_chain
                   (u "Ten years of Rocq") _) _ eq_refl).
  intros H. vm_compute in H. discriminate H.
Defined.



Lemma main_without_input_asks_with_the_defaults_witness :
  run (@Entry.main cpython agent_down (PyDict []))
  = (Raise (Exn (u "ConnectionError") (u "unreachable")), []).
Proof.
  exact (@main_without_input_asks_with_the_defaults cpython agent_down
           (PyDict []) eq_refl).
Defined.

Lemma main_tries_only_the_first_block_witness :
  @json_loads cpython (dq "{'summary':'ok'}")
  = Ok (PyDict [(u "summary", PyStr (u "ok"))])
  /\ run (@Main.main cpython (Main.agent_result (PyStr two_blocks)))
     = (Ok tt,
        [JsonLoads two_blocks; ReSearch two_blocks; JsonLoads broken_block;
         PushData (Main.error_payload (u "Could not parse JSON output")
                     (PyStr two_blocks))]).
Proof.
  split; [reflexivity|].
  apply (@main_tries_only_the_first_block cpython
           (Main.agent_result (PyStr two_blocks)) two_blocks broken_block);
    reflexivity.
Defined.

